(** * The ScoreCard admin grid (src/app/test-grid/page.tsx)

    A shallow embedding of the state and the event handlers of the
    [AdminDataGrid] component: the grid edits, the comments, the sorting,
    the spreadsheet import and the persistence to the browser's local
    storage, followed by the properties proved about them. *)

From Stdlib Require Import ZArith Ascii String List Permutation Lia DecimalPos DecimalZ.
From stdpp Require Import gmap strings list fin_maps.

Set Warnings "-register-all".
Local Open Scope string_scope.
Local Open Scope list_scope.
Local Open Scope stdpp_scope.

(** ** JavaScript strings and values *)

Module JS.

(** Strings are sequences of code units; the model keeps the code units
    below 256.  [is_space] is the class the language uses both for
    [String.prototype.trim] and for [\s] in a regular expression. *)
Definition is_space (c : ascii) : bool :=
  let n := nat_of_ascii c in
  ((9 <=? n)%nat && (n <=? 13)%nat) || (n =? 32)%nat || (n =? 160)%nat.

Fixpoint trimStart (s : string) : string :=
  match s with
  | EmptyString => EmptyString
  | String c s' => if is_space c then trimStart s' else s
  end.

Definition is_empty (s : string) : bool :=
  match s with EmptyString => true | _ => false end.

Fixpoint trimEnd (s : string) : string :=
  match s with
  | EmptyString => EmptyString
  | String c s' =>
      let t := trimEnd s' in
      if is_space c && is_empty t then EmptyString else String c t
  end.

(** [s.trim()] *)
Definition trim (s : string) : string := trimEnd (trimStart s).

Definition lower_char (c : ascii) : ascii :=
  let n := nat_of_ascii c in
  if ((65 <=? n)%nat && (n <=? 90)%nat)
     || ((192 <=? n)%nat && (n <=? 222)%nat && negb (n =? 215)%nat)
  then ascii_of_nat (n + 32) else c.

(** [s.toLowerCase()] *)
Fixpoint toLowerCase (s : string) : string :=
  match s with
  | EmptyString => EmptyString
  | String c s' => String (lower_char c) (toLowerCase s')
  end.

(** [c.toUpperCase()] for a string of one code unit.  The upper-case form
    of the sharp s (223) is the two letters SS.  The upper-case forms of the
    micro sign (181) and of the y with diaeresis (255) are code units above
    255, which the strings of the model do not hold: the model leaves these
    two as they are, so it follows the code for every other code unit. *)
Definition upper_char (c : ascii) : string :=
  let n := nat_of_ascii c in
  if (n =? 223)%nat then "SS"
  else if ((97 <=? n)%nat && (n <=? 122)%nat)
          || ((224 <=? n)%nat && (n <=? 254)%nat && negb (n =? 247)%nat)
  then String (ascii_of_nat (n - 32)) EmptyString
  else String c EmptyString.

(** [s.replace(/\s+/g, '_')]: every maximal run of white space becomes one
    underscore.  [in_run] tells that the previous code unit was white space. *)
Fixpoint replace_spaces_from (in_run : bool) (s : string) : string :=
  match s with
  | EmptyString => EmptyString
  | String c s' =>
      if is_space c
      then if in_run then replace_spaces_from true s'
           else String "_" (replace_spaces_from true s')
      else String c (replace_spaces_from false s')
  end.

Definition replace_spaces (s : string) : string := replace_spaces_from false s.

(** [s.startsWith(p)] *)
Fixpoint startsWith (p s : string) : bool :=
  match p, s with
  | EmptyString, _ => true
  | String a p', String b s' => bool_decide (a = b) && startsWith p' s'
  | String _ _, EmptyString => false
  end.

(** [s.charAt(0).toUpperCase() + s.slice(1)] *)
Definition capitalize (s : string) : string :=
  match s with
  | EmptyString => EmptyString
  | String c s' => upper_char c +:+ s'
  end.

(** Primitive values: what a spreadsheet cell holds.  A number is named by
    its value, and the numbers of the model are the integers: the code below
    compares numbers and takes their maximum, which is exact, and computes
    one sum, [id + 1], which is rounded as the language rounds it
    ([js_add]). *)
Inductive prim :=
| PUndef
| PNull
| PBool (b : bool)
| PNum (n : Z)
| PStr (s : string).

#[export] Instance prim_eq_dec : EqDecision prim.
Proof. solve_decision. Defined.

(** Values of the language that the grid stores: primitives, [Date]
    objects (named by their ISO-8601 rendering), functions and other host
    objects (named by a tag), arrays and plain objects. *)
Inductive value :=
| VPrim (p : prim)
| VDate (iso : string)
| VNative (tag : string)
| VArr (items : list value)
| VObj (fields : list (string * value)).

Coercion VPrim : prim >-> value.

Definition VStr (s : string) : value := VPrim (PStr s).
Definition VNum (n : Z) : value := VPrim (PNum n).

(** The double nearest to an integer, a tie going to the even significand
    of 53 bits: the value of an arithmetic operation whose exact result is
    the integer.  Every integer up to [2^53] in absolute value is a double;
    above, the doubles are the multiples of a power of two. *)
Definition round_double (z : Z) : Z :=
  let a := Z.abs z in
  let e := (Z.log2 a - 52)%Z in
  if (e <=? 0)%Z then z
  else
    let q := (a / 2 ^ e)%Z in
    let r := (a mod 2 ^ e)%Z in
    let half := (2 ^ (e - 1))%Z in
    let q' := if (half <? r)%Z || ((r =? half)%Z && Z.odd q) then (q + 1)%Z else q in
    (Z.sgn z * (q' * 2 ^ e))%Z.

(** [a + b] on numbers *)
Definition js_add (a b : Z) : Z := round_double (a + b).

(** Numbers print in decimal: an integer below [10^21] in absolute value
    prints with all its digits.  [print_uint d k] and [print_int n k] are
    the digits in front of the text [k]. *)
Fixpoint print_uint (d : Decimal.uint) (k : string) : string :=
  match d with
  | Decimal.Nil => k
  | Decimal.D0 d' => String "0" (print_uint d' k)
  | Decimal.D1 d' => String "1" (print_uint d' k)
  | Decimal.D2 d' => String "2" (print_uint d' k)
  | Decimal.D3 d' => String "3" (print_uint d' k)
  | Decimal.D4 d' => String "4" (print_uint d' k)
  | Decimal.D5 d' => String "5" (print_uint d' k)
  | Decimal.D6 d' => String "6" (print_uint d' k)
  | Decimal.D7 d' => String "7" (print_uint d' k)
  | Decimal.D8 d' => String "8" (print_uint d' k)
  | Decimal.D9 d' => String "9" (print_uint d' k)
  end.

Definition print_int (n : Z) (k : string) : string :=
  match Z.to_int n with
  | Decimal.Pos d => print_uint d k
  | Decimal.Neg d => String "-" (print_uint d k)
  end.

(** [String(n)] for a number below [10^21] in absolute value (from there on
    the language prints an exponent). *)
Definition number_string (n : Z) : string := print_int n EmptyString.

(** Truthiness of a primitive, as [!x], [x && _] and [x || _] test it. *)
Definition truthy (p : prim) : bool :=
  match p with
  | PUndef | PNull => false
  | PBool b => b
  | PNum n => negb (n =? 0)%Z
  | PStr s => negb (is_empty s)
  end.

(** [String(x)] *)
Definition js_String (p : prim) : string :=
  match p with
  | PUndef => "undefined"
  | PNull => "null"
  | PBool true => "true"
  | PBool false => "false"
  | PNum n => number_string n
  | PStr s => s
  end.

(** [x ?? ''] *)
Definition or_empty (p : prim) : prim :=
  match p with
  | PUndef | PNull => PStr ""
  | _ => p
  end.

(** Exceptions: a handler either completes or throws. *)
Inductive error := TypeError (msg : string).

Inductive result (A : Type) :=
| Ok (a : A)
| Throw (e : error).
Arguments Ok {A} a.
Arguments Throw {A} e.

Definition bind {A B} (r : result A) (k : A -> result B) : result B :=
  match r with
  | Ok a => k a
  | Throw e => Throw e
  end.

(** Plain objects are finite maps from property names to values.  The
    names below are the ones every plain object inherits from
    [Object.prototype]; [in] sees them, and assigning a primitive to
    [__proto__] creates no property. *)
Definition Object_prototype : list string :=
  [ "constructor"; "__defineGetter__"; "__defineSetter__"; "hasOwnProperty";
    "__lookupGetter__"; "__lookupSetter__"; "isPrototypeOf";
    "propertyIsEnumerable"; "toString"; "valueOf"; "__proto__";
    "toLocaleString" ].

Definition inherited (k : string) : bool := bool_decide (k ∈ Object_prototype).

(** [k in o] *)
Definition js_in {V} (k : string) (o : gmap string V) : bool :=
  bool_decide (is_Some (o !! k)) || inherited k.

(** [o[k]] *)
Definition js_get (k : string) (o : gmap string value) : value :=
  match o !! k with
  | Some v => v
  | None => if inherited k then VNative k else VPrim PUndef
  end.

(** [o[k] = v] for a primitive [v] *)
Definition js_assign {V} (k : string) (v : V) (o : gmap string V) : gmap string V :=
  if bool_decide (k = "__proto__") then o else <[k := v]> o.

(** [x == null] *)
Definition is_nullish (v : value) : bool :=
  match v with
  | VPrim PUndef | VPrim PNull => true
  | _ => false
  end.

End JS.

Import JS.

(** ** JSON text and the local storage *)

Module Json.

(** The trees that [JSON.parse] returns and [JSON.stringify] prints. *)
Inductive json :=
| JNull
| JBool (b : bool)
| JNum (n : Z)
| JStr (s : string)
| JArr (items : list json)
| JObj (fields : list (string * json)).

(** The platform's [JSON] object: printing a tree and reading it back
    returns the tree, and a printed tree is never the empty text. *)
Class Codec := {
  stringify : json -> string;
  parse : string -> option json;
  parse_stringify : forall j, parse (stringify j) = Some j;
  stringify_nonempty : forall j, stringify j <> "";
  stringify_empty_object : stringify (JObj []) = "{}"
}.

(** What [JSON.stringify] keeps of a value: [undefined] and functions have
    no image (they are left out of an object and become [null] in an
    array), a [Date] is printed through its [toJSON], the ISO string. *)
Fixpoint to_json (v : value) : option json :=
  match v with
  | VPrim PUndef => None
  | VPrim PNull => Some JNull
  | VPrim (PBool b) => Some (JBool b)
  | VPrim (PNum n) => Some (JNum n)
  | VPrim (PStr s) => Some (JStr s)
  | VDate iso => Some (JStr iso)
  | VNative _ => None
  | VArr items =>
      Some (JArr ((fix go (l : list value) : list json :=
                     match l with
                     | [] => []
                     | x :: l' =>
                         match to_json x with
                         | Some j => j
                         | None => JNull
                         end :: go l'
                     end) items))
  | VObj fields =>
      Some (JObj ((fix go (l : list (string * value)) : list (string * json) :=
                     match l with
                     | [] => []
                     | (k, x) :: l' =>
                         match to_json x with
                         | Some j => (k, j) :: go l'
                         | None => go l'
                         end
                     end) fields))
  end.

(** The value a parsed tree stands for. *)
Fixpoint of_json (j : json) : value :=
  match j with
  | JNull => VPrim PNull
  | JBool b => VPrim (PBool b)
  | JNum n => VPrim (PNum n)
  | JStr s => VPrim (PStr s)
  | JArr items => VArr (List.map of_json items)
  | JObj fields =>
      VObj ((fix go (l : list (string * json)) : list (string * value) :=
               match l with
               | [] => []
               | (k, x) :: l' => (k, of_json x) :: go l'
               end) fields)
  end.

(** [JSON.stringify(v)] for a value that has an image (every array and
    object has one). *)
Definition to_json_or_null (v : value) : json :=
  match to_json v with
  | Some j => j
  | None => JNull
  end.

End Json.

Import Json.

(** ** The component state *)

(** A row of a grid: [{ id, name?, ..., [key: string]: any }]. *)
Abbreviation Row := (gmap string value).

(** The cell renderers the component installs in its columns; they are
    closures, of which the model keeps the identity only. *)
Inductive Renderer :=
| PriceInput
| TextInput (placeholder : string)
| CountInput
| AddressInput
| ContactButton (field : string)
| PlainInput
| NullHeader.

(** [MyColumn = Column<Row> & { locked?, isDefault? }]; an absent or
    [undefined] field is [None]. *)
Record MyColumn := {
  col_key : string;
  col_name : string;
  col_editable : option bool;
  col_sortable : option bool;
  col_isDefault : option bool;
  col_renderCell : option Renderer;
  col_renderEditCell : option Renderer;
  col_renderHeaderCell : option Renderer
}.

(** [createdAt] is declared a [Date]; what [JSON.parse] gives back for it
    is the text [JSON.stringify] wrote. *)
Inductive Created :=
| CreatedDate (iso : string)
| CreatedText (s : string).

Record ScoreCard := {
  sc_id : string;
  sc_name : string;
  sc_columns : list MyColumn;
  sc_rows : list Row;
  sc_createdAt : Created
}.

(** [{ columns, rows }], what [getCurrentData] returns. *)
Record GridData := {
  columns : list MyColumn;
  rows : list Row
}.

(** [{ columns?: MyColumn[]; rows?: Row[] }] *)
Record Updates := {
  u_columns : option (list MyColumn);
  u_rows : option (list Row)
}.

Inductive Direction := ASC | DESC.

Record SortColumn := {
  columnKey : string;
  direction : Direction
}.

Record Comment := {
  text : string;
  timestamp : string;
  username : string
}.

(** The [user] object fetched from [/api/auth/me]. *)
Record User := {
  user_name : option string;
  user_username : option string
}.

(** A row or parent identifier, [number | string]. *)
Inductive Ident :=
| IdNum (n : Z)
| IdStr (s : string).

(** The property name an identifier is used under: the identifier itself,
    or [String(n)] for a number. *)
Definition prop_key (i : Ident) : string :=
  match i with
  | IdNum n => number_string n
  | IdStr s => s
  end.

(** A sub-grid.  [handleSubGridRowsChange] can create one with [rows]
    only and [handleToggleSubGrid] one with [expanded] only, so each of the
    three fields may be [undefined]. *)
Record SubGrid := {
  sg_columns : option (list MyColumn);
  sg_rows : option (list Row);
  sg_expanded : option bool
}.

Record Model := {
  userRole : string;
  scorecards : list ScoreCard;
  scorecards_ref : nat;
  categoryData : gmap string Updates;
  selectedCategory : option string;
  sortColumns : list SortColumn;
  showAddColModal : bool;
  newColName : string;
  colError : string;
  openCommentRowId : option Z;
  commentInput : string;
  user : option User;
  comments : gmap string (gmap Z (list Comment));
  subGrids : gmap string SubGrid;
  showCreateScoreCardModal : bool;
  newScoreCardName : string;
  localStorage : gmap string string
}.

(** The [set...] functions of the [useState] hooks.  [scorecards_ref]
    stands for the identity of the [scorecards] array, by which the effect
    that saves it is keyed: every [setScorecards] installs a new array. *)
Definition setScorecards (x : list ScoreCard) (m : Model) : Model :=
  Build_Model (userRole m) x (S (scorecards_ref m)) (categoryData m) (selectedCategory m) (sortColumns m) (showAddColModal m) (newColName m) (colError m) (openCommentRowId m) (commentInput m) (user m) (comments m) (subGrids m) (showCreateScoreCardModal m) (newScoreCardName m) (localStorage m).
Definition setCategoryData (x : gmap string Updates) (m : Model) : Model :=
  Build_Model (userRole m) (scorecards m) (scorecards_ref m) x (selectedCategory m) (sortColumns m) (showAddColModal m) (newColName m) (colError m) (openCommentRowId m) (commentInput m) (user m) (comments m) (subGrids m) (showCreateScoreCardModal m) (newScoreCardName m) (localStorage m).
Definition setSelectedCategory (x : option string) (m : Model) : Model :=
  Build_Model (userRole m) (scorecards m) (scorecards_ref m) (categoryData m) x (sortColumns m) (showAddColModal m) (newColName m) (colError m) (openCommentRowId m) (commentInput m) (user m) (comments m) (subGrids m) (showCreateScoreCardModal m) (newScoreCardName m) (localStorage m).
Definition setSortColumns (x : list SortColumn) (m : Model) : Model :=
  Build_Model (userRole m) (scorecards m) (scorecards_ref m) (categoryData m) (selectedCategory m) x (showAddColModal m) (newColName m) (colError m) (openCommentRowId m) (commentInput m) (user m) (comments m) (subGrids m) (showCreateScoreCardModal m) (newScoreCardName m) (localStorage m).
Definition setShowAddColModal (x : bool) (m : Model) : Model :=
  Build_Model (userRole m) (scorecards m) (scorecards_ref m) (categoryData m) (selectedCategory m) (sortColumns m) x (newColName m) (colError m) (openCommentRowId m) (commentInput m) (user m) (comments m) (subGrids m) (showCreateScoreCardModal m) (newScoreCardName m) (localStorage m).
Definition setNewColName (x : string) (m : Model) : Model :=
  Build_Model (userRole m) (scorecards m) (scorecards_ref m) (categoryData m) (selectedCategory m) (sortColumns m) (showAddColModal m) x (colError m) (openCommentRowId m) (commentInput m) (user m) (comments m) (subGrids m) (showCreateScoreCardModal m) (newScoreCardName m) (localStorage m).
Definition setColError (x : string) (m : Model) : Model :=
  Build_Model (userRole m) (scorecards m) (scorecards_ref m) (categoryData m) (selectedCategory m) (sortColumns m) (showAddColModal m) (newColName m) x (openCommentRowId m) (commentInput m) (user m) (comments m) (subGrids m) (showCreateScoreCardModal m) (newScoreCardName m) (localStorage m).
Definition setOpenCommentRowId (x : option Z) (m : Model) : Model :=
  Build_Model (userRole m) (scorecards m) (scorecards_ref m) (categoryData m) (selectedCategory m) (sortColumns m) (showAddColModal m) (newColName m) (colError m) x (commentInput m) (user m) (comments m) (subGrids m) (showCreateScoreCardModal m) (newScoreCardName m) (localStorage m).
Definition setCommentInput (x : string) (m : Model) : Model :=
  Build_Model (userRole m) (scorecards m) (scorecards_ref m) (categoryData m) (selectedCategory m) (sortColumns m) (showAddColModal m) (newColName m) (colError m) (openCommentRowId m) x (user m) (comments m) (subGrids m) (showCreateScoreCardModal m) (newScoreCardName m) (localStorage m).
Definition setComments (x : gmap string (gmap Z (list Comment))) (m : Model) : Model :=
  Build_Model (userRole m) (scorecards m) (scorecards_ref m) (categoryData m) (selectedCategory m) (sortColumns m) (showAddColModal m) (newColName m) (colError m) (openCommentRowId m) (commentInput m) (user m) x (subGrids m) (showCreateScoreCardModal m) (newScoreCardName m) (localStorage m).
Definition setSubGrids (x : gmap string SubGrid) (m : Model) : Model :=
  Build_Model (userRole m) (scorecards m) (scorecards_ref m) (categoryData m) (selectedCategory m) (sortColumns m) (showAddColModal m) (newColName m) (colError m) (openCommentRowId m) (commentInput m) (user m) (comments m) x (showCreateScoreCardModal m) (newScoreCardName m) (localStorage m).
Definition setShowCreateScoreCardModal (x : bool) (m : Model) : Model :=
  Build_Model (userRole m) (scorecards m) (scorecards_ref m) (categoryData m) (selectedCategory m) (sortColumns m) (showAddColModal m) (newColName m) (colError m) (openCommentRowId m) (commentInput m) (user m) (comments m) (subGrids m) x (newScoreCardName m) (localStorage m).
Definition setNewScoreCardName (x : string) (m : Model) : Model :=
  Build_Model (userRole m) (scorecards m) (scorecards_ref m) (categoryData m) (selectedCategory m) (sortColumns m) (showAddColModal m) (newColName m) (colError m) (openCommentRowId m) (commentInput m) (user m) (comments m) (subGrids m) (showCreateScoreCardModal m) x (localStorage m).
(** [localStorage.setItem(k, v)] *)
Definition setItem (k v : string) (m : Model) : Model :=
  Build_Model (userRole m) (scorecards m) (scorecards_ref m) (categoryData m) (selectedCategory m) (sortColumns m) (showAddColModal m) (newColName m) (colError m) (openCommentRowId m) (commentInput m) (user m) (comments m) (subGrids m) (showCreateScoreCardModal m) (newScoreCardName m) (<[k := v]> (localStorage m)).

(** ** The images of the state in JSON *)

Definition opt_field {A} (k : string) (f : A -> value) (o : option A)
  : list (string * value) :=
  match o with
  | Some a => [(k, f a)]
  | None => []
  end.

Definition bool_value (b : bool) : value := VPrim (PBool b).
Definition renderer_value (r : Renderer) : value := VNative "function".

Definition column_value (c : MyColumn) : value :=
  VObj ([("key", VStr (col_key c)); ("name", VStr (col_name c))]
        ++ opt_field "editable" bool_value (col_editable c)
        ++ opt_field "sortable" bool_value (col_sortable c)
        ++ opt_field "isDefault" bool_value (col_isDefault c)
        ++ opt_field "renderCell" renderer_value (col_renderCell c)
        ++ opt_field "renderEditCell" renderer_value (col_renderEditCell c)
        ++ opt_field "renderHeaderCell" renderer_value (col_renderHeaderCell c)).

Definition row_value (r : Row) : value := VObj (map_to_list r).

Definition created_value (c : Created) : value :=
  match c with
  | CreatedDate iso => VDate iso
  | CreatedText s => VStr s
  end.

Definition scorecard_value (sc : ScoreCard) : value :=
  VObj [("id", VStr (sc_id sc));
        ("name", VStr (sc_name sc));
        ("columns", VArr (map column_value (sc_columns sc)));
        ("rows", VArr (map row_value (sc_rows sc)));
        ("createdAt", created_value (sc_createdAt sc))].

Definition scorecards_value (scs : list ScoreCard) : value :=
  VArr (map scorecard_value scs).

Definition comment_value (c : Comment) : value :=
  VObj [("text", VStr (text c));
        ("timestamp", VStr (timestamp c));
        ("username", VStr (username c))].

Definition row_comments_value (rc : gmap Z (list Comment)) : value :=
  VObj (map (fun kv => (number_string (fst kv), VArr (map comment_value (snd kv))))
            (map_to_list rc)).

Definition comments_value (cs : gmap string (gmap Z (list Comment))) : value :=
  VObj (map (fun kv => (fst kv, row_comments_value (snd kv))) (map_to_list cs)).

(** ** Reading the current grid and writing it back *)

Definition findIndex {A} (p : A -> bool) (l : list A) : option nat :=
  (fix go (i : nat) (l : list A) : option nat :=
     match l with
     | [] => None
     | x :: l' => if p x then Some i else go (S i) l'
     end) 0%nat l.

Definition has_key (k : string) (c : MyColumn) : bool :=
  bool_decide (col_key c = k).

Definition with_name (n : string) (c : MyColumn) : MyColumn :=
  {| col_key := col_key c; col_name := n;
     col_editable := col_editable c; col_sortable := col_sortable c;
     col_isDefault := col_isDefault c; col_renderCell := col_renderCell c;
     col_renderEditCell := col_renderEditCell c;
     col_renderHeaderCell := col_renderHeaderCell c |}.

(** [col.key === 'comments' ? { ...col, name: '', renderHeaderCell: () => null } : col] *)
Definition blank_comments (c : MyColumn) : MyColumn :=
  if has_key "comments" c
  then {| col_key := col_key c; col_name := "";
          col_editable := col_editable c; col_sortable := col_sortable c;
          col_isDefault := col_isDefault c; col_renderCell := col_renderCell c;
          col_renderEditCell := col_renderEditCell c;
          col_renderHeaderCell := Some NullHeader |}
  else c.

(** [sc => sc.id === selectedCategory] *)
Definition selects (sel : string) (sc : ScoreCard) : bool :=
  bool_decide (sc_id sc = sel).

Definition getCurrentData (m : Model) : option GridData :=
  match selectedCategory m with
  | None => None
  | Some sel =>
      if is_empty sel then None
      else if startsWith "scorecard_" sel then
        match List.find (selects sel) (scorecards m) with
        | Some sc => Some {| columns := sc_columns sc; rows := sc_rows sc |}
        | None => None
        end
      else None
  end.

(** [{ ...sc, ...updates, rows: updates.rows ? [...updates.rows] : sc.rows }]
    for every ScoreCard whose id is [scorecardId]. *)
Definition updateScoreCard (scorecardId : string) (updates : Updates)
    (scs : list ScoreCard) : list ScoreCard :=
  map (fun sc =>
         if bool_decide (sc_id sc = scorecardId)
         then {| sc_id := sc_id sc; sc_name := sc_name sc;
                 sc_columns := default (sc_columns sc) (u_columns updates);
                 sc_rows := default (sc_rows sc) (u_rows updates);
                 sc_createdAt := sc_createdAt sc |}
         else sc) scs.

(** [{ ...prev[selectedCategory], ...updates }] *)
Definition merge_updates (old : option Updates) (updates : Updates) : Updates :=
  {| u_columns := match u_columns updates with
                  | Some c => Some c
                  | None => old ≫= u_columns
                  end;
     u_rows := match u_rows updates with
               | Some r => Some r
               | None => old ≫= u_rows
               end |}.

(** [selectedCategory.startsWith] throws when no category is selected. *)
Definition updateCurrentData (updates : Updates) (m : Model) : result Model :=
  let updates' := {| u_columns := map blank_comments <$> u_columns updates;
                     u_rows := u_rows updates |} in
  match selectedCategory m with
  | None => Throw (TypeError "Cannot read properties of undefined (reading 'startsWith')")
  | Some sel =>
      if startsWith "scorecard_" sel
      then Ok (setScorecards (updateScoreCard sel updates' (scorecards m)) m)
      else Ok (setCategoryData
                 (<[sel := merge_updates (categoryData m !! sel) updates']>
                    (categoryData m)) m)
  end.

Definition only_rows (r : list Row) : Updates :=
  {| u_columns := None; u_rows := Some r |}.
Definition only_columns (c : list MyColumn) : Updates :=
  {| u_columns := Some c; u_rows := None |}.
Definition columns_and_rows (c : list MyColumn) (r : list Row) : Updates :=
  {| u_columns := Some c; u_rows := Some r |}.

(** [typeof r.id === 'number' ? r.id : 0] *)
Definition numeric_id (r : Row) : Z :=
  match r !! "id" with
  | Some (VPrim (PNum n)) => n
  | _ => 0%Z
  end.

(** [row.id === rowId] *)
Definition id_is (i : Ident) (r : Row) : bool :=
  match r !! "id", i with
  | Some (VPrim (PNum n)), IdNum k => bool_decide (n = k)
  | Some (VPrim (PStr s)), IdStr t => bool_decide (s = t)
  | _, _ => false
  end.

(** [Math.max(x, ...l)] *)
Definition Math_max (x : Z) (l : list Z) : Z := fold_left Z.max l x.

(** [rows.length > 0 ? Math.max(...rows.map(numeric id)) + 1 : 1] *)
Definition next_id (rs : list Row) : Z :=
  match map numeric_id rs with
  | [] => 1%Z
  | x :: l => js_add (Math_max x l) 1
  end.

(** ** The handlers of the main grid *)

Section Handlers.
Context `{Codec}.

(** [localStorage.setItem('retailers', JSON.stringify(rows))] *)
Definition saveRetailersToStorage (rs : list Row) (m : Model) : Model :=
  setItem "retailers" (stringify (to_json_or_null (VArr (map row_value rs)))) m.

(** [localStorage.setItem('scorecards', JSON.stringify(scorecards))] *)
Definition saveScoreCardsToStorage (scs : list ScoreCard) (m : Model) : Model :=
  setItem "scorecards" (stringify (to_json_or_null (scorecards_value scs))) m.

(** [stored ? JSON.parse(stored) : []], and [[]] when parsing throws. *)
Definition loadScoreCardsFromStorage (storage : gmap string string) : json :=
  match storage !! "scorecards" with
  | None => JArr []
  | Some stored =>
      if is_empty stored then JArr []
      else match parse stored with
           | Some j => j
           | None => JArr []
           end
  end.

(** [localStorage.setItem('scorecardComments', JSON.stringify(newComments))] *)
Definition saveScorecardComments (cs : gmap string (gmap Z (list Comment)))
    (m : Model) : Model :=
  setItem "scorecardComments" (stringify (to_json_or_null (comments_value cs))) m.


(** The effect that runs whenever [scorecards] has changed. *)
Definition effect_save (m : Model) : Model :=
  saveScoreCardsToStorage (scorecards m) m.

Definition when_retailers (rs : list Row) (m : Model) : Model :=
  if bool_decide (selectedCategory m = Some "Retailers")
  then saveRetailersToStorage rs m else m.

Definition onRowsChange (newRows : list Row) (m : Model) : result Model :=
  bind (updateCurrentData (only_rows newRows) m)
       (fun m' => Ok (when_retailers newRows m')).

Definition handleColumnNameChange (idx : nat) (newName : string) (m : Model)
  : result Model :=
  match getCurrentData m with
  | None => Ok m
  | Some cd =>
      updateCurrentData
        (only_columns (imap (fun i col => if bool_decide (i = idx)
                                          then with_name newName col else col)
                            (columns cd))) m
  end.

(** The body of the [forEach] of [handleAddRow]. *)
Definition fill_column (newRow : Row) (col : MyColumn) : Row :=
  if negb (has_key "id" col) && negb (has_key "delete" col)
     && negb (js_in (col_key col) newRow)
  then <[col_key col := VStr ""]> newRow
  else newRow.

Definition new_row (cd : GridData) : Row :=
  fold_left fill_column (columns cd)
            (<["name" := VStr ""]> {["id" := VNum (next_id (rows cd))]}).

Definition handleAddRow (m : Model) : result Model :=
  match getCurrentData m with
  | None => Ok m
  | Some cd =>
      let updatedRows := rows cd ++ [new_row cd] in
      bind (updateCurrentData (only_rows updatedRows) m)
           (fun m' => Ok (when_retailers updatedRows m'))
  end.

Definition handleDeleteRow (rowId : Z) (m : Model) : result Model :=
  match getCurrentData m with
  | None => Ok m
  | Some cd =>
      let updatedRows := List.filter (fun r => negb (id_is (IdNum rowId) r)) (rows cd) in
      bind (updateCurrentData (only_rows updatedRows) m)
           (fun m' => Ok (when_retailers updatedRows m'))
  end.

Definition openAddColModal (m : Model) : Model :=
  setShowAddColModal true (setNewColName "" m).

(** [name.trim().toLowerCase().replace(/\s+/g, '_')] *)
Definition make_key (name : string) : string :=
  replace_spaces (toLowerCase (trim name)).

Definition new_column (m : Model) (key : string) : MyColumn :=
  {| col_key := key; col_name := newColName m;
     col_editable := Some (bool_decide (userRole m = "ADMIN"));
     col_sortable := Some true; col_isDefault := None;
     col_renderCell := None; col_renderEditCell := None;
     col_renderHeaderCell := None |}.

(** [[...cols.slice(0, i), c, ...cols.slice(i)]] *)
Definition insert_at (i : nat) (c : MyColumn) (cols : list MyColumn) : list MyColumn :=
  take i cols ++ c :: drop i cols.

Definition insert_index (cols : list MyColumn) : nat :=
  match findIndex (has_key "retail_price") cols with
  | Some i => i
  | None => length cols
  end.

Definition handleAddColumnConfirm (m : Model) : result Model :=
  if is_empty (trim (newColName m))
  then Ok (setColError "Column name is required." m)
  else
    let key := make_key (newColName m) in
    match getCurrentData m with
    | None => Ok m
    | Some cd =>
        if existsb (has_key key) (columns cd)
        then Ok (setColError "Column name must be unique." m)
        else
          let updatedColumns :=
            map blank_comments
                (insert_at (insert_index (columns cd)) (new_column m key) (columns cd)) in
          let updatedRows := map (fun row => <[key := VStr ""]> row) (rows cd) in
          bind (updateCurrentData (columns_and_rows updatedColumns updatedRows) m)
               (fun m' => Ok (setColError "" (setNewColName "" (setShowAddColModal false m'))))
    end.

Definition handleDeleteColumn (colKey : string) (m : Model) : result Model :=
  match getCurrentData m with
  | None => Ok m
  | Some cd =>
      let updatedColumns := List.filter (fun col => negb (has_key colKey col)) (columns cd) in
      let updatedRows := map (fun row : Row => delete colKey row) (rows cd) in
      updateCurrentData (columns_and_rows updatedColumns updatedRows) m
  end.

Definition handleSortClick (key : string) (m : Model) : Model :=
  match List.find (fun sc => bool_decide (columnKey sc = key)) (sortColumns m) with
  | None => setSortColumns [ {| columnKey := key; direction := ASC |} ] m
  | Some existing =>
      match direction existing with
      | ASC => setSortColumns [ {| columnKey := key; direction := DESC |} ] m
      | DESC => setSortColumns [] m
      end
  end.

Definition handleCategoryChange (category : string) (m : Model) : Model :=
  setSortColumns [] (setSelectedCategory (Some category) m).

(** The effect on [userRole] and [selectedCategory]: every column of the
    current grid is made editable for an administrator, and gets the plain
    input as its editor when it has none. *)
Definition make_editable (role : string) (col : MyColumn) : MyColumn :=
  let editable := bool_decide (role = "ADMIN")
                  && negb (has_key "id" col) && negb (has_key "delete" col) in
  {| col_key := col_key col; col_name := col_name col;
     col_editable := Some editable; col_sortable := col_sortable col;
     col_isDefault := col_isDefault col; col_renderCell := col_renderCell col;
     col_renderEditCell := match col_renderEditCell col with
                           | Some r => Some r
                           | None => if editable then Some PlainInput else None
                           end;
     col_renderHeaderCell := col_renderHeaderCell col |}.

Definition effect_editable (m : Model) : result Model :=
  match getCurrentData m with
  | None => Ok m
  | Some cd => updateCurrentData (only_columns (map (make_editable (userRole m)) (columns cd))) m
  end.

Definition default_column (key name : string) (editable sortable : bool)
    (cell edit : option Renderer) : MyColumn :=
  {| col_key := key; col_name := name;
     col_editable := Some editable; col_sortable := Some sortable;
     col_isDefault := Some true; col_renderCell := cell;
     col_renderEditCell := edit; col_renderHeaderCell := None |}.

Definition retailersColumns : list MyColumn :=
  [ default_column "name" "Retailer Name" true true None None;
    default_column "retail_price" "Retail Price" true true None (Some PriceInput);
    default_column "buyer" "Buyer" true true None (Some (TextInput "Enter buyer name"));
    default_column "store_count" "Store Count" true true None (Some CountInput);
    default_column "hq_location" "HQ Location" true true None (Some AddressInput);
    default_column "cmg" "CMG" false false (Some (ContactButton "cmg")) None;
    default_column "brand_lead" "Brand Lead" false false (Some (ContactButton "brand_lead")) None ].

(** [createScoreCard], at time [now] (milliseconds) whose date prints as [iso]. *)
Definition createScoreCard (now : Z) (iso : string) (m : Model) : Model :=
  if is_empty (trim (newScoreCardName m)) then m
  else
    let retailersCols :=
      match categoryData m !! "Retailers" ≫= u_columns with
      | Some c => c
      | None => retailersColumns
      end in
    let newScoreCard :=
      {| sc_id := "scorecard_" +:+ number_string now;
         sc_name := trim (newScoreCardName m);
         sc_columns := retailersCols;
         sc_rows := [ <["name" := VStr "Item 1"]> {["id" := VNum 1]};
                      <["name" := VStr "Item 2"]> {["id" := VNum 2]} ];
         sc_createdAt := CreatedDate iso |} in
    setShowCreateScoreCardModal false
      (setNewScoreCardName "" (setScorecards (scorecards m ++ [newScoreCard]) m)).

Definition deleteScoreCard (scorecardId : string) (m : Model) : Model :=
  let m' := setScorecards
              (List.filter (fun sc => negb (bool_decide (sc_id sc = scorecardId)))
                           (scorecards m)) m in
  if bool_decide (selectedCategory m = Some scorecardId)
  then setSelectedCategory None m' else m'.

End Handlers.

(** ** Comments *)

Section CommentHandlers.
Context `{Codec}.

(** [user?.name || user?.username || 'Anonymous'] *)
Definition current_username (u : option User) : string :=
  match u with
  | None => "Anonymous"
  | Some u =>
      match user_name u with
      | Some (String c s) => String c s
      | _ =>
          match user_username u with
          | Some (String c s) => String c s
          | _ => "Anonymous"
          end
      end
  end.

(** The comments of one row of one ScoreCard,
    [(comments[category] || {})[rowId] || []]. *)
Definition comments_of (cs : gmap string (gmap Z (list Comment)))
    (category : string) (rowId : Z) : list Comment :=
  default [] (default ∅ (cs !! category) !! rowId).

(** The new map that the updater of [handleAddComment] builds. *)
Definition add_comment (category : string) (rowId : Z) (c : Comment)
    (prev : gmap string (gmap Z (list Comment)))
  : gmap string (gmap Z (list Comment)) :=
  <[category := <[rowId := comments_of prev category rowId ++ [c]]>
                  (default ∅ (prev !! category))]> prev.

(** [handleAddComment], run at a moment whose local rendering is [now]. *)
Definition handleAddComment (now : string) (m : Model) : result Model :=
  if is_empty (trim (commentInput m)) then Ok m
  else
    match openCommentRowId m with
    | None => Ok m
    | Some rowId =>
        match selectedCategory m with
        | None => Throw (TypeError "Cannot read properties of undefined (reading 'startsWith')")
        | Some sel =>
            if negb (startsWith "scorecard_" sel) then Ok m
            else
              let newComment := {| text := trim (commentInput m);
                                   timestamp := now;
                                   username := current_username (user m) |} in
              let updated := add_comment sel rowId newComment (comments m) in
              Ok (setCommentInput "" (setComments updated (saveScorecardComments updated m)))
        end
    end.

(** [comments[selectedCategory]] reads the property named by the category,
    ["undefined"] when none is selected. *)
Definition selected_key (m : Model) : string :=
  default "undefined" (selectedCategory m).

(** The Save button of a comment under edit: [updated[category][row.id][i].text = t]. *)
Definition saveEditedComment (rowId : Ident) (i : nat) (t : string) (m : Model)
  : result Model :=
  match rowId with
  | IdStr _ =>
      Ok (setComments (comments m) (saveScorecardComments (comments m) m))
  | IdNum r =>
      match Some (selected_key m) ≫= (fun sel => (comments m !! sel) ≫= (fun rc =>
              (rc !! r) ≫= (fun l => (l !! i) ≫= (fun c => Some (sel, rc, l, c))))) with
      | None => Throw (TypeError "Cannot set properties of undefined (setting 'text')")
      | Some (sel, rc, l, c) =>
          let c' := {| text := t; timestamp := timestamp c; username := username c |} in
          let updated := <[sel := <[r := <[i := c']> l]> rc]> (comments m) in
          Ok (setComments updated (saveScorecardComments updated m))
      end
  end.

(** The Delete button of a comment: [updated[category][row.id].splice(i, 1)]. *)
Definition deleteComment (rowId : Ident) (i : nat) (m : Model) : result Model :=
  match rowId with
  | IdStr _ =>
      Ok (setComments (comments m) (saveScorecardComments (comments m) m))
  | IdNum r =>
      match Some (selected_key m) ≫= (fun sel => (comments m !! sel) ≫= (fun rc =>
              (rc !! r) ≫= (fun l => Some (sel, rc, l)))) with
      | None => Throw (TypeError "Cannot read properties of undefined (reading 'splice')")
      | Some (sel, rc, l) =>
          let updated := <[sel := <[r := take i l ++ drop (S i) l]> rc]> (comments m) in
          Ok (setComments updated (saveScorecardComments updated m))
      end
  end.

End CommentHandlers.

(** ** Sub-grids *)

Definition truthy_value (v : value) : bool :=
  match v with
  | VPrim p => truthy p
  | _ => true
  end.

Definition text_column (key name : string) : MyColumn :=
  {| col_key := key; col_name := name;
     col_editable := Some true; col_sortable := Some true;
     col_isDefault := None; col_renderCell := None;
     col_renderEditCell := None; col_renderHeaderCell := None |}.

(** [{ columns: [], rows: [], expanded: true }] *)
Definition empty_grid : SubGrid :=
  {| sg_columns := Some []; sg_rows := Some []; sg_expanded := Some true |}.

(** [subGrids] is a plain object, so [subGrids[parentId]] is the entry the
    object holds under the name or, when it holds none, what every object
    inherits from [Object.prototype] under that name: a function, or the
    prototype itself for ['__proto__'].  An inherited value is truthy and has
    none of the properties [columns], [rows] and [expanded], nor any property
    that a spread [{ ...grid }] would copy. *)
Definition no_fields : SubGrid :=
  {| sg_columns := None; sg_rows := None; sg_expanded := None |}.

(** [prev[parentId]] when it is truthy, by its three fields. *)
Definition grid_at (parentId : Ident) (grids : gmap string SubGrid) : option SubGrid :=
  match grids !! prop_key parentId with
  | Some g => Some g
  | None => if inherited (prop_key parentId) then Some no_fields else None
  end.

(** [grid.columns] and [grid.rows], which must be arrays where they are
    iterated. *)
Definition columns_of (g : SubGrid) : result (list MyColumn) :=
  match sg_columns g with
  | Some c => Ok c
  | None => Throw (TypeError "grid.columns is undefined")
  end.

Definition rows_of (g : SubGrid) : result (list Row) :=
  match sg_rows g with
  | Some r => Ok r
  | None => Throw (TypeError "grid.rows is undefined")
  end.

(** [{ ...prev, [parentId]: g }] *)
Definition with_grid (parentId : Ident) (g : SubGrid) (m : Model) : Model :=
  setSubGrids (<[prop_key parentId := g]> (subGrids m)) m.

Definition ensureSubGrid (parentId : option Ident) (m : Model) : Model :=
  match parentId with
  | None => m
  | Some p =>
      match grid_at p (subGrids m) with
      | Some _ => m
      | None => with_grid p {| sg_columns := Some [text_column "task" "Task"];
                               sg_rows := Some []; sg_expanded := Some true |} m
      end
  end.

(** [prev[parentId] ? { ...prev[parentId], expanded: !prev[parentId].expanded }
    : prev[parentId]]; an absent grid stays [undefined]. *)
Definition handleToggleSubGrid (parentId : option Ident) (m : Model) : Model :=
  match parentId with
  | None => m
  | Some p =>
      match grid_at p (subGrids m) with
      | None => m
      | Some g =>
          with_grid p {| sg_columns := sg_columns g; sg_rows := sg_rows g;
                         sg_expanded := Some (negb (default false (sg_expanded g))) |} m
      end
  end.

Definition handleDeleteSubGrid (parentId : option Ident) (m : Model) : Model :=
  match parentId with
  | None => m
  | Some p => setSubGrids (delete (prop_key p) (subGrids m)) m
  end.

Definition handleAddSubGrid (parentId : Ident) (m : Model) : Model :=
  with_grid parentId {| sg_columns := Some [text_column "note" "Note"];
                        sg_rows := Some []; sg_expanded := Some true |} m.

(** [handleSubGridAddColumn] at time [now];
    [grid = prev[parentId] || { columns: [], rows: [], expanded: true }]. *)
Definition handleSubGridAddColumn (parentId : option Ident) (now : Z) (m : Model)
  : result Model :=
  match parentId with
  | None => Ok m
  | Some p =>
      let colKey := "col_" +:+ number_string now in
      let grid := default empty_grid (grid_at p (subGrids m)) in
      bind (columns_of grid) (fun cols =>
      bind (rows_of grid) (fun rws =>
        Ok (with_grid p
              {| sg_columns := Some (cols ++ [text_column colKey "New Column"]);
                 sg_rows := Some (map (fun row : Row => <[colKey := VStr ""]> row) rws);
                 sg_expanded := sg_expanded grid |} m)))
  end.

Definition handleSubGridAddRow (parentId : option Ident) (m : Model) : result Model :=
  match parentId with
  | None => Ok m
  | Some p =>
      let grid := default empty_grid (grid_at p (subGrids m)) in
      bind (rows_of grid) (fun rws =>
        let newId := next_id rws in
        bind (columns_of grid) (fun cols =>
          let newRow := fold_left (fun (r : Row) col => js_assign (col_key col) (VStr "") r)
                                  cols {["id" := VNum newId]} in
          Ok (with_grid p
                {| sg_columns := sg_columns grid;
                   sg_rows := Some (rws ++ [newRow]);
                   sg_expanded := sg_expanded grid |} m)))
  end.

(** [{ ...prev[parentId], rows: newRows.filter(r => !r.isAddRow) }]; the
    spread copies the fields of an entry and nothing of an inherited value. *)
Definition handleSubGridRowsChange (parentId : option Ident) (newRows : list Row)
    (m : Model) : Model :=
  match parentId with
  | None => m
  | Some p =>
      let old := subGrids m !! prop_key p in
      with_grid p
        {| sg_columns := old ≫= sg_columns;
           sg_rows := Some (List.filter (fun r => negb (truthy_value (js_get "isAddRow" r)))
                                        newRows);
           sg_expanded := old ≫= sg_expanded |} m
  end.

Definition handleSubGridColumnNameChange (parentId : option Ident) (idx : nat)
    (newName : string) (m : Model) : result Model :=
  match parentId with
  | None => Ok m
  | Some p =>
      match grid_at p (subGrids m) with
      | None => Ok m
      | Some grid =>
          bind (columns_of grid) (fun cols =>
            Ok (with_grid p
                  {| sg_columns := Some (imap (fun i col => if bool_decide (i = idx)
                                                           then with_name newName col
                                                           else col) cols);
                     sg_rows := sg_rows grid;
                     sg_expanded := sg_expanded grid |} m))
      end
  end.

Definition handleSubGridDeleteRow (parentId rowId : option Ident) (m : Model)
  : result Model :=
  match parentId, rowId with
  | Some p, Some r =>
      match grid_at p (subGrids m) with
      | None => Ok m
      | Some grid =>
          bind (rows_of grid) (fun rws =>
            Ok (with_grid p
                  {| sg_columns := sg_columns grid;
                     sg_rows := Some (List.filter (fun row => negb (id_is r row)) rws);
                     sg_expanded := sg_expanded grid |} m))
      end
  | _, _ => Ok m
  end.

Definition handleSubGridDeleteColumn (parentId : option Ident) (colKey : string)
    (m : Model) : result Model :=
  match parentId with
  | None => Ok m
  | Some p =>
      match grid_at p (subGrids m) with
      | None => Ok m
      | Some grid =>
          bind (columns_of grid) (fun cols =>
          bind (rows_of grid) (fun rws =>
            Ok (with_grid p
                  {| sg_columns := Some (List.filter (fun col => negb (has_key colKey col)) cols);
                     sg_rows := Some (map (fun row : Row => delete colKey row) rws);
                     sg_expanded := sg_expanded grid |} m)))
      end
  end.

(** ** Sorting *)

Section Sorting.

(** [a === b] and [a > b] on arbitrary values are the language's; nothing
    below depends on what they answer. *)
Variable strict_eq : value -> value -> bool.
Variable greater : value -> value -> bool.

(** The comparator that [getSortedRows] passes to [sort]. *)
Definition compare_rows (key : string) (dir : Direction) (a b : Row) : Z :=
  let aValue := js_get key a in
  let bValue := js_get key b in
  if is_nullish aValue then 1%Z
  else if is_nullish bValue then (-1)%Z
  else if strict_eq aValue bValue then 0%Z
  else ((if greater aValue bValue then 1 else -1)
        * (match dir with ASC => 1 | DESC => -1 end))%Z.

(** [Array.prototype.sort] with a comparator.  The language leaves the
    order to the engine when the comparator is not a consistent one (this
    one is not: a row without the value compares above itself), so the model
    fixes the algorithm: the stable insertion sort, each element going in
    front of the first one it compares below. *)
Fixpoint insert_by {A} (cmp : A -> A -> Z) (x : A) (l : list A) : list A :=
  match l with
  | [] => [x]
  | y :: l' => if (cmp x y <? 0)%Z then x :: y :: l' else y :: insert_by cmp x l'
  end.

Definition array_sort {A} (cmp : A -> A -> Z) (l : list A) : list A :=
  fold_left (fun acc x => insert_by cmp x acc) l [].

(** [getCurrentData()?.rows || []] *)
Definition current_rows (m : Model) : list Row :=
  match getCurrentData m with
  | Some cd => rows cd
  | None => []
  end.

Definition getSortedRows (m : Model) : list Row :=
  match sortColumns m with
  | [] => current_rows m
  | sc :: _ => array_sort (compare_rows (columnKey sc) (direction sc)) (current_rows m)
  end.

End Sorting.

(** ** The spreadsheet import *)

Module Excel.

(** The sheet as [XLSX.utils.sheet_to_json(worksheet, { header: 1, defval: '' })]
    returns it: an array of arrays of cells. *)
Abbreviation Sheet := (list (list prim)).

(** [row[i]] *)
Definition cell_at (row : list prim) (i : nat) : prim := default PUndef (row !! i).

(** [cell && String(cell).trim() !== ''] *)
Definition nonEmpty (cell : prim) : bool :=
  truthy cell && negb (is_empty (trim (js_String cell))).

(** The elements of [new Set(l)], in the order of their first occurrence. *)
Fixpoint set_from (seen l : list prim) : list prim :=
  match l with
  | [] => []
  | x :: l' =>
      if bool_decide (x ∈ seen) then set_from seen l'
      else x :: set_from (x :: seen) l'
  end.

Definition new_Set (l : list prim) : list prim := set_from [] l.

Definition firstCol (rows2D : Sheet) : list prim :=
  List.filter nonEmpty (map (fun row => cell_at row 0) rows2D).

Definition mostlyEmptyRest (rows2D : Sheet) : bool :=
  forallb (fun row => forallb (fun cell => negb (nonEmpty cell)) (drop 2 row)) rows2D.

Definition isVertical (rows2D : Sheet) : bool :=
  (3 <? length (new_Set (firstCol rows2D)))%nat && mostlyEmptyRest rows2D.

(** The columns and rows that the import hands to [updateCurrentData]. *)
Record Imported := {
  importedColumns : list MyColumn;
  formattedRows : list (gmap string prim)
}.

Definition imported_column (key : string) : MyColumn :=
  {| col_key := key; col_name := capitalize key;
     col_editable := Some true; col_sortable := None;
     col_isDefault := None; col_renderCell := None;
     col_renderEditCell := Some PlainInput; col_renderHeaderCell := None |}.

(** [Object.values(row).some(v => v && String(v).trim() !== '')] *)
Definition has_content (obj : gmap string prim) : bool :=
  existsb nonEmpty (map snd (map_to_list obj)).

Fixpoint mapM {A B} (f : A -> result B) (l : list A) : result (list B) :=
  match l with
  | [] => Ok []
  | x :: l' => bind (f x) (fun y => bind (mapM f l') (fun ys => Ok (y :: ys)))
  end.

(** *** Vertical format *)

(** The state of the loop over the rows: the finished blocks, the block
    under construction and the field names seen in it. *)
Record Blocks := {
  blocks : list Sheet;
  currentBlock : Sheet;
  seenFields : list prim
}.

Definition push_block (b : Blocks) : list Sheet :=
  match currentBlock b with
  | [] => blocks b
  | _ => blocks b ++ [currentBlock b]
  end.

Definition block_step (b : Blocks) (row : list prim) : Blocks :=
  let key := cell_at row 0 in
  let b1 := if negb (truthy key) || bool_decide (key ∈ seenFields b)
            then {| blocks := push_block b; currentBlock := []; seenFields := [] |}
            else b in
  if truthy key
  then {| blocks := blocks b1; currentBlock := currentBlock b1 ++ [row];
          seenFields := key :: seenFields b1 |}
  else b1.

Definition split_blocks (rows2D : Sheet) : list Sheet :=
  push_block (fold_left block_step rows2D
                        {| blocks := []; currentBlock := []; seenFields := [] |}).

Definition allKeys (bs : list Sheet) : list prim :=
  new_Set (flat_map (map (fun row => cell_at row 0)) bs).

(** [(key || `__EMPTY_${i}`).charAt(0)...]: a key is a truthy cell, and
    [charAt] exists on strings only. *)
Definition vertical_column (key : prim) : result MyColumn :=
  match key with
  | PStr s =>
      Ok {| col_key := s; col_name := capitalize s;
            col_editable := Some true; col_sortable := None;
            col_isDefault := None; col_renderCell := None;
            col_renderEditCell := Some PlainInput; col_renderHeaderCell := None |}
  | _ => Throw (TypeError "(key || `__EMPTY_${i}`).charAt is not a function")
  end.

Definition fill_missing (obj : gmap string prim) (key : prim) : gmap string prim :=
  if negb (js_in (js_String key) obj)
  then js_assign (js_String key) (PStr "") obj else obj.

Definition block_object (keys : list prim) (idx : nat) (block : Sheet)
  : gmap string prim :=
  let obj := fold_left (fun o row => js_assign (js_String (cell_at row 0))
                                              (or_empty (cell_at row 1)) o)
                       block ∅ in
  <["_rowIndex" := PNum (Z.of_nat idx)]> (fold_left fill_missing keys obj).

Definition import_vertical (rows2D : Sheet) : result Imported :=
  let bs := split_blocks rows2D in
  let keys := allKeys bs in
  bind (mapM vertical_column keys) (fun cols =>
    Ok {| importedColumns := cols;
          formattedRows := List.filter has_content (imap (block_object keys) bs) |}).

(** *** Horizontal format *)

(** The score of a row: the number of distinct non-empty cells. *)
Definition score (row : list prim) : Z :=
  Z.of_nat (length (new_Set (List.filter nonEmpty row))).

(** The loop [for (i = 0; i < Math.min(10, rows2D.length); i++)], from row
    [i] on, with the best index and score so far. *)
Fixpoint scan_headers (i : nat) (rws : Sheet) (headerRowIndex : nat) (maxScore : Z)
  : nat :=
  match rws with
  | [] => headerRowIndex
  | row :: rws' =>
      if (maxScore <? score row)%Z
      then scan_headers (S i) rws' i (score row)
      else scan_headers (S i) rws' headerRowIndex maxScore
  end.

Definition headerRowIndex (rows2D : Sheet) : nat :=
  scan_headers 0 (take (Nat.min 10 (length rows2D)) rows2D) 0 (-1).

Definition dataRows (rows2D : Sheet) : Sheet :=
  List.filter (existsb nonEmpty) (drop (headerRowIndex rows2D + 1) rows2D).

(** [(key || '').trim().toLowerCase().replace(/\s+/g, '_')]: [trim] exists
    on strings only. *)
Definition normalizeKey (key : prim) : result string :=
  if truthy key
  then match key with
       | PStr s => Ok (replace_spaces (toLowerCase (trim s)))
       | _ => Throw (TypeError "(key || '').trim is not a function")
       end
  else Ok "".

Definition row_object (normHeaders : list string) (idx : nat) (row : list prim)
  : gmap string prim :=
  <["_rowIndex" := PNum (Z.of_nat idx)]>
    (fold_left (fun o ih => js_assign (snd ih) (or_empty (cell_at row (fst ih))) o)
               (imap pair normHeaders) ∅).

Definition import_horizontal (rows2D : Sheet) : result (option Imported) :=
  match rows2D !! headerRowIndex rows2D with
  | None => Ok None
  | Some headers =>
      bind (mapM normalizeKey headers) (fun normHeaders =>
        Ok (Some {| importedColumns := map imported_column normHeaders;
                    formattedRows := List.filter has_content
                                       (imap (row_object normHeaders) (dataRows rows2D)) |}))
  end.

(** The body of [reader.onload], from [rows2D] on: [None] when it returns
    without touching the grid. *)
Definition parse_sheet (rows2D : Sheet) : result (option Imported) :=
  match rows2D with
  | [] => Ok None
  | _ =>
      if isVertical rows2D
      then bind (import_vertical rows2D) (fun i => Ok (Some i))
      else import_horizontal rows2D
  end.

Definition handleImportExcel (rows2D : Sheet) (m : Model) : result Model :=
  bind (parse_sheet rows2D) (fun r =>
    match r with
    | None => Ok m
    | Some i =>
        updateCurrentData
          (columns_and_rows (importedColumns i)
                            (map (fun obj : gmap string prim => VPrim <$> obj)
                                 (formattedRows i))) m
    end).

End Excel.

(** ** The component as a state machine *)

Section Machine.
Context `{Codec}.

(** The state before the first render, in a browser whose storage is
    [storage]: [scorecards] is what [loadScoreCardsFromStorage] returns and
    [comments] what [JSON.parse] returns for the item ['scorecardComments'],
    given here as the lists and maps [scs] and [cs] that they are (see
    [restored]); nothing is selected. *)
Definition loaded (role : string) (storage : gmap string string)
    (scs : list ScoreCard) (cs : gmap string (gmap Z (list Comment))) : Model :=
  {| userRole := role; scorecards := scs; scorecards_ref := 0;
     categoryData := ∅; selectedCategory := None; sortColumns := [];
     showAddColModal := false; newColName := ""; colError := "";
     openCommentRowId := None; commentInput := ""; user := None;
     comments := cs; subGrids := ∅;
     showCreateScoreCardModal := false; newScoreCardName := "";
     localStorage := storage |}.


(** The first visit: the storage is empty. *)
Definition fresh (role : string) : Model := loaded role ∅ [] ∅.

(** The state once the component is mounted: the effects have run once
    (the one on the columns finds no current grid). *)
Definition mount (role : string) (storage : gmap string string)
    (scs : list ScoreCard) (cs : gmap string (gmap Z (list Comment))) : Model :=
  effect_save (loaded role storage scs cs).

Definition init (role : string) : Model := mount role ∅ [] ∅.

(** The handlers that the component declares as functions, as events. *)
Inductive Event :=
| TypeScoreCardName (s : string)
| CreateScoreCard (now : Z) (iso : string)
| DeleteScoreCard (scorecardId : string)
| CategoryChange (category : string)
| RowsChange (newRows : list Row)
| AddRow
| DeleteRow (rowId : Z)
| OpenAddColModal
| TypeColumnName (s : string)
| AddColumnConfirm
| DeleteColumn (colKey : string)
| ColumnNameChange (idx : nat) (newName : string)
| SortClick (key : string)
| ImportExcel (rows2D : Excel.Sheet)
| SetUser (u : option User)
| OpenCommentModal (rowId : Z)
| TypeComment (s : string)
| AddComment (now : string)
| SaveEditedComment (rowId : Ident) (i : nat) (t : string)
| DeleteComment (rowId : Ident) (i : nat)
| EnsureSubGrid (parentId : option Ident)
| ToggleSubGrid (parentId : option Ident)
| DeleteSubGrid (parentId : option Ident)
| AddSubGrid (parentId : Ident)
| SubGridAddColumn (parentId : option Ident) (now : Z)
| SubGridAddRow (parentId : option Ident)
| SubGridRowsChange (parentId : option Ident) (newRows : list Row)
| SubGridColumnNameChange (parentId : option Ident) (idx : nat) (newName : string)
| SubGridDeleteRow (parentId rowId : option Ident)
| SubGridDeleteColumn (parentId : option Ident) (colKey : string).

Definition setUser (u : option User) (m : Model) : Model :=
  Build_Model (userRole m) (scorecards m) (scorecards_ref m) (categoryData m) (selectedCategory m) (sortColumns m) (showAddColModal m) (newColName m) (colError m) (openCommentRowId m) (commentInput m) u (comments m) (subGrids m) (showCreateScoreCardModal m) (newScoreCardName m) (localStorage m).

Definition handler (e : Event) (m : Model) : result Model :=
  match e with
  | TypeScoreCardName s => Ok (setNewScoreCardName s m)
  | CreateScoreCard now iso => Ok (createScoreCard now iso m)
  | DeleteScoreCard i => Ok (deleteScoreCard i m)
  | CategoryChange c => Ok (handleCategoryChange c m)
  | RowsChange r => onRowsChange r m
  | AddRow => handleAddRow m
  | DeleteRow r => handleDeleteRow r m
  | OpenAddColModal => Ok (openAddColModal m)
  | TypeColumnName s => Ok (setNewColName s m)
  | AddColumnConfirm => handleAddColumnConfirm m
  | DeleteColumn k => handleDeleteColumn k m
  | ColumnNameChange i n => handleColumnNameChange i n m
  | SortClick k => Ok (handleSortClick k m)
  | ImportExcel s => Excel.handleImportExcel s m
  | SetUser u => Ok (setUser u m)
  | OpenCommentModal r => Ok (setCommentInput "" (setOpenCommentRowId (Some r) m))
  | TypeComment s => Ok (setCommentInput s m)
  | AddComment now => handleAddComment now m
  | SaveEditedComment r i t => saveEditedComment r i t m
  | DeleteComment r i => deleteComment r i m
  | EnsureSubGrid p => Ok (ensureSubGrid p m)
  | ToggleSubGrid p => Ok (handleToggleSubGrid p m)
  | DeleteSubGrid p => Ok (handleDeleteSubGrid p m)
  | AddSubGrid p => Ok (handleAddSubGrid p m)
  | SubGridAddColumn p now => handleSubGridAddColumn p now m
  | SubGridAddRow p => handleSubGridAddRow p m
  | SubGridRowsChange p r => Ok (handleSubGridRowsChange p r m)
  | SubGridColumnNameChange p i n => handleSubGridColumnNameChange p i n m
  | SubGridDeleteRow p r => handleSubGridDeleteRow p r m
  | SubGridDeleteColumn p k => handleSubGridDeleteColumn p k m
  end.

(** A handler that throws leaves the state as it was. *)
Definition settle (r : result Model) (m : Model) : Model :=
  match r with
  | Ok m' => m'
  | Throw _ => m
  end.

(** What the component does when a handler [h] is called: the handler,
    then the effect keyed on the selected category when it has changed,
    then the effect keyed on [scorecards] when the array is a new one. *)
Definition react (h : Model -> result Model) (m : Model) : Model :=
  let m1 := settle (h m) m in
  let m2 := if bool_decide (selectedCategory m1 = selectedCategory m) then m1
            else settle (effect_editable m1) m1 in
  if bool_decide (scorecards_ref m2 = scorecards_ref m) then m2
  else effect_save m2.

Definition step (m : Model) (e : Event) : Model := react (handler e) m.

Definition run (role : string) (es : list Event) : Model :=
  fold_left step es (init role).

End Machine.

(** ** JSON as text

    A printer and a reader of JSON text, an instance of the interface
    [Codec].  The printer writes what [JSON.stringify] writes: no white
    space, the two-character escapes and [\u00xx] inside strings, integers
    in decimal.  The reader accepts what the printer writes. *)

Module JsonText.

Definition dq : ascii := "034"%char.
Definition backslash : ascii := "092"%char.

Definition hex_digit (n : nat) : ascii :=
  match n with
  | 0 => "0" | 1 => "1" | 2 => "2" | 3 => "3" | 4 => "4" | 5 => "5" | 6 => "6"
  | 7 => "7" | 8 => "8" | 9 => "9" | 10 => "a" | 11 => "b" | 12 => "c"
  | 13 => "d" | 14 => "e" | _ => "f"
  end%char.

Definition hex_value (c : ascii) : option nat :=
  let n := nat_of_ascii c in
  if ((48 <=? n) && (n <=? 57))%nat then Some (n - 48)%nat
  else if ((97 <=? n) && (n <=? 102))%nat then Some (n - 87)%nat
  else None.

(** One code unit of a string, escaped, in front of [k]. *)
Definition print_char (c : ascii) (k : string) : string :=
  let n := nat_of_ascii c in
  if (n =? 34)%nat then String backslash (String dq k)
  else if (n =? 92)%nat then String backslash (String backslash k)
  else if (n =? 8)%nat then String backslash (String "b" k)
  else if (n =? 9)%nat then String backslash (String "t" k)
  else if (n =? 10)%nat then String backslash (String "n" k)
  else if (n =? 12)%nat then String backslash (String "f" k)
  else if (n =? 13)%nat then String backslash (String "r" k)
  else if (n <? 32)%nat
  then String backslash (String "u" (String "0" (String "0"
         (String (hex_digit (n / 16)) (String (hex_digit (n mod 16)) k)))))
  else String c k.

Fixpoint print_chars (s : string) (k : string) : string :=
  match s with
  | EmptyString => k
  | String c s' => print_char c (print_chars s' k)
  end.

Definition print_string (s : string) (k : string) : string :=
  String dq (print_chars s (String dq k)).

(** The text of a tree, in front of [k]. *)
Fixpoint print (j : json) (k : string) : string :=
  match j with
  | JNull => String "n" (String "u" (String "l" (String "l" k)))
  | JBool true => String "t" (String "r" (String "u" (String "e" k)))
  | JBool false => String "f" (String "a" (String "l" (String "s" (String "e" k))))
  | JNum n => print_int n k
  | JStr s => print_string s k
  | JArr [] => String "[" (String "]" k)
  | JArr (x :: items) =>
      String "[" (print x
        ((fix more (l : list json) : string :=
            match l with
            | [] => String "]" k
            | y :: l' => String "," (print y (more l'))
            end) items))
  | JObj [] => String "{" (String "}" k)
  | JObj ((name, x) :: fields) =>
      String "{" (print_string name (String ":" (print x
        ((fix more (l : list (string * json)) : string :=
            match l with
            | [] => String "}" k
            | (n, y) :: l' => String "," (print_string n (String ":" (print y (more l'))))
            end) fields))))
  end.

Definition stringify (j : json) : string := print j EmptyString.

(** The characters of a string up to its closing quote, and what follows. *)
Fixpoint read_chars (s : string) : option (string * string) :=
  match s with
  | EmptyString => None
  | String c r =>
      if Ascii.eqb c dq then Some (EmptyString, r)
      else if Ascii.eqb c backslash then
        match r with
        | EmptyString => None
        | String e r1 =>
            let continue (c' : ascii) (rest : option (string * string)) :=
              match rest with
              | Some (t, r') => Some (String c' t, r')
              | None => None
              end in
            if Ascii.eqb e dq then continue dq (read_chars r1)
            else if Ascii.eqb e backslash then continue backslash (read_chars r1)
            else if Ascii.eqb e "/" then continue "/"%char (read_chars r1)
            else if Ascii.eqb e "b" then continue "008"%char (read_chars r1)
            else if Ascii.eqb e "t" then continue "009"%char (read_chars r1)
            else if Ascii.eqb e "n" then continue "010"%char (read_chars r1)
            else if Ascii.eqb e "f" then continue "012"%char (read_chars r1)
            else if Ascii.eqb e "r" then continue "013"%char (read_chars r1)
            else if Ascii.eqb e "u" then
              match r1 with
              | String "0" (String "0" (String h (String l r2))) =>
                  match hex_value h, hex_value l with
                  | Some a, Some b => continue (ascii_of_nat (16 * a + b)) (read_chars r2)
                  | _, _ => None
                  end
              | _ => None
              end
            else None
        end
      else
        match read_chars r with
        | Some (t, r') => Some (String c t, r')
        | None => None
        end
  end.

Definition digit_of (c : ascii) : option (Decimal.uint -> Decimal.uint) :=
  (if Ascii.eqb c "0" then Some Decimal.D0
   else if Ascii.eqb c "1" then Some Decimal.D1
   else if Ascii.eqb c "2" then Some Decimal.D2
   else if Ascii.eqb c "3" then Some Decimal.D3
   else if Ascii.eqb c "4" then Some Decimal.D4
   else if Ascii.eqb c "5" then Some Decimal.D5
   else if Ascii.eqb c "6" then Some Decimal.D6
   else if Ascii.eqb c "7" then Some Decimal.D7
   else if Ascii.eqb c "8" then Some Decimal.D8
   else if Ascii.eqb c "9" then Some Decimal.D9
   else None)%char.

(** The longest run of digits in front of a text, and what follows. *)
Fixpoint read_uint (s : string) : Decimal.uint * string :=
  match s with
  | EmptyString => (Decimal.Nil, s)
  | String c r =>
      match digit_of c with
      | Some d => let '(u, rest) := read_uint r in (d u, rest)
      | None => (Decimal.Nil, s)
      end
  end.

Definition read_number (negative : bool) (s : string) : option (json * string) :=
  match read_uint s with
  | (Decimal.Nil, _) => None
  | (u, rest) =>
      Some (JNum (Z.of_int (if negative then Decimal.Neg u else Decimal.Pos u)), rest)
  end.

Fixpoint strip_prefix (p s : string) : option string :=
  match p, s with
  | EmptyString, _ => Some s
  | String a p', String b s' => if Ascii.eqb a b then strip_prefix p' s' else None
  | String _ _, EmptyString => None
  end.

(** A value in front of a text, and what follows; [fuel] bounds the
    nesting and the number of items. *)
Fixpoint read_value (fuel : nat) (s : string) : option (json * string) :=
  match fuel with
  | O => None
  | S fuel =>
      match s with
      | EmptyString => None
      | String c r =>
          (if Ascii.eqb c "n" then
             match strip_prefix "ull" r with Some r' => Some (JNull, r') | None => None end
           else if Ascii.eqb c "t" then
             match strip_prefix "rue" r with Some r' => Some (JBool true, r') | None => None end
           else if Ascii.eqb c "f" then
             match strip_prefix "alse" r with Some r' => Some (JBool false, r') | None => None end
           else if Ascii.eqb c dq then
             match read_chars r with Some (t, r') => Some (JStr t, r') | None => None end
           else if Ascii.eqb c "[" then
             match read_items fuel r with
             | Some (l, r') => Some (JArr l, r')
             | None =>
                 match r with
                 | String "]" r' => Some (JArr [], r')
                 | _ => None
                 end
             end
           else if Ascii.eqb c "{" then
             match read_members fuel r with
             | Some (l, r') => Some (JObj l, r')
             | None =>
                 match r with
                 | String "}" r' => Some (JObj [], r')
                 | _ => None
                 end
             end
           else if Ascii.eqb c "-" then read_number true r
           else read_number false s)%char
      end
  end
with read_items (fuel : nat) (s : string) : option (list json * string) :=
  match fuel with
  | O => None
  | S fuel =>
      match read_value fuel s with
      | Some (x, String "," r) =>
          match read_items fuel r with
          | Some (l, r') => Some (x :: l, r')
          | None => None
          end
      | Some (x, String "]" r) => Some ([x], r)
      | _ => None
      end
  end
with read_members (fuel : nat) (s : string) : option (list (string * json) * string) :=
  match fuel with
  | O => None
  | S fuel =>
      match s with
      | String q r =>
          if Ascii.eqb q dq then
            match read_chars r with
            | Some (name, String ":" r1) =>
                match read_value fuel r1 with
                | Some (x, String "," r2) =>
                    match read_members fuel r2 with
                    | Some (l, r') => Some ((name, x) :: l, r')
                    | None => None
                    end
                | Some (x, String "}" r2) => Some ([(name, x)], r2)
                | _ => None
                end
            | _ => None
            end
          else None
      | EmptyString => None
      end
  end.

(** [JSON.parse]: the whole text must be one value. *)
Definition parse (s : string) : option json :=
  match read_value (String.length s) s with
  | Some (j, EmptyString) => Some j
  | _ => None
  end.

End JsonText.

(** ** The other handlers of the component *)

(** [loadRetailersFromStorage]: [JSON.parse(localStorage.getItem('retailers') || 'null')];
    nothing catches what [JSON.parse] throws, which is [None] here. *)
Definition loadRetailersFromStorage `{Codec} (storage : gmap string string)
  : option json :=
  parse (match storage !! "retailers" with
         | None => "null"
         | Some s => if is_empty s then "null" else s
         end).

(** *** The sort icon of a column header *)

Inductive Icon := FaSort | FaSortUp | FaSortDown.

Definition getSortIcon (key : string) (m : Model) : Icon :=
  match List.find (fun sc => bool_decide (columnKey sc = key)) (sortColumns m) with
  | None => FaSort
  | Some sort =>
      match direction sort with
      | ASC => FaSortUp
      | DESC => FaSortDown
      end
  end.

(** *** The dialog that renames a ScoreCard *)

(** [updateScoreCard(id, { name })], that is [{ ...sc, name, rows: sc.rows }]
    for every ScoreCard whose id is [scorecardId]. *)
Definition updateScoreCardName (scorecardId name : string) (scs : list ScoreCard)
  : list ScoreCard :=
  map (fun sc =>
         if bool_decide (sc_id sc = scorecardId)
         then {| sc_id := sc_id sc; sc_name := name;
                 sc_columns := sc_columns sc; sc_rows := sc_rows sc;
                 sc_createdAt := sc_createdAt sc |}
         else sc) scs.

(** The text field of the dialog:
    [setEditingScoreCard(prev => prev ? { ...prev, name } : null)]. *)
Definition typeEditedName (name : string) (editingScoreCard : option ScoreCard)
  : option ScoreCard :=
  match editingScoreCard with
  | Some e => Some {| sc_id := sc_id e; sc_name := name;
                      sc_columns := sc_columns e; sc_rows := sc_rows e;
                      sc_createdAt := sc_createdAt e |}
  | None => None
  end.

(** The button Save Changes; [editingScoreCard] is the copy of the ScoreCard
    that the dialog holds.  The component is returned with the dialog
    closed, which is [None]. *)
Definition saveEditedScoreCard (editingScoreCard : option ScoreCard) (m : Model)
  : Model * option ScoreCard :=
  match editingScoreCard with
  | Some e =>
      (setScorecards (updateScoreCardName (sc_id e) (sc_name e) (scorecards m)) m, None)
  | None => (m, None)
  end.

(** *** The rows handed to the grid and taken back from it *)


(** [r.isAddRow], as a condition *)
Definition isAddRow (r : Row) : bool := truthy_value (js_get "isAddRow" r).

Section Display.
Context `{Codec}.
Variable strict_eq : value -> value -> bool.
Variable greater : value -> value -> bool.



(** [onSelect] of the status picker open on the cell of row [rowIdx] and
    column [columnKey]:
    [rows = [...getSortedRows()]; rows[rowIdx][columnKey] = v; onRowsChange(rows)]. *)
Definition StatusPicker_onSelect (rowIdx : nat) (key : string) (v : string)
    (m : Model) : result Model :=
  let rows := getSortedRows strict_eq greater m in
  match rows !! rowIdx with
  | None => Throw (TypeError "Cannot set properties of undefined")
  | Some row => onRowsChange (<[rowIdx := js_assign key (VStr v) row]> rows) m
  end.

End Display.


(** *** The status picker *)








(** *** The contact card *)

(** [openContactModal] and [contactModalData]; the data is an object, named
    by its properties. *)
Record ContactModal := {
  cm_rowId : Z;
  cm_key : string;
  cm_value : value
}.

Record Contacts := {
  openContactModal : option ContactModal;
  contactModalData : gmap string value
}.

(** [{ name: '', telephone: '', address: '', notes: '' }] *)
Definition blank_contact : gmap string value :=
  <["name" := VStr ""]> (<["telephone" := VStr ""]>
    (<["address" := VStr ""]> {["notes" := VStr ""]})).

(** The properties of a value for which [value && typeof value === 'object']
    holds: the fields of an object, the items of an array under their
    indices, none for a [Date]. *)
Definition object_properties (v : value) : option (gmap string value) :=
  match v with
  | VObj fields => Some (list_to_map fields)
  | VArr items =>
      Some (list_to_map (imap (fun i x => (number_string (Z.of_nat i), x)) items))
  | VDate _ => Some ∅
  | VPrim _ | VNative _ => None
  end.

Definition handleOpenContactModal (rowId : Z) (key : string) (v : value) : Contacts :=
  {| openContactModal := Some {| cm_rowId := rowId; cm_key := key; cm_value := v |};
     contactModalData := default blank_contact (object_properties v) |}.

(** The button of a cell of the columns ['cmg'] and ['brand_lead']:
    [handleOpenContactModal(typeof row.id === 'number' ? row.id : 0, key, row[key])]. *)
Definition openContactFromCell (key : string) (row : Row) : Contacts :=
  handleOpenContactModal (numeric_id row) key (js_get key row).

(** A text field of the card: [setContactModalData(c => ({ ...c, [field]: text }))]. *)
Definition typeContactField (field text : string) (c : Contacts) : Contacts :=
  {| openContactModal := openContactModal c;
     contactModalData := <[field := VStr text]> (contactModalData c) |}.

(** The button Save of the card. *)
Definition saveContact (c : Contacts) (m : Model) : result (Model * Contacts) :=
  match openContactModal c with
  | None => Ok (m, c)
  | Some cm =>
      match getCurrentData m with
      | None => Ok (m, c)
      | Some cd =>
          match findIndex (id_is (IdNum (cm_rowId cm))) (rows cd) with
          | None => Ok (m, c)
          | Some rowIdx =>
              let contact := VObj (map_to_list (contactModalData c)) in
              let updatedRows :=
                imap (fun i (r : Row) => if bool_decide (i = rowIdx)
                                         then <[cm_key cm := contact]> r else r)
                     (rows cd) in
              bind (updateCurrentData (only_rows updatedRows) m) (fun m' =>
                Ok (m', {| openContactModal := None;
                           contactModalData := contactModalData c |}))
          end
      end
  end.

(** *** The comments in the drawer of a row *)

(** [comments[selectedCategory]?.[row.id]?.length ?? 0] for a row whose id
    is a number, [0] for another row. *)
Definition commentCount (m : Model) (row : Row) : nat :=
  match row !! "id" with
  | Some (VPrim (PNum n)) => length (comments_of (comments m) (selected_key m) n)
  | _ => 0%nat
  end.

Section Drawer.
Context `{Codec}.

(** The button Add Comment of the drawer, open on the row whose id is
    [openRetailerDrawer], at a moment whose local rendering is [now].  The
    row is looked up in the current grid; when it is not found the comment
    is dropped, and the map is written all the same. *)
Definition drawerAddComment (openRetailerDrawer : option Z) (now : string)
    (m : Model) : Model :=
  if is_empty (trim (commentInput m)) then m
  else
    match openRetailerDrawer, selectedCategory m with
    | Some d, Some sel =>
        if is_empty sel then m
        else
          let newComment := {| text := trim (commentInput m);
                               timestamp := now;
                               username := current_username (user m) |} in
          let updated :=
            if existsb (id_is (IdNum d)) (current_rows m)
            then add_comment sel d newComment (comments m)
            else <[sel := default ∅ (comments m !! sel)]> (comments m) in
          setCommentInput "" (setComments updated (saveScorecardComments updated m))
    | _, _ => m
    end.

End Drawer.

(** *** The columns handed to the grid *)

(** What a column of the grid shows in a cell, an editor or a header: a
    renderer that the stored column carries, or one of the closures that
    the component builds while it renders. *)
Inductive View :=
| Stored (r : Renderer)
| NameInput (idx : nat)
| Nothing
| PriceLabel
| PlainEditor
| CommentsButton
| DeleteRowButton
| DeleteColumnButton (key : string)
| NameLabel.

Record ViewColumn := {
  vc_key : string;
  vc_name : string;
  vc_editable : option bool;
  vc_sortable : option bool;
  vc_isDefault : option bool;
  vc_width : option Z;
  vc_frozen : option bool;
  vc_renderCell : option View;
  vc_renderEditCell : option View;
  vc_renderHeaderCell : option View
}.

Definition stored (r : option Renderer) : option View := Stored <$> r.

(** The body of [currentData.columns.map((col, idx) => ...)] that builds
    [editableColumns].  With [editColumns] set the header is the input that
    calls [handleColumnNameChange(idx, _)]; the stored columns carry no
    [locked] and no [cellClass]. *)
Definition editable_column (editColumns : bool) (role : string) (idx : nat)
    (col : MyColumn) : ViewColumn :=
  let renderHeaderCell := if editColumns then Some (NameInput idx) else None in
  let header := match renderHeaderCell with
                | Some h => Some h
                | None => stored (col_renderHeaderCell col)
                end in
  if has_key "comments" col
  then {| vc_key := col_key col; vc_name := "";
          vc_editable := Some false; vc_sortable := col_sortable col;
          vc_isDefault := col_isDefault col; vc_width := None; vc_frozen := None;
          vc_renderCell := stored (col_renderCell col);
          vc_renderEditCell := stored (col_renderEditCell col);
          vc_renderHeaderCell := Some Nothing |}
  else
    let isEditable := bool_decide (role = "ADMIN")
                      && negb (has_key "id" col) && negb (has_key "delete" col) in
    if has_key "retail_price" col
    then {| vc_key := col_key col; vc_name := col_name col;
            vc_editable := Some isEditable; vc_sortable := col_sortable col;
            vc_isDefault := col_isDefault col; vc_width := None; vc_frozen := None;
            vc_renderCell := Some PriceLabel;
            vc_renderEditCell := stored (col_renderEditCell col);
            vc_renderHeaderCell := header |}
    else {| vc_key := col_key col; vc_name := col_name col;
            vc_editable := Some isEditable; vc_sortable := col_sortable col;
            vc_isDefault := col_isDefault col; vc_width := None; vc_frozen := None;
            vc_renderCell := stored (col_renderCell col);
            vc_renderEditCell := match col_renderEditCell col with
                                 | Some r => Some (Stored r)
                                 | None => if isEditable then Some PlainEditor else None
                                 end;
            vc_renderHeaderCell := header |}.

(** [currentData?.columns.map(...) || []] *)
Definition editableColumns (editColumns : bool) (m : Model) : list ViewColumn :=
  match getCurrentData m with
  | Some cd => imap (editable_column editColumns (userRole m)) (columns cd)
  | None => []
  end.

Definition commentColumn : ViewColumn :=
  {| vc_key := "comments"; vc_name := "";
     vc_editable := None; vc_sortable := None; vc_isDefault := None;
     vc_width := Some 48%Z; vc_frozen := Some false;
     vc_renderCell := Some CommentsButton; vc_renderEditCell := None;
     vc_renderHeaderCell := Some Nothing |}.

(** The column that is appended, in both branches on the category. *)
Definition deleteColumn : ViewColumn :=
  {| vc_key := "delete"; vc_name := "";
     vc_editable := None; vc_sortable := None; vc_isDefault := None;
     vc_width := Some 50%Z; vc_frozen := Some false;
     vc_renderCell := Some DeleteRowButton; vc_renderEditCell := None;
     vc_renderHeaderCell := Some Nothing |}.

(** The comments column goes behind the first column with key ['name']. *)
Definition with_comments (cols : list ViewColumn) : list ViewColumn :=
  match findIndex (fun c => bool_decide (vc_key c = "name")) cols with
  | Some nameIdx => take (nameIdx + 1) cols ++ commentColumn :: drop (nameIdx + 1) cols
  | None => cols
  end.

Definition with_header (name : string) (h : option View) (col : ViewColumn)
  : ViewColumn :=
  {| vc_key := vc_key col; vc_name := name;
     vc_editable := vc_editable col; vc_sortable := vc_sortable col;
     vc_isDefault := vc_isDefault col; vc_width := vc_width col;
     vc_frozen := vc_frozen col; vc_renderCell := vc_renderCell col;
     vc_renderEditCell := vc_renderEditCell col; vc_renderHeaderCell := h |}.

(** [idx > retailerNameIdx && idx < retailPriceIdx], both indices found *)
Definition isBetween (retailerNameIdx retailPriceIdx : option nat) (idx : nat) : bool :=
  match retailerNameIdx, retailPriceIdx with
  | Some n, Some p => (n <? idx)%nat && (idx <? p)%nat
  | _, _ => false
  end.

(** The body of the last [map((col, idx) => ...)] over [columnsWithDelete]. *)
Definition header_column (retailerNameIdx retailPriceIdx : option nat) (idx : nat)
    (col : ViewColumn) : ViewColumn :=
  if bool_decide (vc_key col = "comments")
  then with_header "" (Some Nothing) col
  else if isBetween retailerNameIdx retailPriceIdx idx
          && negb (bool_decide (vc_key col = "name"))
          && negb (bool_decide (vc_key col = "retail_price"))
  then with_header (vc_name col) (Some (DeleteColumnButton (vc_key col))) col
  else with_header (vc_name col)
                   (match vc_renderHeaderCell col with
                    | Some h => Some h
                    | None => Some NameLabel
                    end) col.

(** [columnsWithDelete], as the grid receives it: the two indices are
    looked up in the stored columns, the position [idx] is the one in the
    list that holds the comments column. *)
Definition columnsWithDelete (editColumns : bool) (m : Model) : list ViewColumn :=
  let currentData := getCurrentData m in
  let retailerNameIdx := currentData ≫= (fun cd => findIndex (has_key "name") (columns cd)) in
  let retailPriceIdx :=
    currentData ≫= (fun cd => findIndex (has_key "retail_price") (columns cd)) in
  imap (header_column retailerNameIdx retailPriceIdx)
       (List.filter (fun c => negb (bool_decide (vc_key c = "delete")))
                    (with_comments (editableColumns editColumns m) ++ [deleteColumn])).

(** *** The address field of the drawer *)

(** The field Address of the drawer open on the row whose id is
    [openRetailerDrawer]: the row is looked up in the current grid, and the
    text goes to every row with its id,
    [rows.map(r => r.id === row.id ? { ...r, address: text } : r)]; nothing
    happens when the row is not found. *)
Definition drawerAddress (openRetailerDrawer : Z) (text : string) (m : Model)
  : result Model :=
  match getCurrentData m with
  | None => Ok m
  | Some cd =>
      if existsb (id_is (IdNum openRetailerDrawer)) (rows cd)
      then updateCurrentData
             (only_rows (map (fun r : Row => if id_is (IdNum openRetailerDrawer) r
                                             then <["address" := VStr text]> r else r)
                             (rows cd))) m
      else Ok m
  end.

(** ** Everything the user can do *)

(** The events, and the handlers that the component writes inline in its
    JSX.  What such a handler reads of the state that the model leaves out
    (the ScoreCard in the rename dialog, the contact card, the row of the
    drawer, the cell of the status picker) is its argument. *)
Inductive Operation :=
| Named (e : Event)
| ShowCreateScoreCardModal (b : bool)
| CancelAddColumn
| CloseCommentModal
| SortColumnsChange (cols : list SortColumn)
| RenameScoreCard (editingScoreCard : option ScoreCard)
| ContactSave (c : Contacts)
| StatusSelect (rowIdx : nat) (columnKey v : string)
| DrawerAddress (openRetailerDrawer : Z) (text : string)
| DrawerAddComment (openRetailerDrawer : option Z) (now : string).

Section Operations.
Context `{Codec}.
Variable strict_eq : value -> value -> bool.
Variable greater : value -> value -> bool.

Definition perform (op : Operation) (m : Model) : result Model :=
  match op with
  | Named e => handler e m
  | ShowCreateScoreCardModal b => Ok (setShowCreateScoreCardModal b m)
  | CancelAddColumn => Ok (setNewColName "" (setColError "" (setShowAddColModal false m)))
  | CloseCommentModal => Ok (setCommentInput "" (setOpenCommentRowId None m))
  | SortColumnsChange cols => Ok (setSortColumns cols m)
  | RenameScoreCard editing => Ok (fst (saveEditedScoreCard editing m))
  | ContactSave c => bind (saveContact c m) (fun mc => Ok (fst mc))
  | StatusSelect rowIdx key v => StatusPicker_onSelect strict_eq greater rowIdx key v m
  | DrawerAddress d text => drawerAddress d text m
  | DrawerAddComment d now => Ok (drawerAddComment d now m)
  end.

(** One operation, with the effects that follow it. *)
Definition act (m : Model) (op : Operation) : Model := react (perform op) m.

(** A visit: the component is mounted on a storage and the user performs
    [ops]. *)
Definition visit (role : string) (storage : gmap string string)
    (scs : list ScoreCard) (cs : gmap string (gmap Z (list Comment)))
    (ops : list Operation) : Model :=
  fold_left act ops (mount role storage scs cs).

End Operations.

(** * Properties *)

(** ** The JSON text codec satisfies the interface *)

Module JsonTextFacts.
Import JsonText.

Definition no_digit (k : string) : Prop :=
  match k with
  | EmptyString => True
  | String c _ => digit_of c = None
  end.

Lemma read_uint_stop k : no_digit k -> read_uint k = (Decimal.Nil, k).
Proof.
  destruct k as [|c r]; simpl; [reflexivity|].
  intros ->. reflexivity.
Qed.

Lemma read_uint_print d k :
  no_digit k -> read_uint (print_uint d k) = (d, k).
Proof.
  intros Hk. induction d; simpl; try (rewrite IHd; reflexivity).
  apply read_uint_stop, Hk.
Qed.

Lemma read_chars_print_char c K t r :
  read_chars K = Some (t, r) ->
  read_chars (print_char c K) = Some (String c t, r).
Proof.
  intros HK.
  destruct c as [[] [] [] [] [] [] [] []]; unfold print_char; simpl;
    rewrite HK; reflexivity.
Qed.

Lemma read_chars_print s k :
  read_chars (print_chars s (String dq k)) = Some (s, k).
Proof.
  induction s as [|c s IH]; simpl.
  - reflexivity.
  - apply read_chars_print_char, IH.
Qed.

Lemma length_print_char c K :
  (String.length K < String.length (print_char c K))%nat.
Proof.
  unfold print_char. repeat case_match; simpl; lia.
Qed.

Lemma length_print_chars s K :
  (String.length K <= String.length (print_chars s K))%nat.
Proof.
  induction s as [|c s IH]; simpl; [lia|].
  pose proof (length_print_char c (print_chars s K)). lia.
Qed.

Lemma length_print_string s k :
  (2 + String.length k <= String.length (print_string s k))%nat.
Proof.
  unfold print_string. simpl.
  pose proof (length_print_chars s (String dq k)). simpl in *. lia.
Qed.

Lemma length_print_uint d k :
  (String.length k <= String.length (print_uint d k))%nat
  /\ (d <> Decimal.Nil -> (1 + String.length k <= String.length (print_uint d k))%nat).
Proof.
  induction d; simpl; split; try lia; try congruence; intros _; lia.
Qed.

Lemma to_int_nonnil n :
  match Z.to_int n with
  | Decimal.Pos d | Decimal.Neg d => d <> Decimal.Nil
  end.
Proof.
  destruct n as [|p|p]; simpl; try discriminate;
    apply DecimalPos.Unsigned.to_uint_nonnil.
Qed.

Section JsonInduction.
Variable P : json -> Prop.
Hypothesis Hnull : P JNull.
Hypothesis Hbool : forall b, P (JBool b).
Hypothesis Hnum : forall n, P (JNum n).
Hypothesis Hstr : forall s, P (JStr s).
Hypothesis Harr : forall l, Forall P l -> P (JArr l).
Hypothesis Hobj : forall l, Forall (fun kv => P (snd kv)) l -> P (JObj l).

Fixpoint json_nested_ind (j : json) : P j :=
  match j with
  | JNull => Hnull
  | JBool b => Hbool b
  | JNum n => Hnum n
  | JStr s => Hstr s
  | JArr l =>
      Harr l ((fix go (l : list json) : Forall P l :=
                 match l with
                 | [] => List.Forall_nil P
                 | x :: l' => @List.Forall_cons _ P x l' (json_nested_ind x) (go l')
                 end) l)
  | JObj l =>
      Hobj l ((fix go (l : list (string * json)) : Forall (fun kv => P (snd kv)) l :=
                 match l with
                 | [] => List.Forall_nil _
                 | kv :: l' => @List.Forall_cons _ (fun kv => P (snd kv)) kv l' (json_nested_ind (snd kv)) (go l')
                 end) l)
  end.
End JsonInduction.

(** The fuel that reading a tree back needs: one unit for each value and
    each item. *)
Fixpoint json_size (j : json) : nat :=
  match j with
  | JArr l => S ((fix go (l : list json) : nat :=
                    match l with [] => 0 | x :: l' => S (json_size x + go l') end) l)
  | JObj l => S ((fix go (l : list (string * json)) : nat :=
                    match l with [] => 0 | (_, x) :: l' => S (json_size x + go l') end) l)
  | _ => 1
  end%nat.

Definition more_items (k : string) : list json -> string :=
  fix more (l : list json) : string :=
    match l with
    | [] => String "]" k
    | y :: l' => String "," (print y (more l'))
    end.

Definition items_size : list json -> nat :=
  fix go (l : list json) : nat :=
    match l with [] => 0 | x :: l' => S (json_size x + go l') end%nat.

Definition more_members (k : string) : list (string * json) -> string :=
  fix more (l : list (string * json)) : string :=
    match l with
    | [] => String "}" k
    | (n, y) :: l' => String "," (print_string n (String ":" (print y (more l'))))
    end.

Definition members_size : list (string * json) -> nat :=
  fix go (l : list (string * json)) : nat :=
    match l with [] => 0 | (_, x) :: l' => S (json_size x + go l') end%nat.

Lemma no_digit_more_items k l : no_digit (more_items k l).
Proof. destruct l; reflexivity. Qed.

Lemma no_digit_more_members k l : no_digit (more_members k l).
Proof. destruct l as [|[]]; reflexivity. Qed.

Definition reads (j : json) : Prop :=
  forall fuel k, (json_size j <= fuel)%nat -> no_digit k ->
    read_value fuel (print j k) = Some (j, k).

Lemma read_items_print x l :
  Forall reads (x :: l) ->
  forall fuel k, (items_size (x :: l) <= fuel)%nat ->
    read_items fuel (print x (more_items k l)) = Some (x :: l, k).
Proof.
  revert x. induction l as [|y l IH]; intros x Hall fuel k Hfuel.
  - destruct fuel as [|fuel]; [simpl in Hfuel; lia|].
    inversion_clear Hall as [|? ? Hx _].
    simpl. rewrite Hx; [reflexivity | simpl in Hfuel; lia | reflexivity].
  - destruct fuel as [|fuel]; [simpl in Hfuel; lia|].
    inversion_clear Hall as [|? ? Hx Hl].
    cbn [read_items more_items].
    rewrite Hx; [| simpl in Hfuel |- *; lia | reflexivity].
    fold (more_items k).
    rewrite (IH y Hl fuel k); [reflexivity|].
    simpl in Hfuel |- *. lia.
Qed.

Lemma read_members_print n x l :
  Forall (fun kv => reads (snd kv)) ((n, x) :: l) ->
  forall fuel k, (members_size ((n, x) :: l) <= fuel)%nat ->
    read_members fuel (print_string n (String ":" (print x (more_members k l))))
    = Some ((n, x) :: l, k).
Proof.
  revert n x. induction l as [|[n' y] l IH]; intros n x Hall fuel k Hfuel.
  - destruct fuel as [|fuel]; [simpl in Hfuel; lia|].
    inversion_clear Hall as [|? ? Hx _]. simpl in Hx.
    unfold print_string. cbn [read_members]. simpl (Ascii.eqb dq dq).
    rewrite read_chars_print.
    rewrite Hx; [reflexivity | simpl in Hfuel; lia | reflexivity].
  - destruct fuel as [|fuel]; [simpl in Hfuel; lia|].
    inversion_clear Hall as [|? ? Hx Hl]. simpl in Hx.
    unfold print_string at 1. cbn [read_members more_members]. simpl (Ascii.eqb dq dq).
    rewrite read_chars_print.
    rewrite Hx; [| simpl in Hfuel |- *; lia | reflexivity].
    fold (more_members k).
    rewrite (IH n' y Hl fuel k); [reflexivity|].
    simpl in Hfuel |- *. lia.
Qed.

Lemma read_digits d k fuel :
  d <> Decimal.Nil -> no_digit k ->
  read_value (S fuel) (print_uint d k) = Some (JNum (Z.of_int (Decimal.Pos d)), k).
Proof.
  intros Hd Hk.
  destruct d; [congruence | ..];
    match goal with
    | |- read_value _ (print_uint ?D k) = _ =>
        transitivity (read_number false (print_uint D k)); [reflexivity|];
        unfold read_number; rewrite read_uint_print by assumption; reflexivity
    end.
Qed.

Lemma read_number_print n k fuel :
  no_digit k -> read_value (S fuel) (print (JNum n) k) = Some (JNum n, k).
Proof.
  intros Hk. cbn [print]. unfold print_int.
  pose proof (to_int_nonnil n) as Hnn.
  pose proof (DecimalZ.of_to n) as Hof.
  destruct (Z.to_int n) as [d|d].
  - rewrite read_digits by assumption. rewrite Hof. reflexivity.
  - transitivity (read_number true (print_uint d k)); [reflexivity|].
    unfold read_number. rewrite read_uint_print by assumption.
    rewrite <- Hof. destruct d; congruence || reflexivity.
Qed.

Lemma read_print j : reads j.
Proof.
  induction j as [| b | n | s | l IH | l IH] using json_nested_ind;
    intros fuel k Hfuel Hk;
    (destruct fuel as [|fuel]; [simpl in Hfuel; lia|]).
  - reflexivity.
  - destruct b; reflexivity.
  - apply read_number_print, Hk.
  - cbn [print]. unfold print_string. cbn [read_value]. simpl.
    rewrite read_chars_print. reflexivity.
  - destruct l as [|x l].
    + destruct fuel as [|[|fuel]]; reflexivity.
    + change (print (JArr (x :: l)) k)
        with (String "[" (print x (more_items k l))).
      cbn [read_value]. simpl.
      rewrite (read_items_print x l IH); [reflexivity|].
      simpl in Hfuel. change (items_size (x :: l)) with (S (json_size x + items_size l)).
      fold items_size in Hfuel. lia.
  - destruct l as [|[n x] l].
    + destruct fuel as [|[|fuel]]; reflexivity.
    + change (print (JObj ((n, x) :: l)) k)
        with (String "{" (print_string n (String ":" (print x (more_members k l))))).
      cbn [read_value]. simpl.
      rewrite (read_members_print n x l IH); [reflexivity|].
      simpl in Hfuel. change (members_size ((n, x) :: l)) with (S (json_size x + members_size l)).
      fold members_size in Hfuel. lia.
Qed.

Definition long (j : json) : Prop :=
  forall k, (json_size j + String.length k <= String.length (print j k))%nat.

Lemma long_items l :
  Forall long l -> forall k,
  (items_size l + String.length k < String.length (more_items k l))%nat.
Proof.
  induction 1 as [|y l Hy _ IH]; intros k; simpl; [lia|].
  fold (more_items k). specialize (IH k). specialize (Hy (more_items k l)). lia.
Qed.

Lemma long_members l :
  Forall (fun kv => long (snd kv)) l -> forall k,
  (members_size l + String.length k < String.length (more_members k l))%nat.
Proof.
  induction 1 as [|[n y] l Hy _ IH]; intros k; simpl; [lia|].
  fold (more_members k). specialize (IH k). simpl in Hy.
  specialize (Hy (more_members k l)).
  pose proof (length_print_chars n (String dq (String ":" (print y (more_members k l))))).
  simpl in *. lia.
Qed.

Lemma print_long j : long j.
Proof.
  induction j as [| b | n | s | l IH | l IH] using json_nested_ind; intros k.
  - simpl. lia.
  - destruct b; simpl; lia.
  - cbn [print json_size]. unfold print_int.
    pose proof (to_int_nonnil n) as Hnn.
    destruct (Z.to_int n) as [d|d];
      destruct (length_print_uint d k) as [H0 H1]; specialize (H1 Hnn); simpl; lia.
  - pose proof (length_print_string s k). simpl in *. lia.
  - destruct l as [|x l]; [simpl; lia|].
    inversion_clear IH as [|? ? Hx Hl].
    change (print (JArr (x :: l)) k) with (String "[" (print x (more_items k l))).
    change (json_size (JArr (x :: l))) with (S (S (json_size x + items_size l))).
    pose proof (long_items l Hl k). specialize (Hx (more_items k l)). simpl. lia.
  - destruct l as [|[n x] l]; [simpl; lia|].
    inversion_clear IH as [|? ? Hx Hl]. simpl in Hx.
    change (print (JObj ((n, x) :: l)) k)
      with (String "{" (print_string n (String ":" (print x (more_members k l))))).
    change (json_size (JObj ((n, x) :: l))) with (S (S (json_size x + members_size l))).
    pose proof (long_members l Hl k). specialize (Hx (more_members k l)).
    pose proof (length_print_string n (String ":" (print x (more_members k l)))).
    simpl in *. lia.
Qed.

Lemma text_parse_stringify j : parse (stringify j) = Some j.
Proof.
  unfold parse, stringify.
  rewrite read_print; [reflexivity | | exact I].
  pose proof (print_long j EmptyString). simpl in *. lia.
Qed.

Lemma text_stringify_nonempty j : stringify j <> "".
Proof.
  intros Heq. pose proof (print_long j EmptyString) as Hl.
  unfold stringify in Heq. rewrite Heq in Hl. simpl in Hl.
  destruct j as [| | | | [|]  | [|[]]]; simpl in Hl; lia.
Qed.

#[export] Instance text_codec : Codec :=
  {| Json.stringify := stringify;
     Json.parse := parse;
     Json.parse_stringify := text_parse_stringify;
     Json.stringify_nonempty := text_stringify_nonempty;
     Json.stringify_empty_object := eq_refl |}.

End JsonTextFacts.

Import JsonTextFacts.


(** ** The current grid *)

#[global] Arguments startsWith : simpl never.
#[global] Arguments is_empty : simpl nomatch.

Lemma getCurrentData_inv m cd :
  getCurrentData m = Some cd ->
  exists sel sc,
    selectedCategory m = Some sel
    /\ startsWith "scorecard_" sel = true
    /\ List.find (selects sel) (scorecards m) = Some sc
    /\ cd = {| columns := sc_columns sc; rows := sc_rows sc |}.
Proof.
  unfold getCurrentData. intros Hcd.
  destruct (selectedCategory m) as [sel|]; [|discriminate].
  destruct (is_empty sel); [discriminate|].
  destruct (startsWith "scorecard_" sel) eqn:Hpre; [|discriminate].
  destruct (List.find _ (scorecards m)) as [sc|] eqn:Hfind; [|discriminate].
  exists sel, sc. repeat split; try assumption. congruence.
Qed.

Lemma startsWith_not_empty sel :
  startsWith "scorecard_" sel = true -> is_empty sel = false.
Proof. destruct sel; [discriminate | reflexivity]. Qed.

Lemma find_updateScoreCard sel u scs sc :
  List.find (selects sel) scs = Some sc ->
  exists sc',
    List.find (selects sel) (updateScoreCard sel u scs) = Some sc'
    /\ sc_columns sc' = default (sc_columns sc) (u_columns u)
    /\ sc_rows sc' = default (sc_rows sc) (u_rows u).
Proof.
  induction scs as [|x scs IH]; simpl; [discriminate|].
  unfold selects at 1 3.
  destruct (bool_decide (sc_id x = sel)) eqn:Hx.
  - intros [= <-]. simpl. rewrite Hx. eexists. repeat split.
  - rewrite Hx. apply IH.
Qed.

(** Writing to the current grid succeeds, and the grid read back is the
    old one with the fields of the update, the comments column blanked. *)
Lemma updateCurrentData_current u m cd :
  getCurrentData m = Some cd ->
  exists sel,
    selectedCategory m = Some sel
    /\ startsWith "scorecard_" sel = true
    /\ updateCurrentData u m
       = Ok (setScorecards
               (updateScoreCard sel
                  {| u_columns := map blank_comments <$> u_columns u;
                     u_rows := u_rows u |} (scorecards m)) m)
    /\ getCurrentData
         (setScorecards
            (updateScoreCard sel
               {| u_columns := map blank_comments <$> u_columns u;
                  u_rows := u_rows u |} (scorecards m)) m)
       = Some {| columns := default (columns cd) (map blank_comments <$> u_columns u);
                 rows := default (rows cd) (u_rows u) |}.
Proof.
  intros Hcd.
  destruct (getCurrentData_inv m cd Hcd) as (sel & sc & Hsel & Hpre & Hfind & ->).
  exists sel. repeat split; try assumption.
  - unfold updateCurrentData. rewrite Hsel, Hpre. reflexivity.
  - unfold getCurrentData. simpl. rewrite Hsel, (startsWith_not_empty _ Hpre), Hpre.
    destruct (find_updateScoreCard sel
                {| u_columns := map blank_comments <$> u_columns u;
                   u_rows := u_rows u |} _ _ Hfind) as (sc' & -> & Hc & Hr).
    rewrite Hc, Hr. reflexivity.
Qed.

Lemma when_retailers_scorecard `{Codec} rs m sel :
  selectedCategory m = Some sel -> startsWith "scorecard_" sel = true ->
  when_retailers rs m = m.
Proof.
  intros Hsel Hpre. unfold when_retailers.
  rewrite bool_decide_eq_false_2; [reflexivity|].
  rewrite Hsel. intros [= ->]. discriminate.
Qed.

(** ** Adding a row *)

Lemma Math_max_ge x l : (x <= Math_max x l)%Z.
Proof.
  unfold Math_max. revert x. induction l as [|y l IH]; intros x; simpl; [lia|].
  specialize (IH (Z.max x y)). lia.
Qed.

Lemma Math_max_upper x l y : y ∈ l -> (y <= Math_max x l)%Z.
Proof.
  unfold Math_max. revert x. induction l as [|z l IH]; intros x Hy; simpl.
  - inversion Hy.
  - apply elem_of_cons in Hy as [->|Hy].
    + pose proof (Math_max_ge (Z.max x z) l). unfold Math_max in *. lia.
    + apply IH, Hy.
Qed.

Lemma Math_max_attained x l : Math_max x l ∈ x :: l.
Proof.
  unfold Math_max. revert x. induction l as [|z l IH]; intros x; simpl.
  - apply list_elem_of_here.
  - specialize (IH (Z.max x z)).
    apply elem_of_cons in IH as [Heq|Hin].
    + rewrite Heq. destruct (Z.max_spec x z) as [[_ ->]|[_ ->]].
      * apply list_elem_of_further, list_elem_of_here.
      * apply list_elem_of_here.
    + apply list_elem_of_further, list_elem_of_further, Hin.
Qed.

(** The integers that the language adds without rounding,
    [Number.isSafeInteger]. *)
Definition safe_integer (n : Z) : Prop := (Z.abs n < 2 ^ 53)%Z.

Lemma round_double_exact z : (Z.abs z <= 2 ^ 53)%Z -> round_double z = z.
Proof.
  intros Hz. unfold round_double.
  destruct (Z.log2 (Z.abs z) - 52 <=? 0)%Z eqn:He; [reflexivity|].
  apply Z.leb_gt in He.
  assert (Hpos : (0 < Z.abs z)%Z).
  { destruct (Z.abs z) eqn:Ha; try lia. simpl in He. lia. }
  destruct (Z.log2_spec _ Hpos) as [Hlow _].
  assert (H53 : (2 ^ 53 <= 2 ^ Z.log2 (Z.abs z))%Z) by (apply Z.pow_le_mono_r; lia).
  assert (Ha : Z.abs z = (2 ^ 53)%Z) by lia.
  destruct (Z.abs_eq_or_opp z) as [Hs | Hs]; rewrite Ha in Hs.
  - subst z. vm_compute. reflexivity.
  - assert (Hz' : z = (- 2 ^ 53)%Z) by lia. subst z. vm_compute. reflexivity.
Qed.

Lemma js_add_one n : safe_integer n -> js_add n 1 = (n + 1)%Z.
Proof. unfold safe_integer, js_add. intros Hn. apply round_double_exact. lia. Qed.

Lemma numeric_id_of (r : Row) n : r !! "id" = Some (VNum n) -> numeric_id r = n.
Proof. intros Hr. unfold numeric_id. rewrite Hr. reflexivity. Qed.

Lemma numeric_id_zero (r : Row) :
  (forall n, r !! "id" <> Some (VNum n)) -> numeric_id r = 0%Z.
Proof.
  intros Hr. unfold numeric_id.
  destruct (r !! "id") as [[[| | |n|]| | | |]|] eqn:Hid; try reflexivity.
  exfalso. apply (Hr n). reflexivity.
Qed.

(** The new id is the sum of the greatest [numeric_id] and 1. *)
Lemma next_id_attained rs :
  rs <> [] ->
  exists r, r ∈ rs /\ (forall r', r' ∈ rs -> (numeric_id r' <= numeric_id r)%Z)
            /\ next_id rs = js_add (numeric_id r) 1.
Proof.
  unfold next_id. intros Hne.
  destruct (map numeric_id rs) as [|x l] eqn:Hmap.
  - destruct rs; [congruence | discriminate].
  - pose proof (Math_max_attained x l) as Hin. rewrite <- Hmap in Hin.
    change (map numeric_id rs) with (numeric_id <$> rs) in Hin.
    apply list_elem_of_fmap in Hin as (r & Heq & Hr).
    exists r. split; [assumption|]. split; [|congruence].
    intros r' Hr'. rewrite <- Heq.
    apply (list_elem_of_fmap_2 numeric_id) in Hr'.
    change (numeric_id <$> rs) with (map numeric_id rs) in Hr'. rewrite Hmap in Hr'.
    apply elem_of_cons in Hr' as [->|Hr'];
      [apply Math_max_ge | apply Math_max_upper, Hr'].
Qed.

Lemma next_id_safe rs :
  rs <> [] -> (forall r, r ∈ rs -> safe_integer (numeric_id r)) ->
  exists r, r ∈ rs /\ (forall r', r' ∈ rs -> (numeric_id r' <= numeric_id r)%Z)
            /\ next_id rs = (numeric_id r + 1)%Z.
Proof.
  intros Hne Hsafe. destruct (next_id_attained rs Hne) as (r & Hr & Hmax & Hnext).
  exists r. split; [exact Hr|]. split; [exact Hmax|].
  rewrite Hnext. apply js_add_one, Hsafe, Hr.
Qed.

Lemma next_id_above rs r :
  (forall r', r' ∈ rs -> safe_integer (numeric_id r')) ->
  r ∈ rs -> (numeric_id r < next_id rs)%Z.
Proof.
  intros Hsafe Hr.
  destruct (next_id_safe rs) as (r0 & _ & Hmax & ->); [|exact Hsafe|].
  - intros ->. inversion Hr.
  - specialize (Hmax r Hr). lia.
Qed.

Lemma fill_column_keeps r col k v :
  r !! k = Some v -> fill_column r col !! k = Some v.
Proof.
  intros Hk. unfold fill_column.
  destruct (negb (has_key "id" col) && negb (has_key "delete" col)
            && negb (js_in (col_key col) r)) eqn:Hcond; [|assumption].
  destruct (decide (col_key col = k)) as [Heq|Hne].
  - apply andb_prop in Hcond as [_ Hin]. unfold js_in in Hin.
    rewrite Heq, bool_decide_eq_true_2 in Hin by (eexists; eassumption).
    discriminate.
  - rewrite lookup_insert_ne by assumption. assumption.
Qed.

Lemma fold_fill_keeps cols r k v :
  r !! k = Some v -> fold_left fill_column cols r !! k = Some v.
Proof.
  revert r. induction cols as [|c cols IH]; intros r Hk; simpl; [assumption|].
  apply IH, fill_column_keeps, Hk.
Qed.

Lemma fill_column_fills r col :
  col_key col <> "id" -> col_key col <> "delete" ->
  inherited (col_key col) = false ->
  r !! col_key col = None ->
  fill_column r col !! col_key col = Some (VStr "").
Proof.
  intros Hid Hdel Hinh Hnone. unfold fill_column, has_key, js_in.
  rewrite !bool_decide_eq_false_2 by assumption.
  rewrite Hinh, bool_decide_eq_false_2; simpl.
  - apply lookup_insert_eq.
  - rewrite Hnone. intros [? [=]].
Qed.

Lemma fill_column_other r col k :
  r !! k = None -> col_key col <> k -> fill_column r col !! k = None.
Proof.
  intros Hnone Hne. unfold fill_column.
  destruct (_ && _); [|assumption].
  rewrite lookup_insert_ne by assumption. assumption.
Qed.

Lemma fold_fill_fills cols r col :
  col ∈ cols ->
  col_key col <> "id" -> col_key col <> "delete" ->
  inherited (col_key col) = false ->
  r !! col_key col = None \/ r !! col_key col = Some (VStr "") ->
  fold_left fill_column cols r !! col_key col = Some (VStr "").
Proof.
  intros Hin Hid Hdel Hinh. revert r.
  induction cols as [|c cols IH]; intros r Hr; [inversion Hin|].
  simpl. destruct Hr as [Hnone|Hsome].
  - apply elem_of_cons in Hin as [<-|Hin].
    + apply fold_fill_keeps, fill_column_fills; assumption.
    + destruct (decide (col_key c = col_key col)) as [Heq|Hne].
      * apply fold_fill_keeps. rewrite <- Heq.
        apply fill_column_fills; congruence.
      * apply IH; [assumption|]. left. apply fill_column_other; assumption.
  - apply fold_fill_keeps, fill_column_keeps, Hsome.
Qed.

Lemma new_row_id cd : new_row cd !! "id" = Some (VNum (next_id (rows cd))).
Proof. apply fold_fill_keeps. reflexivity. Qed.

Lemma new_row_name cd : new_row cd !! "name" = Some (VStr "").
Proof. apply fold_fill_keeps. reflexivity. Qed.

Lemma new_row_column cd col :
  col ∈ columns cd ->
  col_key col <> "id" -> col_key col <> "delete" ->
  inherited (col_key col) = false ->
  new_row cd !! col_key col = Some (VStr "").
Proof.
  intros Hin Hid Hdel Hinh. apply fold_fill_fills; try assumption.
  destruct (decide (col_key col = "name")) as [->|Hname].
  - right. reflexivity.
  - left. rewrite lookup_insert_ne by congruence.
    apply lookup_singleton_ne. congruence.
Qed.

Lemma handleAddRow_ok `{Codec} m cd :
  getCurrentData m = Some cd ->
  exists m',
    handleAddRow m = Ok m'
    /\ getCurrentData m'
       = Some {| columns := columns cd; rows := rows cd ++ [new_row cd] |}.
Proof.
  intros Hcd. unfold handleAddRow. rewrite Hcd.
  destruct (updateCurrentData_current (only_rows (rows cd ++ [new_row cd])) m cd Hcd)
    as (sel & Hsel & Hpre & -> & Hget).
  eexists. split.
  - cbn [bind]. rewrite (when_retailers_scorecard _ _ sel); [reflexivity | exact Hsel | exact Hpre].
  - exact Hget.
Qed.

(** A ScoreCard with the default columns and two rows, selected, for the
    concrete instances below. *)
Definition sample_card : ScoreCard :=
  {| sc_id := "scorecard_1700000000000"; sc_name := "Spring";
     sc_columns := retailersColumns;
     sc_rows := [ <["name" := VStr "Item 1"]> {["id" := VNum 1]};
                  <["name" := VStr "Item 2"]> {["id" := VNum 2]} ];
     sc_createdAt := CreatedDate "2023-11-14T22:13:20.000Z" |}.

Definition sample_model : Model :=
  setSelectedCategory (Some "scorecard_1700000000000")
    (setScorecards [sample_card] (fresh "ADMIN")).

Definition sample_grid : GridData :=
  {| columns := sc_columns sample_card; rows := sc_rows sample_card |}.

(** [n] is the greatest of the numeric ids of [rs]. *)
Definition max_numeric_id (rs : list Row) (n : Z) : Prop :=
  (exists r, r ∈ rs /\ r !! "id" = Some (VNum n))
  /\ forall r k, r ∈ rs -> r !! "id" = Some (VNum k) -> (k <= n)%Z.

(** C8, as amended.  When there is a current grid, [handleAddRow] succeeds
    and the grid then has the same columns and the same rows followed by one
    new row.  The id of the new row is 1 when no row has a numeric id, and
    otherwise the sum, as the language computes it, of 1 and the greatest
    [numeric_id] of a row (the id of a row when it is a number, 0
    otherwise).  When every numeric id is a safe integer, the sum is exact:
    the new id is greater than [numeric_id] of every row, differs from
    every numeric id, and is one more than the greatest numeric id when
    that one is not negative.  The new row has ['name'] and every column key
    other than ['id'] and ['delete'] that is not a property name inherited
    from [Object.prototype] set to the empty string. *)
Theorem handleAddRow_appends_row `{Codec} (m : Model) (cd : GridData) :
  getCurrentData m = Some cd ->
  exists m',
    handleAddRow m = Ok m'
    /\ getCurrentData m'
       = Some {| columns := columns cd; rows := rows cd ++ [new_row cd] |}
    /\ new_row cd !! "id" = Some (VNum (next_id (rows cd)))
    /\ ((forall r n, r ∈ rows cd -> r !! "id" <> Some (VNum n)) ->
          next_id (rows cd) = 1%Z)
    /\ (rows cd <> [] ->
          exists r, r ∈ rows cd
                    /\ (forall r', r' ∈ rows cd -> (numeric_id r' <= numeric_id r)%Z)
                    /\ next_id (rows cd) = js_add (numeric_id r) 1)
    /\ ((forall r, r ∈ rows cd -> safe_integer (numeric_id r)) ->
        (forall r, r ∈ rows cd -> (numeric_id r < next_id (rows cd))%Z)
        /\ (forall r n, r ∈ rows cd -> r !! "id" = Some (VNum n) ->
              n <> next_id (rows cd))
        /\ (rows cd <> [] ->
              exists r, r ∈ rows cd /\ next_id (rows cd) = (numeric_id r + 1)%Z)
        /\ (forall n, max_numeric_id (rows cd) n -> (0 <= n)%Z ->
              next_id (rows cd) = (n + 1)%Z))
    /\ new_row cd !! "name" = Some (VStr "")
    /\ (forall col, col ∈ columns cd ->
          col_key col <> "id" -> col_key col <> "delete" ->
          inherited (col_key col) = false ->
          new_row cd !! col_key col = Some (VStr "")).
Proof.
  intros Hcd.
  destruct (handleAddRow_ok m cd Hcd) as (m' & Hrun & Hget).
  exists m'. split; [exact Hrun|]. split; [exact Hget|].
  split; [apply new_row_id|]. split; [|split; [|split; [|split]]].
  - intros Hnone. destruct (rows cd) as [|r0 rs] eqn:Hrows; [reflexivity|].
    destruct (next_id_attained (r0 :: rs)) as (r & Hr & _ & ->); [discriminate|].
    rewrite numeric_id_zero; [reflexivity|]. intros n. apply Hnone, Hr.
  - apply next_id_attained.
  - intros Hsafe. split; [|split; [|split]].
    + intros r Hr. apply next_id_above; assumption.
    + intros r n Hr Hid Heq.
      pose proof (next_id_above _ _ Hsafe Hr) as Hlt.
      rewrite (numeric_id_of _ _ Hid) in Hlt. lia.
    + intros Hne. destruct (next_id_safe _ Hne Hsafe) as (r & Hr & _ & Hnext). eauto.
    + intros n [(r & Hr & Hid) Hmax] Hpos.
      destruct (next_id_safe (rows cd)) as (r' & Hr' & Hge & ->); [|exact Hsafe|].
      { intros Hnil. rewrite Hnil in Hr. inversion Hr. }
      specialize (Hge r Hr). rewrite (numeric_id_of _ _ Hid) in Hge.
      unfold numeric_id in *.
      destruct (r' !! "id") as [[[| | |k|]| | | |]|] eqn:Hid'; try lia.
      specialize (Hmax r' k Hr' Hid'). lia.
  - apply new_row_name.
  - apply new_row_column.
Qed.

Lemma handleAddRow_appends_row_witness :
  exists m',
    handleAddRow (H := text_codec) sample_model = Ok m'
    /\ getCurrentData m'
       = Some {| columns := columns sample_grid;
                 rows := rows sample_grid ++ [new_row sample_grid] |}
    /\ new_row sample_grid !! "id" = Some (VNum 3)
    /\ forall r, r ∈ rows sample_grid -> (numeric_id r < 3)%Z.
Proof.
  destruct (handleAddRow_appends_row (H := text_codec) sample_model sample_grid eq_refl)
    as (m' & Hrun & Hget & Hid & _ & _ & Hsafe & _).
  exists m'. split; [exact Hrun|]. split; [exact Hget|]. split; [exact Hid|].
  apply Hsafe. intros r Hr.
  repeat (apply elem_of_cons in Hr as [->|Hr]; [vm_compute; reflexivity|]).
  inversion Hr.
Defined.

(** C8 as stated fails.  A sheet with a column of ids is imported into a
    new ScoreCard and a row is added.  With the ids 'a' and -5, the
    greatest numeric id is -5 and the new row gets the id 1, not -4.  With
    the id [2^53], the new row gets the id [2^53] again, since the sum
    [2^53 + 1] is rounded: the new id is an existing one. *)
Definition imported_ids (id1 id2 : prim) : list Event :=
  [ TypeScoreCardName "Spring";
    CreateScoreCard 1700000000000 "2023-11-14T22:13:20.000Z";
    CategoryChange "scorecard_1700000000000";
    ImportExcel [ [PStr "id"; PStr "name"]; [id1; PStr "Al"]; [id2; PStr "Bo"] ];
    AddRow ].

Lemma handleAddRow_id_counterexample :
  (map (fun r : Row => r !! "id")
       (current_rows (run (H := text_codec) "ADMIN" (imported_ids (PStr "a") (PNum (-5)))))
   = [Some (VStr "a"); Some (VNum (-5)); Some (VNum 1)]
   /\ (1 <> -5 + 1)%Z)
  /\ map (fun r : Row => r !! "id")
         (current_rows (run (H := text_codec) "ADMIN"
                          (imported_ids (PNum 1) (PNum (2 ^ 53)))))
     = [Some (VNum 1); Some (VNum (2 ^ 53)); Some (VNum (2 ^ 53))].
Proof.
  split; [split; [vm_compute; reflexivity | lia]|]. vm_compute. reflexivity.
Qed.

(** ** Adding and deleting a column *)

Lemma findIndex_go_spec {A} (p : A -> bool) (l : list A) (i : nat) :
  match (fix go (i : nat) (l : list A) : option nat :=
           match l with
           | [] => None
           | x :: l' => if p x then Some i else go (S i) l'
           end) i l with
  | Some j =>
      exists n x, j = (i + n)%nat /\ l !! n = Some x /\ p x = true
                  /\ forall y, y ∈ take n l -> p y = false
  | None => forall y, y ∈ l -> p y = false
  end.
Proof.
  revert i. induction l as [|x l IH]; intros i.
  - intros y Hy. inversion Hy.
  - destruct (p x) eqn:Hx.
    + exists 0%nat, x. repeat split; [lia | assumption |].
      intros y Hy. inversion Hy.
    + specialize (IH (S i)).
      destruct ((fix go (i : nat) (l : list A) : option nat :=
                   match l with
                   | [] => None
                   | x :: l' => if p x then Some i else go (S i) l'
                   end) (S i) l) as [j|].
      * destruct IH as (n & z & -> & Hz & Hpz & Hbefore).
        exists (S n), z. repeat split; [lia | assumption | assumption |].
        intros y Hy. simpl in Hy. apply elem_of_cons in Hy as [->|Hy]; auto.
      * intros y Hy. apply elem_of_cons in Hy as [->|Hy]; auto.
Qed.

(** The place where [handleAddColumnConfirm] inserts: in front of the
    first column with key ['retail_price'], at the end when there is none. *)
Lemma insert_index_spec cols :
  let before := take (insert_index cols) cols in
  let after := drop (insert_index cols) cols in
  cols = before ++ after
  /\ (forall c, c ∈ before -> col_key c <> "retail_price")
  /\ (after = [] \/ exists c rest, after = c :: rest /\ col_key c = "retail_price").
Proof.
  cbv zeta. split; [symmetry; apply take_drop|].
  unfold insert_index, findIndex.
  pose proof (findIndex_go_spec (has_key "retail_price") cols 0) as Hspec.
  destruct ((fix go (i : nat) (l : list MyColumn) : option nat :=
               match l with
               | [] => None
               | x :: l' => if has_key "retail_price" x then Some i else go (S i) l'
               end) 0%nat cols) as [j|].
  - destruct Hspec as (n & x & -> & Hx & Hpx & Hbefore). simpl. split.
    + intros c Hc Hkey. specialize (Hbefore c Hc).
      unfold has_key in Hbefore. rewrite bool_decide_eq_true_2 in Hbefore by assumption.
      discriminate.
    + right. exists x, (drop (S n) cols). split.
      * apply drop_S, Hx.
      * unfold has_key in Hpx. apply bool_decide_eq_true_1 in Hpx. assumption.
  - split.
    + intros c Hc Hkey. apply elem_of_take in Hc as (i & Hc & _).
      apply list_elem_of_lookup_2 in Hc. specialize (Hspec c Hc).
      unfold has_key in Hspec. rewrite bool_decide_eq_true_2 in Hspec by assumption.
      discriminate.
    + left. apply drop_all.
Qed.

Lemma existsb_has_key key cols :
  existsb (has_key key) cols = true <-> exists c, c ∈ cols /\ col_key c = key.
Proof.
  rewrite existsb_exists. split.
  - intros (c & Hin & Hk). exists c. split.
    + apply list_elem_of_In, Hin.
    + unfold has_key in Hk. apply bool_decide_eq_true_1 in Hk. assumption.
  - intros (c & Hin & Hk). exists c. split.
    + apply list_elem_of_In, Hin.
    + unfold has_key. apply bool_decide_eq_true_2. assumption.
Qed.

Lemma is_empty_true s : is_empty s = true <-> s = "".
Proof. destruct s; simpl; split; congruence. Qed.

Lemma is_empty_false s : is_empty s = false <-> s <> "".
Proof. destruct s; simpl; split; congruence. Qed.

(** C7, as amended.  With a current grid, [handleAddColumnConfirm] either
    reports an error and leaves the grid as it was, which it does exactly
    when the trimmed name is empty or the generated key is the key of a
    column of the grid, or clears the error and inserts the new column in
    front of the first column with key ['retail_price'] (at the end when
    there is none), every row getting the new key with the empty string
    and keeping its other fields.  (Without a current grid and with a name
    that is not blank, nothing happens and no error is reported: the first
    lemma after the witness.) *)
Theorem handleAddColumnConfirm_spec (m : Model) (cd : GridData) :
  getCurrentData m = Some cd ->
  let key := make_key (newColName m) in
  exists m',
    handleAddColumnConfirm m = Ok m'
    /\ (((trim (newColName m) = "" \/ exists c, c ∈ columns cd /\ col_key c = key)
         /\ colError m' <> ""
         /\ getCurrentData m' = Some cd)
        \/
        ((trim (newColName m) <> "" /\ forall c, c ∈ columns cd -> col_key c <> key)
         /\ colError m' = ""
         /\ exists before after,
              columns cd = before ++ after
              /\ (forall c, c ∈ before -> col_key c <> "retail_price")
              /\ (after = [] \/ exists c rest, after = c :: rest
                                               /\ col_key c = "retail_price")
              /\ getCurrentData m'
                 = Some {| columns := map blank_comments
                                          (before ++ new_column m key :: after);
                           rows := map (fun row : Row => <[key := VStr ""]> row)
                                       (rows cd) |}
              /\ forall (row : Row),
                   (<[key := VStr ""]> row) !! key = Some (VStr "")
                   /\ forall k, k <> key -> (<[key := VStr ""]> row) !! k = row !! k)).
Proof.
  intros Hcd key. unfold handleAddColumnConfirm. fold key.
  destruct (is_empty (trim (newColName m))) eqn:Hblank.
  { eexists. split; [reflexivity|]. left. repeat split.
    - left. apply is_empty_true, Hblank.
    - discriminate.
    - exact Hcd. }
  rewrite Hcd.
  destruct (existsb (has_key key) (columns cd)) eqn:Hdup.
  { eexists. split; [reflexivity|]. left. repeat split.
    - right. apply existsb_has_key, Hdup.
    - discriminate.
    - exact Hcd. }
  destruct (updateCurrentData_current
              (columns_and_rows
                 (map blank_comments
                      (insert_at (insert_index (columns cd)) (new_column m key) (columns cd)))
                 (map (fun row : Row => <[key := VStr ""]> row) (rows cd))) m cd Hcd)
    as (sel & Hsel & Hpre & -> & Hget).
  eexists. split; [reflexivity|]. right.
  destruct (insert_index_spec (columns cd)) as (Hsplit & Hbefore & Hafter).
  repeat split.
  - apply is_empty_false, Hblank.
  - intros c Hc Hk.
    assert (existsb (has_key key) (columns cd) = true) as Hex
      by (apply existsb_has_key; eauto).
    congruence.
  - exists (take (insert_index (columns cd)) (columns cd)),
           (drop (insert_index (columns cd)) (columns cd)).
    repeat split; try assumption.
    + etransitivity; [exact Hget|]. simpl. unfold insert_at.
      rewrite <- list_fmap_compose.
      f_equal. f_equal. apply list_fmap_ext. intros _ c _. simpl.
      unfold blank_comments. destruct (has_key "comments" c) eqn:Hc; [|rewrite Hc; reflexivity].
      unfold has_key in *. simpl. rewrite Hc. reflexivity.
    + apply lookup_insert_eq.
    + intros k Hk. apply lookup_insert_ne. congruence.
Qed.

Lemma handleAddColumnConfirm_spec_witness :
  exists m',
    handleAddColumnConfirm (setNewColName "Phone Number" sample_model) = Ok m'
    /\ colError m' = ""
    /\ ((fun cd => map col_key (columns cd)) <$> getCurrentData m')
       = Some ["name"; "phone_number"; "retail_price"; "buyer"; "store_count";
               "hq_location"; "cmg"; "brand_lead"].
Proof.
  destruct (handleAddColumnConfirm_spec
              (setNewColName "Phone Number" sample_model) sample_grid eq_refl)
    as (m' & Hrun & [(_ & Herr & _) | (_ & Herr & _)]).
  - exfalso. vm_compute in Hrun. injection Hrun as <-. apply Herr. reflexivity.
  - exists m'. split; [exact Hrun|]. split; [exact Herr|].
    vm_compute in Hrun. injection Hrun as <-. reflexivity.
Defined.

(** C7 as stated fails: with a name that is not blank and no ScoreCard
    selected, there is no column with the generated key, and yet nothing is
    inserted and no error is reported. *)
Lemma handleAddColumnConfirm_no_grid_counterexample :
  trim (newColName (setNewColName "Phone" (fresh "ADMIN"))) <> ""
  /\ getCurrentData (setNewColName "Phone" (fresh "ADMIN")) = None
  /\ handleAddColumnConfirm (setNewColName "Phone" (fresh "ADMIN"))
     = Ok (setNewColName "Phone" (fresh "ADMIN"))
  /\ colError (setNewColName "Phone" (fresh "ADMIN")) = "".
Proof. repeat split. discriminate. Qed.


Lemma blank_comments_key c : col_key (blank_comments c) = col_key c.
Proof. unfold blank_comments. destruct (has_key "comments" c); reflexivity. Qed.

Lemma filter_other_keys colKey cols c :
  c ∈ List.filter (fun col => negb (has_key colKey col)) cols
  <-> c ∈ cols /\ col_key c <> colKey.
Proof.
  rewrite !list_elem_of_In, filter_In. unfold has_key.
  split; intros [Hin Hk]; (split; [exact Hin|]).
  - intros Heq. rewrite bool_decide_eq_true_2 in Hk by assumption. discriminate.
  - rewrite bool_decide_eq_false_2 by assumption. reflexivity.
Qed.

(** ** Comments *)

Lemma comments_of_add_same sel rowId c prev :
  comments_of (add_comment sel rowId c prev) sel rowId
  = comments_of prev sel rowId ++ [c].
Proof.
  unfold add_comment. unfold comments_of at 1.
  rewrite lookup_insert_eq. simpl. rewrite lookup_insert_eq. reflexivity.
Qed.

Lemma comments_of_add_other sel rowId c prev category r :
  (category, r) <> (sel, rowId) ->
  comments_of (add_comment sel rowId c prev) category r = comments_of prev category r.
Proof.
  intros Hne. unfold add_comment, comments_of.
  destruct (decide (category = sel)) as [->|Hcat].
  - rewrite lookup_insert_eq. simpl.
    rewrite lookup_insert_ne by congruence. reflexivity.
  - rewrite lookup_insert_ne by congruence. reflexivity.
Qed.

(** C6.  With an input that is not blank, a selected category that starts
    with ['scorecard_'] and an open row, [handleAddComment] succeeds and the
    comments of that ScoreCard and row are the old ones followed by the new
    comment (the trimmed input, the time and the user name); the comments of
    every other pair are the old ones, and the other ScoreCards keep their
    entry as it was.  With a blank input, or with no category selected or
    one that is not a ScoreCard, the comments map is the old one, whether
    the handler returns or throws. *)
Theorem handleAddComment_spec `{Codec} (now : string) (m : Model) :
  (forall sel rowId,
     trim (commentInput m) <> "" ->
     selectedCategory m = Some sel -> startsWith "scorecard_" sel = true ->
     openCommentRowId m = Some rowId ->
     exists m',
       handleAddComment now m = Ok m'
       /\ comments_of (comments m') sel rowId
          = comments_of (comments m) sel rowId
            ++ [ {| text := trim (commentInput m); timestamp := now;
                    username := current_username (user m) |} ]
       /\ (forall category r, (category, r) <> (sel, rowId) ->
             comments_of (comments m') category r
             = comments_of (comments m) category r)
       /\ (forall category, category <> sel ->
             comments m' !! category = comments m !! category))
  /\ (trim (commentInput m) = ""
      \/ selectedCategory m = None
      \/ (exists sel, selectedCategory m = Some sel
                      /\ startsWith "scorecard_" sel = false) ->
      comments (settle (handleAddComment now m) m) = comments m).
Proof.
  split.
  - intros sel rowId Hinput Hsel Hpre Hrow. unfold handleAddComment.
    rewrite (proj2 (is_empty_false _) Hinput), Hrow, Hsel, Hpre. simpl.
    eexists. split; [reflexivity|]. simpl. repeat split.
    + apply comments_of_add_same.
    + intros category r Hne. apply comments_of_add_other, Hne.
    + intros category Hne. unfold add_comment.
      apply lookup_insert_ne. congruence.
  - intros Hcase. unfold handleAddComment.
    destruct (is_empty (trim (commentInput m))) eqn:Hblank; [reflexivity|].
    destruct (openCommentRowId m) as [rowId|]; [|reflexivity].
    destruct Hcase as [Hempty | [Hnone | (sel & Hsel & Hpre)]].
    + apply is_empty_false in Hblank. contradiction.
    + rewrite Hnone. reflexivity.
    + rewrite Hsel, Hpre. reflexivity.
Qed.

Definition commenting_model : Model :=
  setCommentInput "  call the buyer " (setOpenCommentRowId (Some 1%Z) sample_model).

Lemma handleAddComment_spec_witness :
  exists m',
    handleAddComment (H := text_codec) "1/5/2025, 10:00:00 AM" commenting_model = Ok m'
    /\ comments_of (comments m') "scorecard_1700000000000" 1
       = [ {| text := "call the buyer"; timestamp := "1/5/2025, 10:00:00 AM";
              username := "Anonymous" |} ].
Proof.
  destruct (proj1 (handleAddComment_spec (H := text_codec)
                     "1/5/2025, 10:00:00 AM" commenting_model)
                  "scorecard_1700000000000" 1%Z
                  ltac:(discriminate) eq_refl eq_refl eq_refl)
    as (m' & Hrun & Hsame & _).
  exists m'. split; [exact Hrun | exact Hsame].
Defined.

(** ** Sorting *)

Section InsertionSort.
Context {A : Type}.
Variable cmp : A -> A -> Z.

Lemma insert_by_perm x l : insert_by cmp x l ≡ₚ x :: l.
Proof.
  induction l as [|y l IH]; simpl; [reflexivity|].
  destruct (cmp x y <? 0)%Z; [reflexivity|].
  rewrite IH. apply perm_swap.
Qed.

Lemma fold_insert_perm l acc :
  fold_left (fun acc x => insert_by cmp x acc) l acc ≡ₚ l ++ acc.
Proof.
  revert acc. induction l as [|x l IH]; intros acc; simpl; [reflexivity|].
  rewrite IH, insert_by_perm. symmetry. apply Permutation_middle.
Qed.

Lemma array_sort_perm l : array_sort cmp l ≡ₚ l.
Proof. unfold array_sort. rewrite fold_insert_perm, app_nil_r. reflexivity. Qed.

(** [last] holds of the elements that the comparator puts after every
    other one: such an element never compares below another, and an
    element that is not such compares below each of them. *)
Variable last : A -> bool.
Hypothesis last_above : forall x y, last x = true -> (0 <= cmp x y)%Z.
Hypothesis other_below :
  forall x y, last x = false -> last y = true -> (cmp x y < 0)%Z.

(** Behind an element that is [last], every element is. *)
Fixpoint closed_by_last (l : list A) : Prop :=
  match l with
  | [] => True
  | x :: l' => (last x = true -> Forall (fun y => last y = true) l') /\ closed_by_last l'
  end.

Lemma insert_by_last x l :
  last x = true -> insert_by cmp x l = l ++ [x].
Proof.
  intros Hx. induction l as [|y l IH]; simpl; [reflexivity|].
  pose proof (last_above x y Hx).
  destruct (Z.ltb_spec (cmp x y) 0); [lia|]. rewrite IH. reflexivity.
Qed.

Lemma closed_by_last_snoc x l :
  last x = true -> closed_by_last l -> closed_by_last (l ++ [x]).
Proof.
  intros Hx. induction l as [|y l IH]; simpl.
  - intros _. split; [constructor | exact I].
  - intros [Hy Hl]. split; [|apply IH, Hl].
    intros Hlast. apply Forall_app. split; [apply Hy, Hlast|].
    constructor; [exact Hx | constructor].
Qed.

Lemma insert_by_closed x l :
  closed_by_last l -> closed_by_last (insert_by cmp x l).
Proof.
  intros Hl. destruct (last x) eqn:Hx.
  - rewrite insert_by_last by assumption. apply closed_by_last_snoc; assumption.
  - induction l as [|y l IH]; simpl.
    + split; [congruence | exact I].
    + destruct (Z.ltb_spec (cmp x y) 0) as [Hlt|Hge].
      * split; [congruence | exact Hl].
      * destruct Hl as [Hy Hl]. simpl. split; [|apply IH, Hl].
        intros Hlast. pose proof (other_below x y Hx Hlast). lia.
Qed.

Lemma array_sort_closed l : closed_by_last (array_sort cmp l).
Proof.
  unfold array_sort.
  assert (Hgen : forall acc, closed_by_last acc ->
            closed_by_last (fold_left (fun acc x => insert_by cmp x acc) l acc)).
  { induction l as [|x l IH]; intros acc Hacc; simpl; [exact Hacc|].
    apply IH, insert_by_closed, Hacc. }
  apply Hgen. exact I.
Qed.

Lemma closed_by_last_order l i j a b :
  closed_by_last l ->
  l !! i = Some a -> l !! j = Some b ->
  last a = true -> last b = false -> (j < i)%nat.
Proof.
  revert i j. induction l as [|x l IH]; intros i j Hcl Ha Hb Hla Hlb.
  - discriminate.
  - destruct Hcl as [Hx Hl]. destruct i as [|i], j as [|j]; simpl in *.
    + congruence.
    + injection Ha as ->. specialize (Hx Hla).
      rewrite Forall_forall in Hx.
      apply list_elem_of_lookup_2 in Hb. specialize (Hx b Hb). congruence.
    + lia.
    + specialize (IH i j Hl Ha Hb Hla Hlb). lia.
Qed.

End InsertionSort.

Section SortedRows.
Variable strict_eq greater : value -> value -> bool.

(** C9.  [getSortedRows] returns a permutation of the rows of the current
    grid; with no sort column it returns them as they are stored; with a
    sort column, a row whose value in that column is [null] or [undefined]
    stands behind every row whose value is neither, whatever the
    direction. *)
Theorem getSortedRows_spec (m : Model) :
  getSortedRows strict_eq greater m ≡ₚ current_rows m
  /\ (sortColumns m = [] -> getSortedRows strict_eq greater m = current_rows m)
  /\ (forall sc rest i j a b,
        sortColumns m = sc :: rest ->
        getSortedRows strict_eq greater m !! i = Some a ->
        getSortedRows strict_eq greater m !! j = Some b ->
        is_nullish (js_get (columnKey sc) a) = true ->
        is_nullish (js_get (columnKey sc) b) = false ->
        (j < i)%nat).
Proof.
  unfold getSortedRows. repeat split.
  - destruct (sortColumns m); [reflexivity | apply array_sort_perm].
  - intros ->. reflexivity.
  - intros sc rest i j a b -> Ha Hb Hna Hnb.
    apply (closed_by_last_order
             (fun r => is_nullish (js_get (columnKey sc) r))
             (array_sort (compare_rows strict_eq greater (columnKey sc) (direction sc))
                         (current_rows m)) i j a b);
      try assumption.
    apply array_sort_closed.
    + intros x y Hx. unfold compare_rows. rewrite Hx. lia.
    + intros x y Hx Hy. unfold compare_rows. rewrite Hx, Hy. lia.
Qed.

End SortedRows.

(** ** The spreadsheet import *)

Module ExcelFacts.
Import Excel.

(** *** Sets of cells *)

Lemma set_from_elem seen l x : x ∈ set_from seen l <-> x ∈ l /\ x ∉ seen.
Proof.
  revert seen. induction l as [|y l IH]; intros seen; simpl.
  - rewrite elem_of_nil. tauto.
  - destruct (bool_decide (y ∈ seen)) eqn:Hy.
    + apply bool_decide_eq_true_1 in Hy. rewrite IH, elem_of_cons.
      split; [tauto|]. intros [[->|Hin] Hns]; [contradiction | tauto].
    + apply bool_decide_eq_false_1 in Hy. rewrite !elem_of_cons, IH, elem_of_cons.
      split.
      * intros [->|[Hin Hns]]; tauto.
      * intros [[->|Hin] Hns]; [tauto|].
        destruct (decide (x = y)) as [->|Hne]; tauto.
Qed.

Lemma set_from_NoDup seen l : NoDup (set_from seen l).
Proof.
  revert seen. induction l as [|y l IH]; intros seen; simpl; [constructor|].
  destruct (bool_decide (y ∈ seen)); [apply IH|].
  constructor; [|apply IH].
  rewrite set_from_elem, elem_of_cons. tauto.
Qed.

Lemma new_Set_elem l x : x ∈ new_Set l <-> x ∈ l.
Proof. unfold new_Set. rewrite set_from_elem, elem_of_nil. tauto. Qed.

Lemma new_Set_NoDup l : NoDup (new_Set l).
Proof. apply set_from_NoDup. Qed.

(** The size of the set is the greatest number of distinct elements. *)
Lemma new_Set_size l n :
  (n <= length (new_Set l))%nat
  <-> exists vs, NoDup vs /\ length vs = n /\ forall v, v ∈ vs -> v ∈ l.
Proof.
  split.
  - intros Hn. exists (take n (new_Set l)). repeat split.
    + eapply sublist_NoDup; [apply new_Set_NoDup | apply sublist_take].
    + rewrite length_take. lia.
    + intros v Hv. apply new_Set_elem. eapply subseteq_take, Hv.
  - intros (vs & Hnd & <- & Hsub).
    apply submseteq_length, NoDup_submseteq; [assumption|].
    intros v Hv. apply new_Set_elem, Hsub, Hv.
Qed.

Lemma filter_nonEmpty_elem (row : list prim) c :
  c ∈ List.filter nonEmpty row <-> c ∈ row /\ nonEmpty c = true.
Proof. rewrite !list_elem_of_In. apply filter_In. Qed.

(** *** The header row *)





(** *** Objects built by assignment *)

Lemma has_content_iff (obj : gmap string prim) :
  has_content obj = true <-> exists k v, obj !! k = Some v /\ nonEmpty v = true.
Proof.
  unfold has_content. rewrite existsb_exists. split.
  - intros (v & Hin & Hv). apply in_map_iff in Hin as ([k v'] & <- & Hin).
    apply list_elem_of_In, elem_of_map_to_list in Hin. eauto.
  - intros (k & v & Hk & Hv). exists v. split; [|assumption].
    apply in_map_iff. exists (k, v). split; [reflexivity|].
    apply list_elem_of_In, elem_of_map_to_list, Hk.
Qed.

Lemma trim_starts c s : is_space c = false -> is_empty (trim (String c s)) = false.
Proof. intros Hc. unfold trim. simpl. rewrite Hc. simpl. rewrite Hc. reflexivity. Qed.

Lemma number_string_not_blank n : is_empty (trim (number_string n)) = false.
Proof.
  unfold number_string, print_int.
  pose proof (to_int_nonnil n) as Hnn.
  destruct (Z.to_int n) as [d|d].
  - destruct d; try congruence; apply trim_starts; reflexivity.
  - apply trim_starts. reflexivity.
Qed.

Lemma nonEmpty_number n : n <> 0%Z -> nonEmpty (PNum n) = true.
Proof.
  intros Hn. unfold nonEmpty. simpl.
  rewrite number_string_not_blank. destruct (Z.eqb_spec n 0); [contradiction | reflexivity].
Qed.

Lemma js_assign_same {V} k (v : V) o :
  k <> "__proto__" -> js_assign k v o !! k = Some v.
Proof.
  intros Hk. unfold js_assign. rewrite bool_decide_eq_false_2 by assumption.
  apply lookup_insert_eq.
Qed.

Lemma js_assign_other {V} k (v : V) o k' :
  k <> k' -> js_assign k v o !! k' = o !! k'.
Proof.
  intros Hk. unfold js_assign. destruct (bool_decide (k = "__proto__")); [reflexivity|].
  apply lookup_insert_ne, Hk.
Qed.

Lemma js_assign_dom {V} k (v : V) o k' w :
  js_assign k v o !! k' = Some w -> k' = k \/ o !! k' = Some w.
Proof.
  intros Hw. destruct (decide (k = k')) as [->|Hne]; [left; reflexivity|].
  right. rewrite js_assign_other in Hw by assumption. exact Hw.
Qed.

Section Assign.
Context {X : Type}.
Variable name : X -> string.
Variable val : X -> prim.

(** [xs.forEach(x => { o[name(x)] = val(x) })] *)
Definition assign_all (xs : list X) (o : gmap string prim) : gmap string prim :=
  fold_left (fun o x => js_assign (name x) (val x) o) xs o.

Lemma assign_all_frame xs o k :
  (forall x, x ∈ xs -> name x <> k) -> assign_all xs o !! k = o !! k.
Proof.
  revert o. induction xs as [|x xs IH]; intros o Hxs; simpl; [reflexivity|].
  rewrite IH.
  - apply js_assign_other, Hxs, list_elem_of_here.
  - intros y Hy. apply Hxs, list_elem_of_further, Hy.
Qed.

Lemma assign_all_last xs1 x xs2 o :
  name x <> "__proto__" -> (forall y, y ∈ xs2 -> name y <> name x) ->
  assign_all (xs1 ++ x :: xs2) o !! name x = Some (val x).
Proof.
  intros Hk Hxs2. unfold assign_all. rewrite fold_left_app. simpl.
  fold (assign_all xs2). rewrite assign_all_frame by assumption.
  apply js_assign_same, Hk.
Qed.

Lemma assign_all_dom xs o k v :
  assign_all xs o !! k = Some v ->
  (exists x, x ∈ xs /\ name x = k) \/ o !! k = Some v.
Proof.
  revert o. induction xs as [|x xs IH]; intros o Hv; simpl in *; [right; exact Hv|].
  apply IH in Hv as [(y & Hy & Hk) | Hv].
  - left. exists y. split; [apply list_elem_of_further, Hy | exact Hk].
  - apply js_assign_dom in Hv as [->|Hv]; [|right; exact Hv].
    left. exists x. split; [apply list_elem_of_here | reflexivity].
Qed.

End Assign.

(** *** The rows of the horizontal format *)




Lemma row_object_dom hs idx row k v :
  row_object hs idx row !! k = Some v -> k = "_rowIndex" \/ k ∈ hs.
Proof.
  unfold row_object. intros Hv.
  destruct (decide (k = "_rowIndex")) as [->|Hne]; [left; reflexivity|]. right.
  rewrite lookup_insert_ne in Hv by congruence.
  apply (assign_all_dom snd (fun ih => or_empty (cell_at row (fst ih)))) in Hv
    as [(p & Hp & <-) | Hv].
  - apply elem_of_lookup_imap in Hp as (n & k' & -> & Hn). simpl.
    eapply list_elem_of_lookup_2, Hn.
  - rewrite lookup_empty in Hv. discriminate.
Qed.


(** *** Header keys *)

Lemma mapM_Ok {A B} (f : A -> result B) l ys :
  mapM f l = Ok ys <-> Forall2 (fun x y => f x = Ok y) l ys.
Proof.
  revert ys. induction l as [|x l IH]; intros ys; simpl.
  - split; [intros [= <-]; constructor | intros Hall; inversion Hall; reflexivity].
  - destruct (f x) as [y|e] eqn:Hx; simpl.
    + destruct (mapM f l) as [ys'|e] eqn:Hl; simpl.
      * split.
        -- intros [= <-]. constructor; [exact Hx | apply IH; reflexivity].
        -- intros Hall. inversion Hall as [|? y' ? ys'' Hy Htl]; subst.
           apply IH in Htl. congruence.
      * split; [discriminate|].
        intros Hall. inversion Hall as [|? y' ? ys'' Hy Htl]; subst.
        apply IH in Htl. discriminate.
    + split; [discriminate|].
      intros Hall. inversion Hall as [|? y' ? ys'' Hy Htl]; subst. congruence.
Qed.









End ExcelFacts.

Import Excel ExcelFacts.


Definition contacts_sheet : Sheet :=
  [ [PStr "Name"; PStr "Home City"];
    [PStr "Al"; PStr "Rome"];
    [PStr ""; PStr ""];
    [PStr "Bo"; PStr ""] ].





(** ** The import on malformed input *)

(** C4.  An empty sheet leaves the state as it is, in every state.  A
    sheet whose header row holds a number makes the import throw, and so
    does a sheet in the vertical format whose field names are numbers, and
    any sheet that parses when no ScoreCard is selected. *)
Theorem handleImportExcel_malformed (m : Model) :
  handleImportExcel [] m = Ok m
  /\ handleImportExcel [ [PNum 2024; PStr "Name"]; [PStr "a"; PStr "b"] ] m
     = Throw (TypeError "(key || '').trim is not a function")
  /\ handleImportExcel
       [ [PNum 1; PStr "a"]; [PNum 2; PStr "b"]; [PNum 3; PStr "c"]; [PNum 4; PStr "d"] ] m
     = Throw (TypeError "(key || `__EMPTY_${i}`).charAt is not a function")
  /\ (selectedCategory m = None ->
      handleImportExcel contacts_sheet m
      = Throw (TypeError "Cannot read properties of undefined (reading 'startsWith')")).
Proof.
  repeat split.
  intros Hnone. unfold handleImportExcel.
  change (parse_sheet contacts_sheet) with
    (Ok (Some {| importedColumns := [imported_column "name"; imported_column "home_city"];
                 formattedRows := List.filter has_content
                   (imap (row_object ["name"; "home_city"]) (dataRows contacts_sheet)) |})).
  cbn [bind]. unfold updateCurrentData. rewrite Hnone. reflexivity.
Qed.

(** ** The vertical format *)

(** The blocks as the specification words them: the rows are read in
    order; a row whose first cell is empty closes the block under
    construction, a row whose field name the block already has closes it and
    opens the next one, any other row joins the block. *)
Definition field_name (row : list prim) : prim := cell_at row 0.

Definition close_block (cur : Sheet) : list Sheet :=
  match cur with
  | [] => []
  | _ => [cur]
  end.

Fixpoint blocks_from (cur : Sheet) (rws : Sheet) : list Sheet :=
  match rws with
  | [] => close_block cur
  | row :: rest =>
      if negb (truthy (field_name row)) then close_block cur ++ blocks_from [] rest
      else if bool_decide (field_name row ∈ map field_name cur)
           then close_block cur ++ blocks_from [row] rest
           else blocks_from (cur ++ [row]) rest
  end.

Module VerticalFacts.

Lemma push_block_close b : push_block b = blocks b ++ close_block (currentBlock b).
Proof.
  unfold push_block, close_block.
  destruct (currentBlock b); [rewrite app_nil_r|]; reflexivity.
Qed.

(** The loop of the source computes the blocks of the specification. *)
Lemma fold_block_step rws b :
  (forall k, k ∈ seenFields b <-> k ∈ map field_name (currentBlock b)) ->
  push_block (fold_left block_step rws b)
  = blocks b ++ blocks_from (currentBlock b) rws.
Proof.
  revert b. induction rws as [|row rest IH]; intros b Hseen.
  - apply push_block_close.
  - cbn [fold_left blocks_from]. unfold block_step at 2. fold (field_name row).
    destruct (truthy (field_name row)) eqn:Hkey; cbn [negb orb].
    + destruct (bool_decide (field_name row ∈ seenFields b)) eqn:Hin.
      * apply bool_decide_eq_true_1 in Hin. cbn [blocks currentBlock seenFields].
        rewrite (bool_decide_eq_true_2 _ (proj1 (Hseen _) Hin)).
        rewrite IH; cbn [blocks currentBlock seenFields].
        -- rewrite push_block_close, <- app_assoc. reflexivity.
        -- intros k. simpl. rewrite !list_elem_of_singleton. tauto.
      * apply bool_decide_eq_false_1 in Hin.
        rewrite bool_decide_eq_false_2 by (rewrite <- Hseen; exact Hin).
        rewrite IH; cbn [blocks currentBlock seenFields]; [reflexivity|].
        intros k. rewrite map_app, elem_of_app, elem_of_cons, Hseen. simpl.
        rewrite list_elem_of_singleton. tauto.
    + rewrite IH; cbn [blocks currentBlock seenFields].
      * rewrite push_block_close, <- app_assoc. reflexivity.
      * intros k. simpl. tauto.
Qed.

Lemma split_blocks_spec rows2D : split_blocks rows2D = blocks_from [] rows2D.
Proof.
  unfold split_blocks. rewrite fold_block_step; [reflexivity|].
  intros k. simpl. tauto.
Qed.

(** A well-formed block: not empty, its field names not empty and
    pairwise distinct. *)
Definition well_formed (block : Sheet) : Prop :=
  block <> []
  /\ NoDup (map field_name block)
  /\ forall row, row ∈ block -> truthy (field_name row) = true.

Lemma blocks_from_well_formed cur rws block :
  NoDup (map field_name cur) ->
  (forall row, row ∈ cur -> truthy (field_name row) = true) ->
  block ∈ blocks_from cur rws -> well_formed block.
Proof.
  revert cur. induction rws as [|row rest IH]; intros cur Hnd Htr Hin; simpl in Hin.
  - destruct cur as [|r cur]; simpl in Hin; [inversion Hin|].
    apply list_elem_of_singleton in Hin as ->. repeat split; [discriminate | assumption | assumption].
  - assert (Hclose : block ∈ close_block cur -> well_formed block).
    { intros Hc. destruct cur as [|r cur]; simpl in Hc; [inversion Hc|].
      apply list_elem_of_singleton in Hc as ->.
      repeat split; [discriminate | assumption | assumption]. }
    destruct (truthy (field_name row)) eqn:Hkey; cbn [negb] in Hin.
    + destruct (bool_decide (field_name row ∈ map field_name cur)) eqn:Hdup.
      * apply elem_of_app in Hin as [Hin|Hin]; [auto|].
        apply (IH [row]); [ | | exact Hin].
        -- simpl. apply NoDup_singleton.
        -- intros r Hr. apply list_elem_of_singleton in Hr as ->. exact Hkey.
      * apply bool_decide_eq_false_1 in Hdup.
        apply (IH (cur ++ [row])); [ | | exact Hin].
        -- rewrite map_app. simpl. apply NoDup_app. repeat split; [exact Hnd | | apply NoDup_singleton].
           intros k Hk Hk'. apply list_elem_of_singleton in Hk' as ->. contradiction.
        -- intros r Hr. apply elem_of_app in Hr as [Hr|Hr]; [auto|].
           apply list_elem_of_singleton in Hr as ->. exact Hkey.
    + apply elem_of_app in Hin as [Hin|Hin]; [auto|].
      apply (IH []); [constructor | | exact Hin].
      intros r Hr. inversion Hr.
Qed.

Lemma concat_close_block cur : concat (close_block cur) = cur.
Proof. destruct cur; simpl; [reflexivity|]. rewrite app_nil_r. reflexivity. Qed.

(** The blocks hold, in order, the rows whose first cell is not empty. *)
Lemma blocks_from_concat cur rws :
  concat (blocks_from cur rws)
  = cur ++ List.filter (fun row => truthy (field_name row)) rws.
Proof.
  revert cur. induction rws as [|row rest IH]; intros cur; simpl.
  - rewrite concat_close_block, app_nil_r. reflexivity.
  - destruct (truthy (field_name row)) eqn:Hkey; cbn [negb].
    + destruct (bool_decide (field_name row ∈ map field_name cur)).
      * rewrite concat_app, concat_close_block, IH. reflexivity.
      * rewrite IH, <- app_assoc. reflexivity.
    + rewrite concat_app, concat_close_block, IH. reflexivity.
Qed.

Lemma allKeys_elem bs k :
  k ∈ allKeys bs
  <-> exists block row, block ∈ bs /\ row ∈ block /\ field_name row = k.
Proof.
  unfold allKeys. rewrite new_Set_elem, list_elem_of_In, in_flat_map. split.
  - intros (block & Hb & Hk). apply in_map_iff in Hk as (row & <- & Hr).
    exists block, row. rewrite !list_elem_of_In. auto.
  - intros (block & row & Hb & Hr & <-). exists block.
    rewrite <- !list_elem_of_In. split; [assumption|].
    apply list_elem_of_In, in_map_iff. exists row.
    split; [reflexivity | apply list_elem_of_In, Hr].
Qed.


Lemma firstCol_elem rows2D v :
  v ∈ firstCol rows2D
  <-> nonEmpty v = true /\ exists row, row ∈ rows2D /\ field_name row = v.
Proof.
  unfold firstCol. rewrite filter_nonEmpty_elem, list_elem_of_In, in_map_iff.
  split.
  - intros [(row & <- & Hr) Hv]. split; [exact Hv|].
    exists row. split; [apply list_elem_of_In, Hr | reflexivity].
  - intros [Hv (row & Hr & <-)]. split; [|exact Hv].
    exists row. split; [reflexivity | apply list_elem_of_In, Hr].
Qed.

Lemma isVertical_iff rows2D :
  isVertical rows2D = true
  <-> (exists vs, NoDup vs /\ (3 < length vs)%nat
                  /\ forall v, v ∈ vs ->
                       nonEmpty v = true
                       /\ exists row, row ∈ rows2D /\ field_name row = v)
      /\ (forall row c, row ∈ rows2D -> c ∈ drop 2 row -> nonEmpty c = false).
Proof.
  unfold isVertical. rewrite andb_true_iff, Nat.ltb_lt.
  assert (Hrest : mostlyEmptyRest rows2D = true
                  <-> forall row c, row ∈ rows2D -> c ∈ drop 2 row -> nonEmpty c = false).
  { unfold mostlyEmptyRest. rewrite forallb_forall. split.
    - intros Hall row c Hrow Hc. apply list_elem_of_In in Hrow, Hc.
      specialize (Hall row Hrow). rewrite forallb_forall in Hall.
      specialize (Hall c Hc). apply negb_true_iff in Hall. exact Hall.
    - intros Hall row Hrow. apply forallb_forall. intros c Hc.
      apply negb_true_iff, (Hall row c); apply list_elem_of_In; assumption. }
  rewrite Hrest. clear Hrest.
  assert (Hsize : (3 < length (new_Set (firstCol rows2D)))%nat
                  <-> exists vs, NoDup vs /\ (3 < length vs)%nat
                                 /\ forall v, v ∈ vs -> v ∈ firstCol rows2D).
  { split.
    - intros Hlt. exists (new_Set (firstCol rows2D)).
      split; [apply new_Set_NoDup|]. split; [exact Hlt|].
      intros v Hv. apply new_Set_elem, Hv.
    - intros (vs & Hnd & Hlt & Hsub).
      assert (length vs <= length (new_Set (firstCol rows2D)))%nat; [|lia].
      apply submseteq_length, NoDup_submseteq; [exact Hnd|].
      intros v Hv. apply new_Set_elem, Hsub, Hv. }
  rewrite Hsize. clear Hsize.
  split; intros [(vs & Hnd & Hlt & Hsub) Hrest]; (split; [|exact Hrest]);
    exists vs; (split; [exact Hnd|]); (split; [exact Hlt|]);
    intros v Hv; apply firstCol_elem, Hsub, Hv.
Qed.

Lemma vertical_columns keys :
  (forall k, k ∈ keys -> exists s, k = PStr s) ->
  exists names,
    keys = map PStr names
    /\ mapM vertical_column keys = Ok (map imported_column names).
Proof.
  induction keys as [|k keys IH]; intros Hstr.
  - exists []. split; reflexivity.
  - destruct (Hstr k) as [s ->]; [apply list_elem_of_here|].
    destruct IH as (names & -> & Hcols).
    { intros k Hk. apply Hstr, list_elem_of_further, Hk. }
    exists (s :: names). split; [reflexivity|].
    simpl.
    simpl in Hcols. rewrite Hcols. reflexivity.
Qed.

(** *** The object of a block *)

Lemma fill_missing_keeps obj key k v :
  obj !! k = Some v -> fill_missing obj key !! k = Some v.
Proof.
  intros Hk. unfold fill_missing.
  destruct (negb (js_in (js_String key) obj)) eqn:Hin; [|exact Hk].
  destruct (decide (js_String key = k)) as [Heq|Hne].
  - unfold js_in in Hin. rewrite Heq in Hin.
    rewrite bool_decide_eq_true_2 in Hin by (eexists; eassumption). discriminate.
  - rewrite js_assign_other by assumption. exact Hk.
Qed.

Lemma fold_fill_missing_keeps keys obj k v :
  obj !! k = Some v -> fold_left fill_missing keys obj !! k = Some v.
Proof.
  revert obj. induction keys as [|key keys IH]; intros obj Hk; simpl; [exact Hk|].
  apply IH, fill_missing_keeps, Hk.
Qed.

Lemma fill_missing_fills obj k :
  inherited k = false -> obj !! k = None ->
  fill_missing obj (PStr k) !! k = Some (PStr "").
Proof.
  intros Hinh Hnone. unfold fill_missing, js_in. simpl.
  rewrite Hinh, bool_decide_eq_false_2 by (rewrite Hnone; intros [? [=]]).
  simpl. apply js_assign_same. intros ->. discriminate.
Qed.

Lemma fill_missing_other obj key k :
  obj !! k = None -> js_String key <> k -> fill_missing obj key !! k = None.
Proof.
  intros Hnone Hne. unfold fill_missing.
  destruct (negb _); [|exact Hnone].
  rewrite js_assign_other by assumption. exact Hnone.
Qed.

Lemma fold_fill_missing_fills names obj k :
  k ∈ names -> inherited k = false ->
  obj !! k = None \/ obj !! k = Some (PStr "") ->
  fold_left fill_missing (map PStr names) obj !! k = Some (PStr "").
Proof.
  intros Hin Hinh. revert obj.
  induction names as [|n names IH]; intros obj Hobj; [inversion Hin|].
  simpl. destruct Hobj as [Hnone|Hsome].
  - destruct (decide (n = k)) as [->|Hne].
    + apply fold_fill_missing_keeps, fill_missing_fills; assumption.
    + apply elem_of_cons in Hin as [->|Hin]; [congruence|].
      apply IH; [exact Hin|]. left. apply fill_missing_other; assumption.
  - apply fold_fill_missing_keeps, fill_missing_keeps, Hsome.
Qed.

Lemma fold_fill_missing_dom names obj k v :
  fold_left fill_missing (map PStr names) obj !! k = Some v ->
  k ∈ names \/ obj !! k = Some v.
Proof.
  revert obj. induction names as [|n names IH]; intros obj Hv; simpl in Hv;
    [right; exact Hv|].
  apply IH in Hv as [Hin|Hv]; [left; apply list_elem_of_further, Hin|].
  unfold fill_missing in Hv. destruct (negb _); [|right; exact Hv].
  apply js_assign_dom in Hv as [->|Hv]; [left; apply list_elem_of_here | right; exact Hv].
Qed.


Definition block_name (row : list prim) : string := js_String (field_name row).
Definition block_value (row : list prim) : prim := or_empty (cell_at row 1).

Lemma block_object_unfold keys idx block :
  block_object keys idx block
  = <["_rowIndex" := PNum (Z.of_nat idx)]>
      (fold_left fill_missing keys (assign_all block_name block_value block ∅)).
Proof. reflexivity. Qed.

Lemma block_object_index keys idx block :
  block_object keys idx block !! "_rowIndex" = Some (PNum (Z.of_nat idx)).
Proof. apply lookup_insert_eq. Qed.

Lemma block_object_value names idx block row k :
  NoDup (map field_name block) ->
  (forall r, r ∈ block -> exists s, field_name r = PStr s) ->
  row ∈ block -> field_name row = PStr k ->
  k <> "__proto__" -> k <> "_rowIndex" ->
  block_object (map PStr names) idx block !! k = Some (block_value row).
Proof.
  intros Hnd Hstr Hrow Hk Hproto Hidx. rewrite block_object_unfold.
  rewrite lookup_insert_ne by congruence.
  apply fold_fill_missing_keeps.
  apply list_elem_of_split in Hrow as (xs1 & xs2 & ->).
  assert (Hname : block_name row = k) by (unfold block_name; rewrite Hk; reflexivity).
  rewrite <- Hname. apply assign_all_last; [congruence|].
  intros y Hy Heq.
  destruct (Hstr y) as [s Hs].
  { apply elem_of_app. right. apply list_elem_of_further, Hy. }
  assert (field_name y = field_name row) as Hsame.
  { unfold block_name in Heq, Hname. rewrite Hs in Heq |- *. simpl in Heq.
    rewrite Hk. congruence. }
  rewrite map_app in Hnd. apply NoDup_app in Hnd as (_ & _ & Hnd).
  simpl in Hnd. apply NoDup_cons in Hnd as [Hnotin _].
  apply Hnotin. rewrite <- Hsame. apply list_elem_of_In, in_map, list_elem_of_In, Hy.
Qed.

Lemma block_object_missing names idx block k :
  (forall r, r ∈ block -> exists s, field_name r = PStr s) ->
  k ∈ names -> inherited k = false -> k <> "_rowIndex" ->
  (forall r, r ∈ block -> field_name r <> PStr k) ->
  block_object (map PStr names) idx block !! k = Some (PStr "").
Proof.
  intros Hstr Hin Hinh Hidx Hnone. rewrite block_object_unfold.
  rewrite lookup_insert_ne by congruence.
  apply fold_fill_missing_fills; [assumption | assumption |]. left.
  rewrite assign_all_frame; [apply lookup_empty|].
  intros r Hr Hname. destruct (Hstr r Hr) as [s Hs].
  apply (Hnone r Hr). unfold block_name in Hname. rewrite Hs in Hname |- *.
  simpl in Hname. congruence.
Qed.

Lemma block_object_dom names idx block k v :
  (forall r, r ∈ block -> exists s, field_name r = PStr s /\ s ∈ names) ->
  block_object (map PStr names) idx block !! k = Some v ->
  k = "_rowIndex" \/ k ∈ names.
Proof.
  intros Hstr Hv. rewrite block_object_unfold in Hv.
  destruct (decide (k = "_rowIndex")) as [->|Hne]; [left; reflexivity|]. right.
  rewrite lookup_insert_ne in Hv by congruence.
  apply fold_fill_missing_dom in Hv as [Hin|Hv]; [exact Hin|].
  apply assign_all_dom in Hv as [(r & Hr & Hname) | Hv].
  - destruct (Hstr r Hr) as (s & Hs & Hin). unfold block_name in Hname.
    rewrite Hs in Hname. simpl in Hname. subst s. exact Hin.
  - rewrite lookup_empty in Hv. discriminate.
Qed.

End VerticalFacts.

Import VerticalFacts.

(** C3, as amended.  The import takes the vertical branch exactly when the
    first column has more than three distinct non-empty values and no row
    has a non-empty cell from its third column on.  The loop then builds
    the blocks of [blocks_from]: well-formed blocks that hold, in order,
    the rows whose first cell is not empty.  When every field name is a
    string, the import returns one column for each distinct field name and
    one object for each block: the object maps ['_rowIndex'] to the position
    of the block and, for each field name other than ['_rowIndex'] that is
    not a property name inherited from [Object.prototype], the name to the
    second cell of the row of the block that carries it (the empty string
    for a [null] or absent cell), or to the empty string when the block has
    no such row; it has no other keys.  The object is kept when one of
    these second cells is not empty. *)
Theorem import_vertical_spec (rows2D : Sheet) :
  (isVertical rows2D = true
   <-> (exists vs, NoDup vs /\ (3 < length vs)%nat
                   /\ forall v, v ∈ vs ->
                        nonEmpty v = true
                        /\ exists row, row ∈ rows2D /\ field_name row = v)
       /\ (forall row c, row ∈ rows2D -> c ∈ drop 2 row -> nonEmpty c = false))
  /\ split_blocks rows2D = blocks_from [] rows2D
  /\ (forall block, block ∈ split_blocks rows2D -> well_formed block)
  /\ concat (split_blocks rows2D)
      = List.filter (fun row => truthy (field_name row)) rows2D
  /\ (NoDup (allKeys (split_blocks rows2D))
       /\ forall k, k ∈ allKeys (split_blocks rows2D)
                    <-> exists block row, block ∈ split_blocks rows2D
                                          /\ row ∈ block /\ field_name row = k)
  /\ (rows2D <> [] -> isVertical rows2D = true ->
       (forall k, k ∈ allKeys (split_blocks rows2D) -> exists s, k = PStr s) ->
       exists names,
         allKeys (split_blocks rows2D) = map PStr names
         /\ parse_sheet rows2D
            = Ok (Some {| importedColumns := map imported_column names;
                          formattedRows :=
                            List.filter has_content
                              (imap (block_object (map PStr names))
                                    (split_blocks rows2D)) |})
         /\ forall idx block,
              split_blocks rows2D !! idx = Some block ->
              block_object (map PStr names) idx block !! "_rowIndex"
              = Some (PNum (Z.of_nat idx))
              /\ (forall k v, block_object (map PStr names) idx block !! k = Some v ->
                    k = "_rowIndex" \/ k ∈ names)
              /\ forall k,
                   k ∈ names -> k <> "_rowIndex" -> inherited k = false ->
                   (forall row, row ∈ block -> field_name row = PStr k ->
                      block_object (map PStr names) idx block !! k
                      = Some (or_empty (cell_at row 1))
                      /\ (nonEmpty (cell_at row 1) = true ->
                          block_object (map PStr names) idx block
                          ∈ List.filter has_content
                              (imap (block_object (map PStr names))
                                    (split_blocks rows2D))))
                   /\ ((forall row, row ∈ block -> field_name row <> PStr k) ->
                       block_object (map PStr names) idx block !! k
                       = Some (PStr ""))).
Proof.
  split; [apply isVertical_iff|].
  split; [apply split_blocks_spec|].
  assert (Hwf : forall block, block ∈ split_blocks rows2D -> well_formed block).
  { intros block Hb. rewrite split_blocks_spec in Hb.
    apply (blocks_from_well_formed [] rows2D); [constructor | | exact Hb].
    intros r Hr. inversion Hr. }
  split; [exact Hwf|].
  split; [rewrite split_blocks_spec; apply blocks_from_concat|].
  split; [split; [apply new_Set_NoDup | apply allKeys_elem]|].
  intros Hne Hvert Hstr.
  destruct (vertical_columns _ Hstr) as (names & Hkeys & Hcols).
  exists names. split; [exact Hkeys|]. split.
  { unfold parse_sheet. destruct rows2D as [|r0 rest]; [congruence|].
    rewrite Hvert. unfold import_vertical. rewrite Hcols, Hkeys. reflexivity. }
  intros idx block Hblock.
  assert (Hin : block ∈ split_blocks rows2D) by (eapply list_elem_of_lookup_2, Hblock).
  destruct (Hwf block Hin) as (_ & Hnd & _).
  assert (Hnames : forall r, r ∈ block -> exists s, field_name r = PStr s /\ s ∈ names).
  { intros r Hr.
    assert (field_name r ∈ allKeys (split_blocks rows2D)) as Hk
      by (apply allKeys_elem; eauto).
    rewrite Hkeys in Hk. apply list_elem_of_In, in_map_iff in Hk as (s & Hs & Hsin).
    exists s. split; [congruence | apply list_elem_of_In, Hsin]. }
  assert (Hstrings : forall r, r ∈ block -> exists s, field_name r = PStr s).
  { intros r Hr. destruct (Hnames r Hr) as (s & Hs & _). eauto. }
  split; [apply block_object_index|].
  split; [intros k v; apply block_object_dom, Hnames|].
  intros k Hk Hidx Hinh. split.
  - intros row Hrow Hfield.
    assert (Hproto : k <> "__proto__") by (intros ->; discriminate).
    assert (Hval : block_object (map PStr names) idx block !! k
                   = Some (or_empty (cell_at row 1))).
    { apply (block_object_value names idx block row k); assumption. }
    split; [exact Hval|].
    intros Hnon. apply list_elem_of_In, filter_In. split.
    + apply list_elem_of_In, elem_of_lookup_imap. eauto.
    + apply has_content_iff. exists k, (or_empty (cell_at row 1)).
      split; [exact Hval|].
      destruct (cell_at row 1) as [| | | |]; try discriminate; exact Hnon.
  - intros Hnone. apply block_object_missing; assumption.
Qed.

Definition cards_sheet : Sheet :=
  [ [PStr "name"; PStr "Al"]; [PStr "city"; PStr "Rome"];
    [PStr "zip"; PNum 185]; [PStr "tel"; PStr "06"];
    [PStr ""; PStr ""];
    [PStr "name"; PStr "Bo"]; [PStr "tel"; PStr "07"] ].

Lemma import_vertical_spec_witness :
  isVertical cards_sheet = true
  /\ split_blocks cards_sheet
     = [ [ [PStr "name"; PStr "Al"]; [PStr "city"; PStr "Rome"];
           [PStr "zip"; PNum 185]; [PStr "tel"; PStr "06"] ];
         [ [PStr "name"; PStr "Bo"]; [PStr "tel"; PStr "07"] ] ]
  /\ parse_sheet cards_sheet
     = Ok (Some {| importedColumns := map imported_column ["name"; "city"; "zip"; "tel"];
                   formattedRows :=
                     [ <["_rowIndex" := PNum 0]>
                         (<["tel" := PStr "06"]> (<["zip" := PNum 185]>
                            (<["city" := PStr "Rome"]> {["name" := PStr "Al"]})));
                       <["_rowIndex" := PNum 1]>
                         (<["zip" := PStr ""]> (<["city" := PStr ""]>
                            (<["tel" := PStr "07"]> {["name" := PStr "Bo"]}))) ] |}).
Proof.
  destruct (import_vertical_spec cards_sheet)
    as (Hvert & Hblocks & _ & _ & _ & Himport).
  split; [reflexivity|]. split; [rewrite Hblocks; reflexivity|].
  destruct Himport as (names & Hkeys & Himport);
    [discriminate | reflexivity | |].
  - intros k Hk. vm_compute in Hk.
    repeat (apply elem_of_cons in Hk as [->|Hk]; [eauto|]). inversion Hk.
  - vm_compute in Hkeys.
    destruct names as [|n1 [|n2 [|n3 [|n4 [|n5 names]]]]]; try discriminate.
    injection Hkeys as <- <- <- <-.
    destruct Himport as [Hparse _]. rewrite Hparse. vm_compute. reflexivity.
Defined.

(** C3 as stated fails: this sheet is vertical and has two blocks, and
    the import returns one row only, the first block having no value; the
    row that is returned has the key ['_rowIndex'] besides the four field
    names. *)
Definition empty_card_sheet : Sheet :=
  [ [PStr "name"; PStr ""]; [PStr "city"; PStr ""];
    [PStr "zip"; PStr ""]; [PStr "tel"; PStr ""];
    [PStr ""; PStr ""];
    [PStr "name"; PStr "Al"]; [PStr "city"; PStr "Rome"];
    [PStr "zip"; PNum 185]; [PStr "tel"; PStr "06"] ].

Lemma import_vertical_counterexample :
  isVertical empty_card_sheet = true
  /\ length (split_blocks empty_card_sheet) = 2%nat
  /\ allKeys (split_blocks empty_card_sheet)
     = [PStr "name"; PStr "city"; PStr "zip"; PStr "tel"]
  /\ parse_sheet empty_card_sheet
     = Ok (Some {| importedColumns := map imported_column ["name"; "city"; "zip"; "tel"];
                   formattedRows :=
                     [ <["_rowIndex" := PNum 1]>
                         (<["tel" := PStr "06"]> (<["zip" := PNum 185]>
                            (<["city" := PStr "Rome"]> {["name" := PStr "Al"]}))) ] |}).
Proof. repeat split; vm_compute; reflexivity. Qed.

(** ** Persistence of the ScoreCards *)

Section ValueInduction.
Variable P : value -> Prop.
Hypothesis Hprim : forall p, P (VPrim p).
Hypothesis Hdate : forall iso, P (VDate iso).
Hypothesis Hnative : forall tag, P (VNative tag).
Hypothesis Harr : forall l, Forall P l -> P (VArr l).
Hypothesis Hobj : forall l, Forall (fun kv => P (snd kv)) l -> P (VObj l).

Fixpoint value_nested_ind (v : value) : P v :=
  match v with
  | VPrim p => Hprim p
  | VDate iso => Hdate iso
  | VNative tag => Hnative tag
  | VArr l =>
      Harr l ((fix go (l : list value) : Forall P l :=
                 match l with
                 | [] => List.Forall_nil P
                 | x :: l' => @List.Forall_cons _ P x l' (value_nested_ind x) (go l')
                 end) l)
  | VObj l =>
      Hobj l ((fix go (l : list (string * value)) : Forall (fun kv => P (snd kv)) l :=
                 match l with
                 | [] => List.Forall_nil _
                 | kv :: l' =>
                     @List.Forall_cons _ (fun kv => P (snd kv)) kv l'
                                       (value_nested_ind (snd kv)) (go l')
                 end) l)
  end.
End ValueInduction.

(** What is left of a value after [JSON.stringify] and [JSON.parse]. *)
Definition json_image (v : value) : value := of_json (to_json_or_null v).

(** The values that JSON holds as they are: no [undefined], no function,
    no [Date], at any depth. *)
Fixpoint plain (v : value) : bool :=
  match v with
  | VPrim PUndef => false
  | VPrim _ => true
  | VDate _ => false
  | VNative _ => false
  | VArr l => forallb plain l
  | VObj l => forallb (fun kv => plain (snd kv)) l
  end.

Definition items_json : list value -> list json :=
  fix go (l : list value) : list json :=
    match l with
    | [] => []
    | x :: l' => match to_json x with Some j => j | None => JNull end :: go l'
    end.

Definition fields_json : list (string * value) -> list (string * json) :=
  fix go (l : list (string * value)) : list (string * json) :=
    match l with
    | [] => []
    | (k, x) :: l' =>
        match to_json x with
        | Some j => (k, j) :: go l'
        | None => go l'
        end
    end.

Definition fields_of_json : list (string * json) -> list (string * value) :=
  fix go (l : list (string * json)) : list (string * value) :=
    match l with
    | [] => []
    | (k, x) :: l' => (k, of_json x) :: go l'
    end.

Lemma to_json_arr l : to_json (VArr l) = Some (JArr (items_json l)).
Proof. reflexivity. Qed.

Lemma to_json_obj l : to_json (VObj l) = Some (JObj (fields_json l)).
Proof. reflexivity. Qed.

Lemma of_json_obj l : of_json (JObj l) = VObj (fields_of_json l).
Proof. reflexivity. Qed.

Lemma items_json_map l : items_json l = map to_json_or_null l.
Proof. induction l as [|x l IH]; simpl; [reflexivity|]. rewrite IH. reflexivity. Qed.

Lemma to_json_plain v :
  plain v = true -> exists j, to_json v = Some j /\ of_json j = v.
Proof.
  induction v as [p | iso | tag | l IH | l IH] using value_nested_ind; intros Hp.
  - destruct p; try discriminate; eexists; split; reflexivity.
  - discriminate.
  - discriminate.
  - rewrite to_json_arr. eexists. split; [reflexivity|]. simpl. f_equal.
    simpl in Hp. induction IH as [|x l Hx _ IHl]; [reflexivity|].
    simpl in Hp. apply andb_prop in Hp as [Hpx Hpl].
    destruct (Hx Hpx) as (j & Hj & Hback). simpl. rewrite Hj, Hback.
    f_equal. apply IHl, Hpl.
  - rewrite to_json_obj. eexists. split; [reflexivity|]. rewrite of_json_obj. f_equal.
    simpl in Hp. induction IH as [|[k x] l Hx _ IHl]; [reflexivity|].
    simpl in Hp, Hx. apply andb_prop in Hp as [Hpx Hpl].
    destruct (Hx Hpx) as (j & Hj & Hback). simpl. rewrite Hj. simpl. rewrite Hback.
    f_equal. apply IHl, Hpl.
Qed.

Lemma json_image_plain v : plain v = true -> json_image v = v.
Proof.
  intros Hp. destruct (to_json_plain v Hp) as (j & Hj & Hback).
  unfold json_image, to_json_or_null. rewrite Hj. exact Hback.
Qed.

Lemma of_json_plain j : plain (of_json j) = true.
Proof.
  induction j as [| b | n | s | l IH | l IH] using json_nested_ind; try reflexivity.
  - simpl. induction IH as [|x l Hx _ IHl]; [reflexivity|].
    simpl. rewrite Hx. exact IHl.
  - rewrite of_json_obj. simpl. induction IH as [|[k x] l Hx _ IHl]; [reflexivity|].
    simpl in *. rewrite Hx. exact IHl.
Qed.

(** Saving and loading once more changes nothing. *)
Lemma json_image_idempotent v : json_image (json_image v) = json_image v.
Proof. apply json_image_plain, of_json_plain. Qed.

Definition without_renderers (c : MyColumn) : MyColumn :=
  {| col_key := col_key c; col_name := col_name c;
     col_editable := col_editable c; col_sortable := col_sortable c;
     col_isDefault := col_isDefault c; col_renderCell := None;
     col_renderEditCell := None; col_renderHeaderCell := None |}.

Definition created_text (c : Created) : string :=
  match c with
  | CreatedDate iso => iso
  | CreatedText s => s
  end.

(** A ScoreCard as it comes back from the storage. *)
Definition persisted_value (sc : ScoreCard) : value :=
  VObj [("id", VStr (sc_id sc));
        ("name", VStr (sc_name sc));
        ("columns", VArr (map (fun c => column_value (without_renderers c))
                              (sc_columns sc)));
        ("rows", VArr (map (fun r => json_image (row_value r)) (sc_rows sc)));
        ("createdAt", VStr (created_text (sc_createdAt sc)))].

Lemma json_image_arr l : json_image (VArr l) = VArr (map json_image l).
Proof.
  unfold json_image, to_json_or_null. rewrite to_json_arr, items_json_map.
  simpl. rewrite map_map. reflexivity.
Qed.

Lemma json_image_column c :
  json_image (column_value c) = column_value (without_renderers c).
Proof.
  destruct c as [k n [e|] [s|] [d|] [rc|] [re|] [rh|]]; reflexivity.
Qed.

Lemma json_image_obj fields :
  Forall (fun kv => to_json (snd kv) <> None) fields ->
  json_image (VObj fields)
  = VObj (map (fun kv => (fst kv, json_image (snd kv))) fields).
Proof.
  intros Hall. unfold json_image at 1, to_json_or_null.
  rewrite to_json_obj, of_json_obj. f_equal.
  induction Hall as [|[k v] fields Hv _ IH]; [reflexivity|].
  simpl in Hv |- *. unfold json_image at 1, to_json_or_null.
  destruct (to_json v) as [j|]; [|congruence].
  simpl. f_equal. exact IH.
Qed.

Lemma json_image_scorecard sc : json_image (scorecard_value sc) = persisted_value sc.
Proof.
  unfold scorecard_value, persisted_value.
  rewrite json_image_obj.
  - cbn [map fst snd]. rewrite !json_image_arr, !map_map.
    f_equal. f_equal. f_equal. f_equal; [f_equal; f_equal|].
    + apply map_ext, json_image_column.
    + f_equal. f_equal. destruct (sc_createdAt sc); reflexivity.
  - repeat constructor; try discriminate.
    simpl. destruct (sc_createdAt sc); discriminate.
Qed.

Lemma json_image_scorecards scs :
  json_image (scorecards_value scs) = VArr (map persisted_value scs).
Proof.
  unfold scorecards_value. rewrite json_image_arr, map_map.
  f_equal. apply map_ext, json_image_scorecard.
Qed.

Section RoundTrip.
Context `{Codec}.

Lemma load_saved_scorecards scs m :
  loadScoreCardsFromStorage (localStorage (saveScoreCardsToStorage scs m))
  = to_json_or_null (scorecards_value scs).
Proof.
  unfold loadScoreCardsFromStorage, saveScoreCardsToStorage. simpl.
  rewrite lookup_insert_eq, Json.parse_stringify.
  rewrite (proj2 (is_empty_false _) (Json.stringify_nonempty _)). reflexivity.
Qed.

(** C5, as amended.  Loading what [saveScoreCardsToStorage] saved returns
    the image of the list in JSON: for every ScoreCard the same id and name,
    the columns without their renderer functions, the rows with the fields
    that JSON can hold, and for [createdAt] the ISO text of the date.  A
    list that holds only such data comes back as it was saved, and saving
    and loading the loaded list again returns it.  When nothing is stored,
    or the stored text does not parse, loading returns the empty list. *)
Theorem scorecards_round_trip (scs : list ScoreCard) (m : Model) :
  loadScoreCardsFromStorage (localStorage (saveScoreCardsToStorage scs m))
  = to_json_or_null (scorecards_value scs)
  /\ of_json (loadScoreCardsFromStorage
                (localStorage (saveScoreCardsToStorage scs m)))
     = VArr (map persisted_value scs)
  /\ (plain (scorecards_value scs) = true ->
      of_json (loadScoreCardsFromStorage
                 (localStorage (saveScoreCardsToStorage scs m)))
      = scorecards_value scs)
  /\ json_image (VArr (map persisted_value scs)) = VArr (map persisted_value scs)
  /\ (forall storage : gmap string string,
        storage !! "scorecards" = None ->
        loadScoreCardsFromStorage storage = JArr [])
  /\ (forall (storage : gmap string string) s,
        storage !! "scorecards" = Some s -> parse s = None ->
        loadScoreCardsFromStorage storage = JArr []).
Proof.
  rewrite load_saved_scorecards.
  split; [reflexivity|].
  split; [apply json_image_scorecards|].
  split; [intros Hplain; apply (json_image_plain _ Hplain)|].
  split; [rewrite <- json_image_scorecards; apply json_image_idempotent|].
  split.
  - intros storage Hnone. unfold loadScoreCardsFromStorage. rewrite Hnone. reflexivity.
  - intros storage s Hs Hbad. unfold loadScoreCardsFromStorage. rewrite Hs, Hbad.
    destruct (is_empty s); reflexivity.
Qed.

End RoundTrip.

(** C5 as stated fails: the ScoreCard that [createScoreCard] makes holds a
    [Date] and renderer functions, and the list that is loaded after
    saving it is not the list that was saved: [createdAt] comes back as a
    string. *)
Lemma scorecards_round_trip_counterexample :
  of_json (loadScoreCardsFromStorage (H := text_codec)
             (localStorage (saveScoreCardsToStorage (H := text_codec)
                              [sample_card] (fresh "ADMIN"))))
  <> scorecards_value [sample_card]
  /\ sc_createdAt sample_card = CreatedDate "2023-11-14T22:13:20.000Z"
  /\ exists fields rest,
       of_json (loadScoreCardsFromStorage (H := text_codec)
                  (localStorage (saveScoreCardsToStorage (H := text_codec)
                                   [sample_card] (fresh "ADMIN"))))
       = VArr (VObj fields :: rest)
       /\ last fields = Some ("createdAt", VStr "2023-11-14T22:13:20.000Z").
Proof.
  assert (Hload :
            of_json (loadScoreCardsFromStorage (H := text_codec)
                       (localStorage (saveScoreCardsToStorage (H := text_codec)
                                        [sample_card] (fresh "ADMIN"))))
            = VArr (map persisted_value [sample_card])).
  { rewrite load_saved_scorecards. apply json_image_scorecards. }
  rewrite Hload. clear Hload.
  split; [|split; [reflexivity|]].
  - intros Heq. vm_compute in Heq. discriminate.
  - eexists _, _. split; reflexivity.
Qed.

(** ** What an operation does to the ScoreCards *)

Section Moves.
Context `{Codec}.
Variable strict_eq : value -> value -> bool.
Variable greater : value -> value -> bool.

(** The update that [updateCurrentData] writes. *)
Definition normalized (u : Updates) : Updates :=
  {| u_columns := map blank_comments <$> u_columns u; u_rows := u_rows u |}.

(** The columns that [createScoreCard] gives a new ScoreCard. *)
Definition new_columns (m : Model) : list MyColumn :=
  match categoryData m !! "Retailers" ≫= u_columns with
  | Some c => c
  | None => retailersColumns
  end.

(** What a handler that edits the grid does to the ScoreCards, the
    categories and the selection: nothing to the first two, or a write to
    the selected ScoreCard or to the selected category, through
    [updateCurrentData]. *)
Inductive edits (m m1 : Model) : Prop :=
| edits_none :
    scorecards m1 = scorecards m -> categoryData m1 = categoryData m -> edits m m1
| edits_grid sel u :
    selectedCategory m = Some sel -> selectedCategory m1 = Some sel ->
    startsWith "scorecard_" sel = true ->
    categoryData m1 = categoryData m ->
    scorecards m1 = updateScoreCard sel (normalized u) (scorecards m) ->
    edits m m1
| edits_category sel u :
    selectedCategory m = Some sel -> selectedCategory m1 = Some sel ->
    startsWith "scorecard_" sel = false ->
    scorecards m1 = scorecards m ->
    categoryData m1
    = <[sel := merge_updates (categoryData m !! sel) (normalized u)]> (categoryData m) ->
    edits m m1.

(** What any handler does to them: an edit, a new ScoreCard at the end, the
    deletion of the ScoreCards of an id, or a new name for the ScoreCards
    of an id. *)
Inductive moves (m m1 : Model) : Prop :=
| moves_edit : edits m m1 -> moves m m1
| moves_create sc :
    selectedCategory m1 = selectedCategory m -> categoryData m1 = categoryData m ->
    sc_columns sc = new_columns m ->
    scorecards m1 = scorecards m ++ [sc] ->
    moves m m1
| moves_delete id :
    categoryData m1 = categoryData m ->
    scorecards m1
    = List.filter (fun sc => negb (bool_decide (sc_id sc = id))) (scorecards m) ->
    selectedCategory m1
    = (if bool_decide (selectedCategory m = Some id) then None else selectedCategory m) ->
    moves m m1
| moves_rename id name :
    selectedCategory m1 = selectedCategory m -> categoryData m1 = categoryData m ->
    scorecards m1 = updateScoreCardName id name (scorecards m) ->
    moves m m1.

Definition same_cards (m1 m2 : Model) : Prop :=
  scorecards m2 = scorecards m1 /\ categoryData m2 = categoryData m1
  /\ selectedCategory m2 = selectedCategory m1.

Lemma edits_then m m1 m2 : edits m m1 -> same_cards m1 m2 -> edits m m2.
Proof.
  intros Hm (Hs & Hc & Hsel).
  destruct Hm as [? ? | sel u ? ? ? ? ? | sel u ? ? ? ? ?];
    [ apply edits_none | apply (edits_grid _ _ sel u) | apply (edits_category _ _ sel u) ];
    try assumption; congruence.
Qed.

Lemma updateCurrentData_edits u m : edits m (settle (updateCurrentData u m) m).
Proof.
  unfold updateCurrentData.
  destruct (selectedCategory m) as [sel|] eqn:Hsel; cbn [settle];
    [|apply edits_none; reflexivity].
  destruct (startsWith "scorecard_" sel) eqn:Hpre; cbn [settle].
  - apply (edits_grid _ _ sel u); try assumption; reflexivity.
  - apply (edits_category _ _ sel u); try assumption; reflexivity.
Qed.

Ltac edits_tac :=
  cbn [settle bind fst];
  first
    [ apply edits_none; reflexivity
    | match goal with
      | |- context [updateCurrentData ?u ?m] =>
          let Hm := fresh "Hm" in
          pose proof (updateCurrentData_edits u m) as Hm;
          destruct (updateCurrentData u m); cbn [settle bind fst] in *;
          [ eapply edits_then;
            [ exact Hm
            | unfold same_cards, when_retailers, saveRetailersToStorage;
              repeat case_match; cbn; auto ]
          | exact Hm ]
      end ].

Lemma handler_edits e m :
  (forall now iso, e <> CreateScoreCard now iso) ->
  (forall i, e <> DeleteScoreCard i) ->
  edits m (settle (handler e m) m).
Proof.
  intros Hcreate Hdelete.
  destruct e; try (exfalso; eapply Hcreate; reflexivity);
    try (exfalso; eapply Hdelete; reflexivity); cbn [handler].
  all: try (unfold onRowsChange, handleAddRow, handleDeleteRow, handleAddColumnConfirm,
              handleDeleteColumn, handleColumnNameChange, handleAddComment,
              saveEditedComment, deleteComment, handleCategoryChange, openAddColModal,
              handleSortClick, ensureSubGrid, handleToggleSubGrid, handleDeleteSubGrid,
              handleAddSubGrid, handleSubGridAddColumn, handleSubGridAddRow,
              handleSubGridRowsChange, handleSubGridColumnNameChange,
              handleSubGridDeleteRow, handleSubGridDeleteColumn, columns_of, rows_of;
            repeat case_match; solve [edits_tac]).
  (* handleImportExcel *)
  unfold Excel.handleImportExcel.
  destruct (Excel.parse_sheet rows2D) as [[i|]|]; edits_tac.
Qed.

(** The operations other than the creation, the deletion and the renaming
    of a ScoreCard edit the grid. *)
Definition editing (op : Operation) : bool :=
  match op with
  | Named (CreateScoreCard _ _) | Named (DeleteScoreCard _) | RenameScoreCard _ => false
  | _ => true
  end.

Lemma perform_edits op m :
  editing op = true -> edits m (settle (perform strict_eq greater op m) m).
Proof.
  destruct op; try discriminate; cbn [perform]; intros He.
  - apply handler_edits; intros; intros ->; discriminate.
  - edits_tac.
  - edits_tac.
  - edits_tac.
  - edits_tac.
  - unfold saveContact. repeat case_match; edits_tac.
  - unfold StatusPicker_onSelect, onRowsChange. repeat case_match; edits_tac.
  - unfold drawerAddress. repeat case_match; edits_tac.
  - unfold drawerAddComment. repeat case_match; edits_tac.
Qed.

Lemma perform_moves op m : moves m (settle (perform strict_eq greater op m) m).
Proof.
  destruct (editing op) eqn:He; [apply moves_edit, perform_edits, He|].
  destruct op as [[]| | | | |e| | | |]; try discriminate; cbn [perform handler settle].
  - (* createScoreCard *)
    unfold createScoreCard.
    destruct (is_empty _); [apply moves_edit, edits_none; reflexivity|].
    eapply moves_create; [reflexivity | reflexivity | | reflexivity]. reflexivity.
  - (* deleteScoreCard *)
    unfold deleteScoreCard. apply (moves_delete _ _ scorecardId);
      destruct (bool_decide _); reflexivity.
  - (* the rename dialog *)
    unfold saveEditedScoreCard.
    destruct e as [e|]; cbn [fst]; [|apply moves_edit, edits_none; reflexivity].
    apply (moves_rename _ _ (sc_id e) (sc_name e)); reflexivity.
Qed.

(** After the handler, the effects: the selection stays, and the ScoreCards
    stay or get an update of the selected one. *)
Lemma react_scorecards (h : Model -> result Model) m :
  let m1 := settle (h m) m in
  selectedCategory (react h m) = selectedCategory m1
  /\ categoryData (react h m) = categoryData m1
  /\ (scorecards (react h m) = scorecards m1
      \/ exists u sel, selectedCategory m1 = Some sel
                       /\ scorecards (react h m) = updateScoreCard sel u (scorecards m1)).
Proof.
  intros m1. unfold react. fold m1.
  set (m2 := if bool_decide (selectedCategory m1 = selectedCategory m) then m1
             else settle (effect_editable m1) m1).
  assert (H2 : selectedCategory m2 = selectedCategory m1
               /\ categoryData m2 = categoryData m1
               /\ (scorecards m2 = scorecards m1
                   \/ exists u sel, selectedCategory m1 = Some sel
                        /\ scorecards m2 = updateScoreCard sel u (scorecards m1))).
  { unfold m2. destruct (bool_decide _); [auto|].
    unfold effect_editable.
    destruct (getCurrentData m1) as [cd|] eqn:Hcd; cbn [settle]; [|auto].
    destruct (updateCurrentData_current
                (only_columns (map (make_editable (userRole m1)) (columns cd))) m1 cd Hcd)
      as (sel & Hsel & _ & -> & _).
    cbn [settle selectedCategory categoryData scorecards setScorecards].
    split; [reflexivity|]. split; [reflexivity|]. right. eauto. }
  destruct (bool_decide (scorecards_ref m2 = _)); exact H2.
Qed.

End Moves.

(** ** What the storage holds of the state *)

Section Persistence.
Context `{Codec}.
Variable strict_eq : value -> value -> bool.
Variable greater : value -> value -> bool.

























(** *** The comments can be read back *)






(** The events of the sub-grids. *)
Definition subgrid_event (e : Event) : bool :=
  match e with
  | EnsureSubGrid _ | ToggleSubGrid _ | DeleteSubGrid _ | AddSubGrid _
  | SubGridAddColumn _ _ | SubGridAddRow _ | SubGridRowsChange _ _
  | SubGridColumnNameChange _ _ _ | SubGridDeleteRow _ _
  | SubGridDeleteColumn _ _ => true
  | _ => false
  end.

Lemma subgrid_handler_frame e m :
  subgrid_event e = true ->
  localStorage (settle (handler e m) m) = localStorage m
  /\ scorecards_ref (settle (handler e m) m) = scorecards_ref m
  /\ selectedCategory (settle (handler e m) m) = selectedCategory m.
Proof.
  destruct e; try discriminate; intros _; cbn [handler settle];
    unfold ensureSubGrid, handleToggleSubGrid, handleDeleteSubGrid, handleAddSubGrid,
      handleSubGridAddColumn, handleSubGridAddRow, handleSubGridRowsChange,
      handleSubGridColumnNameChange, handleSubGridDeleteRow,
      handleSubGridDeleteColumn, columns_of, rows_of, bind, with_grid;
    repeat case_match; subst; cbn; auto.
Qed.



End Persistence.



Definition stored_card : ScoreCard :=
  {| sc_id := "scorecard_1700000000000"; sc_name := "Spring";
     sc_columns := map without_renderers retailersColumns;
     sc_rows := [ <["name" := VStr "Item 1"]> {["id" := VNum 1]};
                  <["name" := VStr "Item 2"]> {["id" := VNum 2]} ];
     sc_createdAt := CreatedText "2023-11-14T22:13:20.000Z" |}.

(** A first visit, on an empty storage, in which a ScoreCard is created. *)
Definition first_visit : Model :=
  visit (H := text_codec) (fun _ _ => false) (fun _ _ => false) "ADMIN" ∅ [] ∅
    [ Named (TypeScoreCardName "Spring");
      Named (CreateScoreCard 1700000000000 "2023-11-14T22:13:20.000Z") ].


(** ** The columns of the current grid *)

Section Normal.
Context `{Codec}.
Variable strict_eq : value -> value -> bool.
Variable greater : value -> value -> bool.

(** Columns as [updateCurrentData] leaves them: a column with the key
    ['comments'] has the empty name and the blank header. *)
Definition normal (cols : list MyColumn) : Prop :=
  Forall (fun c => blank_comments c = c) cols.

Lemma blank_comments_twice c : blank_comments (blank_comments c) = blank_comments c.
Proof.
  unfold blank_comments at 2 3. destruct (has_key "comments" c) eqn:Hk; [|
    unfold blank_comments; rewrite Hk; reflexivity].
  unfold blank_comments, has_key in *. cbn. rewrite Hk. reflexivity.
Qed.

Lemma normal_map cols : normal cols -> map blank_comments cols = cols.
Proof.
  intros Hn. induction Hn as [|c cols Hc _ IH]; [reflexivity|].
  cbn. rewrite Hc, IH. reflexivity.
Qed.

Lemma normal_blank cols : normal (map blank_comments cols).
Proof.
  unfold normal. rewrite Forall_forall. intros c Hc.
  apply list_elem_of_fmap in Hc as (c0 & -> & _). apply blank_comments_twice.
Qed.

Lemma normal_filter (p : MyColumn -> bool) cols : normal cols -> normal (List.filter p cols).
Proof.
  unfold normal. rewrite !Forall_forall. intros Hn c Hc.
  apply Hn. apply list_elem_of_In in Hc. apply filter_In in Hc as [Hc _].
  apply list_elem_of_In, Hc.
Qed.

Lemma normal_retailersColumns : normal retailersColumns.
Proof. unfold normal, retailersColumns. repeat constructor. Qed.

(** The columns of the current grid, and those that a new ScoreCard would
    get, are normal. *)
Definition grid_normal (m : Model) : Prop :=
  forall cd, getCurrentData m = Some cd -> normal (columns cd).

Definition template_normal (m : Model) : Prop := normal (new_columns m).

Lemma getCurrentData_same m m1 :
  selectedCategory m1 = selectedCategory m -> scorecards m1 = scorecards m ->
  getCurrentData m1 = getCurrentData m.
Proof. unfold getCurrentData. intros -> ->. reflexivity. Qed.

Lemma find_updateScoreCard_none sel u scs :
  List.find (selects sel) scs = None ->
  List.find (selects sel) (updateScoreCard sel u scs) = None.
Proof.
  induction scs as [|x scs IH]; cbn; [reflexivity|].
  unfold selects at 1 3.
  destruct (bool_decide (sc_id x = sel)) eqn:Hx; [discriminate|].
  cbn. rewrite Hx. exact IH.
Qed.

Lemma find_updateScoreCardName sel id name scs :
  sc_columns <$> List.find (selects sel) (updateScoreCardName id name scs)
  = sc_columns <$> List.find (selects sel) scs.
Proof.
  induction scs as [|x scs IH]; cbn; [reflexivity|].
  unfold selects at 1 3.
  destruct (bool_decide (sc_id x = id)); cbn;
    (destruct (bool_decide (sc_id x = sel)); [reflexivity | exact IH]).
Qed.

Lemma find_selects_app sel scs sc :
  List.find (selects sel) (scs ++ [sc])
  = match List.find (selects sel) scs with
    | Some x => Some x
    | None => if selects sel sc then Some sc else None
    end.
Proof.
  induction scs as [|x scs IH]; cbn; [reflexivity|].
  destruct (selects sel x); [reflexivity | exact IH].
Qed.

Lemma find_filter_other sel id scs :
  sel <> id ->
  List.find (selects sel)
            (List.filter (fun sc => negb (bool_decide (sc_id sc = id))) scs)
  = List.find (selects sel) scs.
Proof.
  intros Hne. induction scs as [|x scs IH]; [reflexivity|]. cbn.
  destruct (bool_decide (sc_id x = id)) eqn:Hx; cbn.
  - apply bool_decide_eq_true_1 in Hx. unfold selects at 2.
    rewrite bool_decide_eq_false_2 by congruence. exact IH.
  - destruct (selects sel x); [reflexivity | exact IH].
Qed.

Lemma moves_template m m1 : moves m m1 -> template_normal m -> template_normal m1.
Proof.
  unfold template_normal, new_columns.
  intros [[Hs Hc | sel u _ _ _ Hc _ | sel u _ _ _ _ Hc] | sc _ Hc _ _ | id Hc _ _
          | id name _ Hc _] Hn;
    try (rewrite Hc; exact Hn).
  rewrite Hc. destruct (decide (sel = "Retailers")) as [->|Hne].
  - rewrite lookup_insert_eq. cbn.
    destruct (u_columns u) as [cols|]; cbn; [apply normal_blank | exact Hn].
  - rewrite lookup_insert_ne by exact Hne. exact Hn.
Qed.

Lemma moves_grid_normal m m1 :
  moves m m1 -> selectedCategory m1 = selectedCategory m ->
  grid_normal m -> template_normal m -> grid_normal m1.
Proof.
  intros Hm Hsame Hg Ht.
  destruct Hm as [[Hs Hc | sel u Hsel Hsel1 Hpre Hc Hs | sel u Hsel Hsel1 Hpre Hs Hc]
                  | sc Hsel1 Hc Hcols Hs | id Hc Hs Hsel1 | id name Hsel1 Hc Hs].
  - intros cd. rewrite (getCurrentData_same _ _ Hsame Hs). apply Hg.
  - intros cd1 Hcd1. unfold getCurrentData in Hcd1.
    rewrite Hsel1, (startsWith_not_empty _ Hpre), Hpre, Hs in Hcd1.
    destruct (List.find (selects sel) (scorecards m)) as [sc|] eqn:Hfind.
    + destruct (find_updateScoreCard sel (normalized u) _ _ Hfind)
        as (sc' & Hfind' & Hcols & _).
      rewrite Hfind' in Hcd1. injection Hcd1 as <-. cbn [columns]. rewrite Hcols.
      cbn. destruct (u_columns u) as [cols|]; cbn; [apply normal_blank|].
      apply (Hg {| columns := sc_columns sc; rows := sc_rows sc |}).
      unfold getCurrentData.
      rewrite Hsel, (startsWith_not_empty _ Hpre), Hpre, Hfind. reflexivity.
    + rewrite (find_updateScoreCard_none _ _ _ Hfind) in Hcd1. discriminate.
  - intros cd. rewrite (getCurrentData_same _ _ Hsame Hs). apply Hg.
  - intros cd1 Hcd1. unfold getCurrentData in Hcd1.
    rewrite Hsel1, Hs in Hcd1.
    destruct (selectedCategory m) as [sel|] eqn:Hsel; [|discriminate].
    destruct (is_empty sel) eqn:Hemp; [discriminate|].
    destruct (startsWith "scorecard_" sel) eqn:Hpre; [|discriminate].
    rewrite find_selects_app in Hcd1.
    destruct (List.find (selects sel) (scorecards m)) as [x|] eqn:Hfind.
    + injection Hcd1 as <-.
      apply (Hg {| columns := sc_columns x; rows := sc_rows x |}).
      unfold getCurrentData. rewrite Hsel, Hemp, Hpre, Hfind. reflexivity.
    + destruct (selects sel sc); [|discriminate].
      injection Hcd1 as <-. cbn [columns]. rewrite Hcols. exact Ht.
  - rewrite Hsame in Hsel1.
    destruct (bool_decide (selectedCategory m = Some id)) eqn:Hid.
    + apply bool_decide_eq_true_1 in Hid. congruence.
    + apply bool_decide_eq_false_1 in Hid.
      intros cd1 Hcd1. apply Hg. rewrite <- Hcd1. unfold getCurrentData.
      rewrite Hsame, Hs.
      destruct (selectedCategory m) as [sel|]; [|reflexivity].
      rewrite find_filter_other by congruence. reflexivity.
  - intros cd1 Hcd1. unfold getCurrentData in Hcd1.
    rewrite Hsel1, Hs in Hcd1.
    destruct (selectedCategory m) as [sel|] eqn:Hsel; [|discriminate].
    destruct (is_empty sel) eqn:Hemp; [discriminate|].
    destruct (startsWith "scorecard_" sel) eqn:Hpre; [|discriminate].
    pose proof (find_updateScoreCardName sel id name (scorecards m)) as Hfind.
    destruct (List.find (selects sel) (updateScoreCardName id name (scorecards m)))
      as [x'|]; [|discriminate].
    destruct (List.find (selects sel) (scorecards m)) as [x|] eqn:Hx; [|discriminate].
    cbn in Hfind. injection Hfind as Hfind. injection Hcd1 as <-. cbn [columns].
    rewrite Hfind.
    apply (Hg {| columns := sc_columns x; rows := sc_rows x |}).
    unfold getCurrentData. rewrite Hsel, Hemp, Hpre, Hx. reflexivity.
Qed.

(** The effect on the columns leaves a normal grid, whatever it finds. *)
Lemma effect_editable_normal m :
  grid_normal (settle (effect_editable m) m)
  /\ new_columns (settle (effect_editable m) m) = new_columns m.
Proof.
  unfold effect_editable.
  destruct (getCurrentData m) as [cd|] eqn:Hcd; cbn [settle].
  - destruct (updateCurrentData_current
                (only_columns (map (make_editable (userRole m)) (columns cd))) m cd Hcd)
      as (sel & _ & _ & -> & Hget).
    cbn [settle]. split; [|reflexivity].
    intros cd1 Hcd1. rewrite Hget in Hcd1. injection Hcd1 as <-.
    cbn. apply normal_blank.
  - split; [|reflexivity]. intros cd1 Hcd1. congruence.
Qed.

Lemma react_normal (h : Model -> result Model) m :
  moves m (settle (h m) m) ->
  grid_normal m -> template_normal m ->
  grid_normal (react h m) /\ template_normal (react h m).
Proof.
  intros Hm Hg Ht. unfold react.
  set (m1 := settle (h m) m) in *.
  pose proof (moves_template _ _ Hm Ht) as Ht1.
  set (m2 := if bool_decide (selectedCategory m1 = selectedCategory m) then m1
             else settle (effect_editable m1) m1).
  assert (H2 : grid_normal m2 /\ template_normal m2).
  { unfold m2. destruct (bool_decide (selectedCategory m1 = selectedCategory m)) eqn:Hsel.
    - apply bool_decide_eq_true_1 in Hsel. split; [|exact Ht1].
      apply (moves_grid_normal m m1); assumption.
    - destruct (effect_editable_normal m1) as [Hg2 Hnew]. split; [exact Hg2|].
      unfold template_normal. rewrite Hnew. exact Ht1. }
  destruct (bool_decide (scorecards_ref m2 = scorecards_ref m)); [exact H2|].
  exact H2.
Qed.

Lemma visit_normal role storage scs cs ops :
  grid_normal (visit strict_eq greater role storage scs cs ops)
  /\ template_normal (visit strict_eq greater role storage scs cs ops).
Proof.
  unfold visit. induction ops as [|op ops IH] using rev_ind.
  - split; [intros cd Hcd; discriminate | apply normal_retailersColumns].
  - rewrite fold_left_app. cbn [fold_left]. destruct IH as [Hg Ht].
    apply react_normal; [apply perform_moves | assumption..].
Qed.

(** C10.  In every state that the component reaches (mounted on any
    storage, after any operations), [handleDeleteColumn] on the current grid
    keeps, in their order, exactly the columns whose key is not the given
    one, as they are, and deletes the key from every row; without a current
    grid it does nothing.  [handleSubGridDeleteColumn] does the same on the
    sub-grid of a parent, in every state in which that sub-grid has columns
    and rows, and leaves the other sub-grids and the ScoreCards alone.  The
    rows stay as many, lose the key and keep every other field. *)
Theorem deleteColumn_frame
    (role : string) (storage : gmap string string)
    (scs : list ScoreCard) (cs : gmap string (gmap Z (list Comment)))
    (ops : list Operation) (colKey : string) :
  let m := visit strict_eq greater role storage scs cs ops in
  (forall cd, getCurrentData m = Some cd ->
     exists m',
       handleDeleteColumn colKey m = Ok m'
       /\ getCurrentData m'
          = Some {| columns := List.filter (fun col => negb (has_key colKey col))
                                           (columns cd);
                    rows := map (fun row : Row => delete colKey row) (rows cd) |}
       /\ subGrids m' = subGrids m)
  /\ (getCurrentData m = None -> handleDeleteColumn colKey m = Ok m)
  /\ (forall (m0 : Model) p g cols rws,
        subGrids m0 !! prop_key p = Some g ->
        sg_columns g = Some cols -> sg_rows g = Some rws ->
        exists m',
          handleSubGridDeleteColumn (Some p) colKey m0 = Ok m'
          /\ subGrids m' !! prop_key p
             = Some {| sg_columns := Some (List.filter
                                             (fun col => negb (has_key colKey col)) cols);
                       sg_rows := Some (map (fun row : Row => delete colKey row) rws);
                       sg_expanded := sg_expanded g |}
          /\ (forall q, q <> prop_key p -> subGrids m' !! q = subGrids m0 !! q)
          /\ scorecards m' = scorecards m0)
  /\ (forall cols c,
        c ∈ List.filter (fun col => negb (has_key colKey col)) cols
        <-> c ∈ cols /\ col_key c <> colKey)
  /\ (forall rs : list Row,
        length (map (fun row : Row => delete colKey row) rs) = length rs)
  /\ (forall row : Row,
        delete colKey row !! colKey = None
        /\ forall k, k <> colKey -> delete colKey row !! k = row !! k).
Proof.
  intros m.
  refine (conj _ (conj _ (conj _ (conj _ (conj _ _))))).
  - intros cd Hcd. unfold handleDeleteColumn. rewrite Hcd.
    destruct (updateCurrentData_current
                (columns_and_rows
                   (List.filter (fun col => negb (has_key colKey col)) (columns cd))
                   (map (fun row : Row => delete colKey row) (rows cd))) m cd Hcd)
      as (sel & Hsel & Hpre & -> & Hget).
    eexists. split; [reflexivity|]. split; [|reflexivity].
    rewrite Hget. cbn. do 2 f_equal. apply normal_map, normal_filter.
    destruct (visit_normal role storage scs cs ops) as [Hg _]. apply (Hg cd Hcd).
  - intros Hnone. unfold handleDeleteColumn. rewrite Hnone. reflexivity.
  - intros m0 p g cols rws Hg Hcols Hrws. unfold handleSubGridDeleteColumn, grid_at.
    rewrite Hg. unfold columns_of, rows_of. rewrite Hcols, Hrws. cbn [bind].
    eexists. split; [reflexivity|]. repeat split.
    + cbn. apply lookup_insert_eq.
    + intros q Hq. cbn. apply lookup_insert_ne. congruence.
  - apply filter_other_keys.
  - intros rs. apply length_map.
  - intros row. split; [apply lookup_delete_eq|].
    intros k Hk. apply lookup_delete_ne. congruence.
Qed.

End Normal.

Definition sample_subgrid : SubGrid :=
  {| sg_columns := Some [text_column "note" "Note"; text_column "col_17" "New Column"];
     sg_rows := Some [ <["col_17" := VStr "x"]>
                         (<["note" := VStr "call"]> {["id" := VNum 1]}) ];
     sg_expanded := Some true |}.

(** The second visit above, with the ScoreCard selected. *)
Definition second_visit : list Operation :=
  [ Named (CategoryChange "scorecard_1700000000000"); Named AddRow ].

Lemma deleteColumn_frame_witness :
  (exists m',
     handleDeleteColumn "buyer"
       (visit (H := text_codec) (fun _ _ => false) (fun _ _ => false)
              "ADMIN" (localStorage first_visit) [stored_card] ∅ second_visit) = Ok m'
     /\ ((fun cd => map col_key (columns cd)) <$> getCurrentData m')
        = Some ["name"; "retail_price"; "store_count"; "hq_location"; "cmg"; "brand_lead"])
  /\ (exists m',
        handleSubGridDeleteColumn (Some (IdNum 1)) "col_17"
          (with_grid (IdNum 1) sample_subgrid sample_model) = Ok m'
        /\ subGrids m' !! "1"
           = Some {| sg_columns := Some [text_column "note" "Note"];
                     sg_rows := Some [ <["note" := VStr "call"]> {["id" := VNum 1]} ];
                     sg_expanded := Some true |}).
Proof.
  pose proof (deleteColumn_frame (H := text_codec) (fun _ _ => false) (fun _ _ => false)
                "ADMIN" (localStorage first_visit) [stored_card] ∅ second_visit "buyer")
    as Hmain.
  pose proof (deleteColumn_frame (H := text_codec) (fun _ _ => false) (fun _ _ => false)
                "ADMIN" ∅ [] ∅ [] "col_17") as Hsub.
  cbv zeta in Hmain, Hsub.
  destruct Hmain as (Hmain & _). destruct Hsub as (_ & _ & Hsub & _).
  split.
  - destruct (getCurrentData
                (visit (H := text_codec) (fun _ _ => false) (fun _ _ => false)
                       "ADMIN" (localStorage first_visit) [stored_card] ∅ second_visit))
      as [cd|] eqn:Hcd; [|vm_compute in Hcd; discriminate].
    destruct (Hmain cd eq_refl) as (m' & Hrun & Hget & _).
    exists m'. split; [exact Hrun|]. rewrite Hget. cbn [fmap option_fmap option_map columns].
    vm_compute in Hcd. injection Hcd as <-. vm_compute. reflexivity.
  - destruct (Hsub (with_grid (IdNum 1) sample_subgrid sample_model)
                   (IdNum 1) sample_subgrid _ _ eq_refl eq_refl eq_refl)
      as (m' & Hrun & Hget & _).
    exists m'. split; [exact Hrun|]. vm_compute in Hget. vm_compute. exact Hget.
Defined.


(** ** Concrete runs *)

(** [a === b] and [a > b] on numbers, for the run below. *)
Definition number_eq (a b : value) : bool :=
  match a, b with
  | VPrim (PNum x), VPrim (PNum y) => (x =? y)%Z
  | _, _ => false
  end.

Definition number_greater (a b : value) : bool :=
  match a, b with
  | VPrim (PNum x), VPrim (PNum y) => (y <? x)%Z
  | _, _ => false
  end.

Definition priced_card : ScoreCard :=
  {| sc_id := "scorecard_1"; sc_name := "Prices";
     sc_columns := retailersColumns;
     sc_rows := [ <["retail_price" := VPrim PNull]> {["id" := VNum 1]};
                  <["retail_price" := VNum 3]> {["id" := VNum 2]};
                  {["id" := VNum 3]};
                  <["retail_price" := VNum 1]> {["id" := VNum 4]} ];
     sc_createdAt := CreatedText "2024-01-01T00:00:00.000Z" |}.

Definition priced_model : Model :=
  setSortColumns [ {| columnKey := "retail_price"; direction := DESC |} ]
    (setSelectedCategory (Some "scorecard_1")
       (setScorecards [priced_card] (fresh "ADMIN"))).

Lemma getSortedRows_spec_witness :
  map numeric_id (getSortedRows number_eq number_greater priced_model)
  = [2; 4; 1; 3]%Z
  /\ getSortedRows number_eq number_greater priced_model ≡ₚ current_rows priced_model.
Proof.
  split; [vm_compute; reflexivity|].
  apply (getSortedRows_spec number_eq number_greater priced_model).
Defined.

(** The restrictions of the amended claims are needed.  A column named
    "Constructor" gets the key ['constructor'], which every object
    inherits: [handleAddRow] does not give it to the new row. *)
Example new_row_inherited_key :
  new_row {| columns := [text_column "constructor" "Constructor"]; rows := [] |}
  !! "constructor" = None.
Proof. reflexivity. Qed.

(** In the vertical format, a block without the field ['constructor'] does
    not get it either, and a field ['_rowIndex'] is replaced by the
    position of the block. *)
Example block_object_inherited_key :
  block_object [PStr "name"; PStr "constructor"] 1 [ [PStr "name"; PStr "Bo"] ]
  !! "constructor" = None
  /\ block_object [PStr "_rowIndex"] 0 [ [PStr "_rowIndex"; PStr "x"] ]
     !! "_rowIndex" = Some (PNum 0).
Proof. split; reflexivity. Qed.

(** In the horizontal format, a header ['__proto__'] gives no key. *)
Example row_object_proto_key :
  row_object ["__proto__"] 0 [PStr "x"] !! "__proto__" = None.
Proof. reflexivity. Qed.

(** * Further properties of the component

    Properties of the handlers that the claims above leave aside: what an
    event changes and what it leaves alone, how the handlers compose, and
    what they do at the edges. *)

(** ** Events and the fields they change *)

Ltac unfold_handlers :=
  unfold onRowsChange, handleAddRow, handleDeleteRow, handleAddColumnConfirm,
    handleDeleteColumn, handleColumnNameChange, Excel.handleImportExcel,
    handleAddComment, saveEditedComment, deleteComment, createScoreCard,
    deleteScoreCard, handleCategoryChange, openAddColModal, handleSortClick,
    ensureSubGrid, handleToggleSubGrid, handleDeleteSubGrid, handleAddSubGrid,
    handleSubGridAddColumn, handleSubGridAddRow, handleSubGridRowsChange,
    handleSubGridColumnNameChange, handleSubGridDeleteRow,
    handleSubGridDeleteColumn, updateCurrentData, when_retailers,
    saveRetailersToStorage, saveScorecardComments, bind, columns_of, with_grid,
    setUser, settle.

(** A field that the two effects leave alone is changed by an event only
    when the handler of the event changes it. *)
Lemma step_keeps `{Codec} {A} (f : Model -> A) m e :
  (forall v x, f (setItem "scorecards" v x) = f x) ->
  (forall s x, f (setScorecards s x) = f x) ->
  (forall c x, f (setCategoryData c x) = f x) ->
  f (settle (handler e m) m) = f m -> f (step m e) = f m.
Proof.
  intros Hitem Hsc Hcat Hh. unfold step, react.
  set (m1 := settle (handler e m) m) in *.
  assert (He : f (settle (effect_editable m1) m1) = f m1).
  { unfold effect_editable, updateCurrentData, settle.
    repeat case_match; subst; try reflexivity; try discriminate;
      match goal with Heq : Ok _ = Ok _ |- _ => injection Heq as <- end;
      auto. }
  assert (H2 : f (if bool_decide (selectedCategory m1 = selectedCategory m) then m1
                  else settle (effect_editable m1) m1) = f m).
  { destruct (bool_decide _); congruence. }
  destruct (bool_decide (scorecards_ref _ = _)); [exact H2|].
  unfold effect_save, saveScoreCardsToStorage. rewrite Hitem. exact H2.
Qed.

(** An event whose handler leaves the selection and the ScoreCards alone
    runs no effect. *)
Lemma step_plain `{Codec} e m m1 :
  handler e m = Ok m1 ->
  selectedCategory m1 = selectedCategory m ->
  scorecards_ref m1 = scorecards_ref m ->
  step m e = m1.
Proof.
  intros Hh Hsel Href. unfold step, react. rewrite Hh. cbn [settle].
  rewrite Hsel, (bool_decide_eq_true_2 _ eq_refl).
  rewrite Href, (bool_decide_eq_true_2 _ eq_refl). reflexivity.
Qed.

(** An event whose handler installs new ScoreCards runs the effect that
    saves them. *)
Lemma step_installs `{Codec} e m scs :
  handler e m = Ok (setScorecards scs m) ->
  step m e = effect_save (setScorecards scs m).
Proof.
  intros Hh. unfold step, react. rewrite Hh. cbn [settle].
  cbn [selectedCategory setScorecards].
  rewrite (bool_decide_eq_true_2 _ eq_refl).
  rewrite bool_decide_eq_false_2; [reflexivity|]. cbn. lia.
Qed.

(** Writing rows to the current grid, as an event. *)
Lemma step_rows `{Codec} e m cd rs :
  getCurrentData m = Some cd ->
  handler e m = bind (updateCurrentData (only_rows rs) m)
                     (fun m' => Ok (when_retailers rs m')) ->
  exists scs,
    step m e = effect_save (setScorecards scs m)
    /\ getCurrentData (step m e) = Some {| columns := columns cd; rows := rs |}.
Proof.
  intros Hcd Hh.
  destruct (updateCurrentData_current (only_rows rs) m cd Hcd)
    as (sel & Hsel & Hpre & Hup & Hget).
  rewrite Hup in Hh. cbn [bind] in Hh.
  rewrite (when_retailers_scorecard _ _ sel) in Hh by assumption.
  eexists. rewrite (step_installs _ _ _ Hh). split; [reflexivity|].
  exact Hget.
Qed.

Lemma id_is_number rowId (r : Row) :
  id_is (IdNum rowId) r = true <-> r !! "id" = Some (VNum rowId).
Proof.
  unfold id_is, VNum.
  destruct (r !! "id") as [[[| | |n|]| | | |]|]; try (split; [discriminate|congruence]).
  rewrite bool_decide_eq_true. split; congruence.
Qed.

Lemma filter_sublist {A} (p : A -> bool) (l : list A) : List.filter p l `sublist_of` l.
Proof.
  induction l as [|x l IH]; simpl; [constructor|].
  destruct (p x); [apply sublist_skip | apply sublist_cons]; exact IH.
Qed.

Lemma findIndex_spec {A} (p : A -> bool) (l : list A) :
  match findIndex p l with
  | Some j => exists x, l !! j = Some x /\ p x = true
                        /\ forall y, y ∈ take j l -> p y = false
  | None => forall y, y ∈ l -> p y = false
  end.
Proof.
  pose proof (findIndex_go_spec p l 0) as Hspec.
  fold (@findIndex A p l) in Hspec.
  destruct (findIndex p l) as [j|]; [|exact Hspec].
  destruct Hspec as (n & x & -> & Hx & Hp & Hbefore). exists x. auto.
Qed.

Lemma findIndex_first {A} (p : A -> bool) (l : list A) i x :
  l !! i = Some x -> p x = true ->
  (forall j y, (j < i)%nat -> l !! j = Some y -> p y = false) ->
  findIndex p l = Some i.
Proof.
  intros Hx Hp Hbefore. pose proof (findIndex_spec p l) as Hspec.
  destruct (findIndex p l) as [j|].
  - destruct Hspec as (y & Hy & Hpy & Hfirst). f_equal.
    destruct (Nat.lt_trichotomy j i) as [Hlt | [-> | Hgt]]; [|reflexivity|].
    + rewrite (Hbefore j y Hlt Hy) in Hpy. discriminate.
    + assert (Hin : x ∈ take j l).
      { apply list_elem_of_lookup. exists i. rewrite lookup_take_lt by exact Hgt. exact Hx. }
      rewrite (Hfirst x Hin) in Hp. discriminate.
  - rewrite (Hspec x) in Hp; [discriminate|]. eapply list_elem_of_lookup_2, Hx.
Qed.

(** ** Deleting a row *)

(** X1.  With a current grid, [handleDeleteRow] succeeds and leaves in the
    grid, in their order, exactly the rows whose id is not the given
    number: a row whose id is a string or is absent stays.  The columns,
    the comments (those of the deleted rows too), the sub-grids and the
    storage are as before: the branch that saves the retailers is not
    reached with a ScoreCard selected. *)
Theorem handleDeleteRow_spec `{Codec} (m : Model) (cd : GridData) (rowId : Z) :
  getCurrentData m = Some cd ->
  exists m' rows',
    handleDeleteRow rowId m = Ok m'
    /\ getCurrentData m' = Some {| columns := columns cd; rows := rows' |}
    /\ rows' `sublist_of` rows cd
    /\ (forall r, r ∈ rows' <-> r ∈ rows cd /\ r !! "id" <> Some (VNum rowId))
    /\ comments m' = comments m
    /\ subGrids m' = subGrids m
    /\ localStorage m' = localStorage m.
Proof.
  intros Hcd. unfold handleDeleteRow. rewrite Hcd.
  set (rows' := List.filter (fun r => negb (id_is (IdNum rowId) r)) (rows cd)).
  destruct (updateCurrentData_current (only_rows rows') m cd Hcd)
    as (sel & Hsel & Hpre & -> & Hget).
  eexists. exists rows'. cbn [bind].
  rewrite (when_retailers_scorecard _ _ sel) by assumption.
  split; [reflexivity|]. split; [exact Hget|].
  split; [apply filter_sublist|].
  split; [|repeat split].
  intros r. unfold rows'. rewrite !list_elem_of_In, filter_In, negb_true_iff.
  rewrite <- id_is_number. destruct (id_is (IdNum rowId) r); intuition congruence.
Qed.

Lemma handleDeleteRow_spec_witness :
  exists m',
    handleDeleteRow (H := text_codec) 1 sample_model = Ok m'
    /\ (rows <$> getCurrentData m')
       = Some [ <["name" := VStr "Item 2"]> {["id" := VNum 2]} ].
Proof.
  destruct (handleDeleteRow_spec (H := text_codec) sample_model sample_grid 1 eq_refl)
    as (m' & rows' & Hrun & _).
  exists m'. split; [exact Hrun|].
  vm_compute in Hrun. injection Hrun as <-. reflexivity.
Defined.

(** ** A row that takes the id of a deleted row *)

Lemma filter_new_row (cd : GridData) :
  (forall r, r ∈ rows cd -> safe_integer (numeric_id r)) ->
  List.filter (fun r => negb (id_is (IdNum (next_id (rows cd))) r))
              (rows cd ++ [new_row cd])
  = rows cd.
Proof.
  intros Hsafe. rewrite List.filter_app. cbn [List.filter].
  assert (Hnew : id_is (IdNum (next_id (rows cd))) (new_row cd) = true).
  { unfold id_is. rewrite new_row_id. apply bool_decide_eq_true_2. reflexivity. }
  rewrite Hnew. cbn. rewrite app_nil_r.
  apply forallb_filter_id, forallb_forall. intros r Hr.
  apply negb_true_iff. unfold id_is.
  destruct (r !! "id") as [[[| | |n|]| | | |]|] eqn:Hid; try reflexivity.
  apply bool_decide_eq_false_2. intros ->.
  pose proof (next_id_above (rows cd) r Hsafe (proj2 (list_elem_of_In _ _) Hr)) as Hlt.
  unfold numeric_id in Hlt. rewrite Hid in Hlt. lia.
Qed.

(** X2.  The comments are kept under the id of the row, the deletion of a
    row leaves them, and [handleAddRow] gives again an id that has become
    free.  So, in a grid whose numeric ids are safe integers: add a row,
    comment on it, delete it and add a row again; the second new row has
    the id of the first and, with it, the comment written on the first. *)
Theorem new_row_inherits_comments_of_deleted_row `{Codec}
    (m : Model) (cd : GridData) (sel s now : string) :
  getCurrentData m = Some cd -> selectedCategory m = Some sel -> trim s <> "" ->
  (forall r, r ∈ rows cd -> safe_integer (numeric_id r)) ->
  let id := next_id (rows cd) in
  let m1 := fold_left step [AddRow; OpenCommentModal id; TypeComment s; AddComment now] m in
  let m2 := step m1 (DeleteRow id) in
  let m3 := step m2 AddRow in
  let added := {| text := trim s; timestamp := now;
                  username := current_username (user m) |} in
  getCurrentData m1 = Some {| columns := columns cd; rows := rows cd ++ [new_row cd] |}
  /\ new_row cd !! "id" = Some (VNum id)
  /\ comments_of (comments m1) sel id = comments_of (comments m) sel id ++ [added]
  /\ getCurrentData m2 = Some cd
  /\ getCurrentData m3 = Some {| columns := columns cd; rows := rows cd ++ [new_row cd] |}
  /\ comments_of (comments m3) sel id = comments_of (comments m) sel id ++ [added].
Proof.
  intros Hcd Hsel Hs Hsafe id m1 m2 m3 added.
  destruct (getCurrentData_inv m cd Hcd) as (sel' & sc & Hsel' & Hpre & _).
  assert (sel' = sel) as -> by congruence.
  (* the first row *)
  destruct (step_rows AddRow m cd (rows cd ++ [new_row cd]) Hcd) as (scs1 & Ha & Hga).
  { cbn [handler]. unfold handleAddRow. rewrite Hcd. reflexivity. }
  set (ma := step m AddRow) in *.
  (* the comment *)
  set (mb := setCommentInput "" (setOpenCommentRowId (Some id) ma)).
  assert (Hb : step ma (OpenCommentModal id) = mb) by (apply step_plain; reflexivity).
  set (mc := setCommentInput s mb).
  assert (Hc : step mb (TypeComment s) = mc) by (apply step_plain; reflexivity).
  assert (Hsela : selectedCategory ma = Some sel) by (rewrite Ha; exact Hsel).
  assert (Hd : exists md,
              step mc (AddComment now) = md
              /\ selectedCategory md = Some sel
              /\ scorecards md = scorecards ma
              /\ comments md = add_comment sel id added (comments m)).
  { eexists. split.
    - apply step_plain.
      + cbn [handler]. unfold handleAddComment. cbn -[trim].
        rewrite (proj2 (is_empty_false _) Hs), Hsela, Hpre. cbn. reflexivity.
      + reflexivity.
      + reflexivity.
    - cbn -[trim]. split; [exact Hsela|]. split; [reflexivity|].
      rewrite Ha. reflexivity. }
  destruct Hd as (md & Hd & Hseld & Hscd & Hcmd).
  assert (Hm1 : m1 = md).
  { unfold m1. cbn [fold_left]. fold ma. rewrite Hb, Hc. exact Hd. }
  assert (Hgd : getCurrentData md
                = Some {| columns := columns cd; rows := rows cd ++ [new_row cd] |}).
  { rewrite <- Hga. unfold getCurrentData. rewrite Hseld, Hsela, Hscd. reflexivity. }
  (* the deletion *)
  destruct (step_rows (DeleteRow id) md _ (rows cd) Hgd) as (scs2 & He & Hge).
  { cbn [handler]. unfold handleDeleteRow. rewrite Hgd. cbn [rows].
    unfold id. rewrite (filter_new_row _ Hsafe). reflexivity. }
  assert (Hm2 : getCurrentData m2 = Some cd).
  { unfold m2. rewrite Hm1, Hge. destruct cd; reflexivity. }
  (* the second row *)
  destruct (step_rows AddRow m2 cd (rows cd ++ [new_row cd]) Hm2) as (scs3 & Hf & Hgf).
  { cbn [handler]. unfold handleAddRow. rewrite Hm2. reflexivity. }
  assert (Hcm3 : comments m3 = comments md).
  { unfold m3. rewrite Hf. unfold m2. rewrite Hm1, He. reflexivity. }
  split; [rewrite Hm1; exact Hgd|].
  split; [apply new_row_id|].
  split; [rewrite Hm1, Hcmd; apply comments_of_add_same|].
  split; [exact Hm2|].
  split; [exact Hgf|].
  rewrite Hcm3, Hcmd. apply comments_of_add_same.
Qed.

Lemma new_row_inherits_comments_of_deleted_row_witness :
  let m1 := fold_left (step (H := text_codec))
              [AddRow; OpenCommentModal 3; TypeComment "call back";
               AddComment "1/2/2024"] sample_model in
  let m3 := step (H := text_codec) (step (H := text_codec) m1 (DeleteRow 3)) AddRow in
  new_row sample_grid !! "id" = Some (VNum 3)
  /\ comments_of (comments m3) "scorecard_1700000000000" 3
     = [ {| text := "call back"; timestamp := "1/2/2024"; username := "Anonymous" |} ].
Proof.
  pose proof (new_row_inherits_comments_of_deleted_row (H := text_codec)
                sample_model sample_grid "scorecard_1700000000000" "call back"
                "1/2/2024" eq_refl eq_refl) as Hthm.
  cbv zeta in Hthm.
  destruct Hthm as (_ & Hid & _ & _ & _ & Hcomments); [discriminate| |].
  { intros r Hr.
    repeat (apply elem_of_cons in Hr as [->|Hr]; [vm_compute; reflexivity|]).
    inversion Hr. }
  cbv zeta. split; [exact Hid | exact Hcomments].
Defined.

(** ** Renaming a column *)



(** ** The keys generated from names *)

Fixpoint all_chars (p : ascii -> bool) (s : string) : bool :=
  match s with
  | EmptyString => true
  | String c s' => p c && all_chars p s'
  end.

(** A code unit that is neither white space nor an upper-case letter. *)
Definition key_char (c : ascii) : bool :=
  negb (is_space c) && Ascii.eqb (lower_char c) c.

Lemma lower_char_key c : is_space c = false -> key_char (lower_char c) = true.
Proof. destruct c as [[] [] [] [] [] [] [] []]; intros Hc; try discriminate Hc; reflexivity. Qed.

Lemma replace_spaces_key b s :
  all_chars key_char (replace_spaces_from b (toLowerCase s)) = true.
Proof.
  revert b. induction s as [|c s IH]; intros b; [reflexivity|].
  cbn [toLowerCase replace_spaces_from].
  destruct (is_space (lower_char c)) eqn:Hsp.
  - destruct b; [apply IH|]. cbn [all_chars]. rewrite IH. reflexivity.
  - cbn [all_chars]. rewrite IH, andb_true_r.
    revert Hsp. clear. destruct c as [[] [] [] [] [] [] [] []]; intros Hsp;
      try discriminate Hsp; reflexivity.
Qed.

Lemma key_chars_trimEnd s : all_chars key_char s = true -> trimEnd s = s.
Proof.
  induction s as [|c s IH]; [reflexivity|]. cbn [all_chars trimEnd].
  intros [Hc Hs]%andb_true_iff. rewrite (IH Hs).
  unfold key_char in Hc. apply andb_true_iff in Hc as [Hc _].
  apply negb_true_iff in Hc. rewrite Hc. reflexivity.
Qed.

Lemma key_chars_trim s : all_chars key_char s = true -> trim s = s.
Proof.
  intros Hs. unfold trim.
  assert (trimStart s = s) as ->.
  { destruct s as [|c s]; [reflexivity|]. cbn [all_chars] in Hs.
    apply andb_true_iff in Hs as [Hc _]. unfold key_char in Hc.
    apply andb_true_iff in Hc as [Hc _]. apply negb_true_iff in Hc.
    cbn [trimStart]. rewrite Hc. reflexivity. }
  apply key_chars_trimEnd, Hs.
Qed.

Lemma key_chars_lower s : all_chars key_char s = true -> toLowerCase s = s.
Proof.
  induction s as [|c s IH]; [reflexivity|]. cbn [all_chars toLowerCase].
  intros [Hc Hs]%andb_true_iff. rewrite (IH Hs).
  unfold key_char in Hc. apply andb_true_iff in Hc as [_ Hc].
  apply Ascii.eqb_eq in Hc. rewrite Hc. reflexivity.
Qed.

Lemma key_chars_replace s :
  all_chars key_char s = true -> replace_spaces_from false s = s.
Proof.
  induction s as [|c s IH]; [reflexivity|]. cbn [all_chars replace_spaces_from].
  intros [Hc Hs]%andb_true_iff. rewrite (IH Hs).
  unfold key_char in Hc. apply andb_true_iff in Hc as [Hc _].
  apply negb_true_iff in Hc. rewrite Hc. reflexivity.
Qed.

Lemma make_key_blank n : make_key n = "" <-> trim n = "".
Proof.
  unfold make_key, replace_spaces. split.
  - destruct (trim n) as [|c s]; [reflexivity|].
    cbn [toLowerCase replace_spaces_from].
    destruct (is_space (lower_char c)); discriminate.
  - intros ->. reflexivity.
Qed.

(** X4.  The key that [handleAddColumnConfirm] generates from a name, which
    is also the key that the import generates from a header that is a
    string, holds no white space and no upper-case letter; generating a
    key from a key returns the key, and the key is empty exactly for a
    blank name. *)
Theorem make_key_is_a_normal_form (name : string) :
  all_chars key_char (make_key name) = true
  /\ make_key (make_key name) = make_key name
  /\ (make_key name = "" <-> trim name = "")
  /\ normalizeKey (PStr name) = Ok (make_key name).
Proof.
  assert (Hk : all_chars key_char (make_key name) = true)
    by apply replace_spaces_key.
  split; [exact Hk|]. split; [|split; [apply make_key_blank|]].
  - unfold make_key at 1, replace_spaces.
    rewrite (key_chars_trim _ Hk), (key_chars_lower _ Hk).
    apply key_chars_replace, Hk.
  - destruct name; reflexivity.
Qed.

(** ** Adding the same column twice *)

(** X5.  Once a column has been added under a name, a second attempt under
    any name that generates the same key (the same name, the key itself, the
    name in another case or with other spacing) is refused with the message
    that the name must be unique, and changes nothing else. *)
Theorem handleAddColumnConfirm_rejects_taken_key
    (m : Model) (cd : GridData) (again : string) :
  getCurrentData m = Some cd ->
  trim (newColName m) <> "" ->
  (forall c, c ∈ columns cd -> col_key c <> make_key (newColName m)) ->
  make_key again = make_key (newColName m) ->
  exists m1,
    handleAddColumnConfirm m = Ok m1
    /\ colError m1 = ""
    /\ handleAddColumnConfirm (setNewColName again m1)
       = Ok (setColError "Column name must be unique." (setNewColName again m1)).
Proof.
  intros Hcd Hname Hfresh Hagain.
  set (key := make_key (newColName m)) in *.
  assert (Hdup : existsb (has_key key) (columns cd) = false).
  { destruct (existsb _ _) eqn:Hex; [|reflexivity].
    apply existsb_has_key in Hex as (c & Hc & Hk). destruct (Hfresh c Hc Hk). }
  destruct (updateCurrentData_current
              (columns_and_rows
                 (map blank_comments
                      (insert_at (insert_index (columns cd)) (new_column m key) (columns cd)))
                 (map (fun row : Row => <[key := VStr ""]> row) (rows cd))) m cd Hcd)
    as (sel & Hsel & Hpre & Hup & Hget).
  eexists. split; [|split].
  - unfold handleAddColumnConfirm. fold key.
    rewrite (proj2 (is_empty_false _) Hname), Hcd, Hdup, Hup. reflexivity.
  - reflexivity.
  - unfold handleAddColumnConfirm.
    cbn [newColName setNewColName setColError setShowAddColModal].
    assert (Hblank : trim again <> "").
    { intros Hb. apply make_key_blank in Hb. rewrite Hagain in Hb.
      apply make_key_blank in Hb. contradiction. }
    rewrite (proj2 (is_empty_false _) Hblank), Hagain. fold key.
    match goal with
    | |- context [getCurrentData ?x] =>
        assert (Hg : getCurrentData x
                     = Some {| columns := map blank_comments
                                 (map blank_comments
                                    (insert_at (insert_index (columns cd))
                                               (new_column m key) (columns cd)));
                               rows := map (fun row : Row => <[key := VStr ""]> row)
                                           (rows cd) |})
          by exact Hget
    end.
    rewrite Hg. cbn [columns].
    assert (Hex : existsb (has_key key)
                    (map blank_comments
                       (map blank_comments
                          (insert_at (insert_index (columns cd))
                                     (new_column m key) (columns cd)))) = true).
    { apply existsb_has_key.
      exists (blank_comments (blank_comments (new_column m key))). split.
      - apply list_elem_of_fmap_2, list_elem_of_fmap_2. unfold insert_at.
        apply elem_of_app. right. apply list_elem_of_here.
      - rewrite !blank_comments_key. reflexivity. }
    rewrite Hex. reflexivity.
Qed.

Lemma handleAddColumnConfirm_rejects_taken_key_witness :
  exists m1,
    handleAddColumnConfirm (setNewColName "Phone Number" sample_model) = Ok m1
    /\ colError m1 = ""
    /\ handleAddColumnConfirm (setNewColName "  phone   NUMBER" m1)
       = Ok (setColError "Column name must be unique."
               (setNewColName "  phone   NUMBER" m1)).
Proof.
  apply (handleAddColumnConfirm_rejects_taken_key
           (setNewColName "Phone Number" sample_model) sample_grid
           "  phone   NUMBER" eq_refl).
  - discriminate.
  - intros c Hc Hk.
    assert (Hex : existsb (has_key "phone_number") (columns sample_grid) = true).
    { apply existsb_has_key. exists c. split; [exact Hc | exact Hk]. }
    vm_compute in Hex. discriminate.
  - reflexivity.
Defined.

(** ** The effect that makes the columns editable *)

Lemma make_editable_twice role c :
  blank_comments (make_editable role (blank_comments (make_editable role c)))
  = blank_comments (make_editable role c).
Proof.
  destruct c as [k n e s d rc re rh].
  unfold blank_comments, make_editable, has_key. cbn.
  destruct (bool_decide (k = "comments")) eqn:Hc; cbn; rewrite ?Hc; cbn;
    destruct (bool_decide (role = "ADMIN")), (bool_decide (k = "id")),
      (bool_decide (k = "delete")), re; cbn; rewrite ?Hc; reflexivity.
Qed.

(** X6.  With a current grid, the effect on the role and the selection
    succeeds and keeps the keys of the columns and the rows.  Every column
    is then editable exactly when the role is ['ADMIN'] and its key is
    neither ['id'] nor ['delete'], whatever the column said before; an
    editor that a column carries is kept, and for another role a column
    without an editor gets none.  Running the effect again changes nothing. *)
Theorem effect_editable_spec (m : Model) (cd : GridData) :
  getCurrentData m = Some cd ->
  exists m' cols',
    effect_editable m = Ok m'
    /\ getCurrentData m' = Some {| columns := cols'; rows := rows cd |}
    /\ map col_key cols' = map col_key (columns cd)
    /\ (forall c, c ∈ cols' ->
          col_editable c
          = Some (bool_decide (userRole m = "ADMIN")
                  && negb (bool_decide (col_key c = "id"))
                  && negb (bool_decide (col_key c = "delete"))))
    /\ (forall i c r, columns cd !! i = Some c -> col_renderEditCell c = Some r ->
          exists c', cols' !! i = Some c' /\ col_renderEditCell c' = Some r)
    /\ (userRole m <> "ADMIN" ->
        forall i c, columns cd !! i = Some c -> col_renderEditCell c = None ->
          exists c', cols' !! i = Some c' /\ col_renderEditCell c' = None)
    /\ exists m'',
         effect_editable m' = Ok m'' /\ getCurrentData m'' = getCurrentData m'.
Proof.
  intros Hcd. unfold effect_editable at 1. rewrite Hcd.
  destruct (updateCurrentData_current
              (only_columns (map (make_editable (userRole m)) (columns cd))) m cd Hcd)
    as (sel & Hsel & Hpre & Hup & Hget).
  cbn [default from_option id fmap option_fmap option_map only_columns u_columns u_rows]
    in Hup, Hget.
  rewrite Hup. eexists. eexists. split; [reflexivity|].
  split; [exact Hget|].
  split.
  { rewrite !map_map. apply map_ext. intros c. rewrite blank_comments_key. reflexivity. }
  split.
  { intros c Hc. apply list_elem_of_fmap in Hc as (c1 & -> & Hc).
    apply list_elem_of_fmap in Hc as (c0 & -> & _).
    destruct c0 as [k n e s d rc re rh].
    unfold blank_comments, make_editable, has_key. cbn.
    destruct (bool_decide (k = "comments")); reflexivity. }
  split.
  { intros i c r Hi Hr. eexists. split.
    - rewrite !list_lookup_fmap, Hi. reflexivity.
    - destruct c as [k n e s d rc re rh]. cbn in Hr. subst re.
      unfold blank_comments, make_editable, has_key. cbn.
      destruct (bool_decide (k = "comments")); reflexivity. }
  split.
  { intros Hrole i c Hi Hr. eexists. split.
    - rewrite !list_lookup_fmap, Hi. reflexivity.
    - destruct c as [k n e s d rc re rh]. cbn in Hr. subst re.
      unfold blank_comments, make_editable, has_key. cbn.
      rewrite (bool_decide_eq_false_2 _ Hrole).
      destruct (bool_decide (k = "comments")); reflexivity. }
  match type of Hget with
  | getCurrentData ?x = Some ?g =>
      set (m' := x) in *; set (g' := g) in *
  end.
  unfold effect_editable. rewrite Hget.
  destruct (updateCurrentData_current
              (only_columns (map (make_editable (userRole m')) (columns g'))) m' g' Hget)
    as (sel' & Hsel' & Hpre' & Hup' & Hget').
  rewrite Hup'. eexists. split; [reflexivity|].
  rewrite Hget'. unfold g'. cbn. f_equal. f_equal.
  rewrite !map_map. apply map_ext. intros c. apply make_editable_twice.
Qed.

Lemma effect_editable_spec_witness :
  exists m',
    effect_editable sample_model = Ok m'
    /\ ((fun cd => map (fun c => (col_key c, col_editable c)) (columns cd))
          <$> getCurrentData m')
       = Some [ ("name", Some true); ("retail_price", Some true);
                ("buyer", Some true); ("store_count", Some true);
                ("hq_location", Some true); ("cmg", Some true);
                ("brand_lead", Some true) ].
Proof.
  destruct (effect_editable_spec sample_model sample_grid eq_refl)
    as (m' & cols' & Hrun & _).
  exists m'. split; [exact Hrun|].
  vm_compute in Hrun. injection Hrun as <-. reflexivity.
Defined.

(** ** Creating and selecting a ScoreCard *)

Lemma find_selects_last sel scs sc :
  (forall x, x ∈ scs -> sc_id x <> sel) -> sc_id sc = sel ->
  List.find (selects sel) (scs ++ [sc]) = Some sc.
Proof.
  intros Hnone Hsc. induction scs as [|x scs IH]; cbn.
  - unfold selects. rewrite bool_decide_eq_true_2 by exact Hsc. reflexivity.
  - unfold selects at 1. rewrite bool_decide_eq_false_2.
    + apply IH. intros y Hy. apply Hnone. apply list_elem_of_further, Hy.
    + apply Hnone. apply list_elem_of_here.
Qed.

Definition first_rows : list Row :=
  [ <["name" := VStr "Item 1"]> {["id" := VNum 1]};
    <["name" := VStr "Item 2"]> {["id" := VNum 2]} ].

(** X7.  With a name that is not blank, [createScoreCard] appends a
    ScoreCard whose id is ['scorecard_'] followed by the time, with the
    trimmed name, the seven default columns and the rows Item 1 and Item 2,
    clears the name field and closes the dialog; the selection stays.
    When the id is a new one, selecting it clears the sorting and runs the
    effect on the columns: the grid then shows these columns, made editable
    for the role, and the two rows, and the storage holds the ScoreCards. *)
Theorem created_scorecard_can_be_selected `{Codec}
    (m : Model) (now : Z) (iso : string) :
  let id := "scorecard_" +:+ number_string now in
  trim (newScoreCardName m) <> "" ->
  categoryData m !! "Retailers" = None ->
  (forall sc, sc ∈ scorecards m -> sc_id sc <> id) ->
  selectedCategory m <> Some id ->
  let m1 := step m (CreateScoreCard now iso) in
  let m2 := step m1 (CategoryChange id) in
  scorecards m1
  = scorecards m
    ++ [ {| sc_id := id; sc_name := trim (newScoreCardName m);
            sc_columns := retailersColumns; sc_rows := first_rows;
            sc_createdAt := CreatedDate iso |} ]
  /\ newScoreCardName m1 = "" /\ showCreateScoreCardModal m1 = false
  /\ selectedCategory m1 = selectedCategory m
  /\ selectedCategory m2 = Some id
  /\ sortColumns m2 = []
  /\ getCurrentData m2
     = Some {| columns := map (make_editable (userRole m)) retailersColumns;
               rows := first_rows |}
  /\ localStorage m2 !! "scorecards"
     = Some (stringify (to_json_or_null (scorecards_value (scorecards m2)))).
Proof.
  intros id Hname Hcat Hfresh Hsel m1 m2.
  set (sc := {| sc_id := id; sc_name := trim (newScoreCardName m);
                sc_columns := retailersColumns; sc_rows := first_rows;
                sc_createdAt := CreatedDate iso |}).
  set (ma := setShowCreateScoreCardModal false
               (setNewScoreCardName "" (setScorecards (scorecards m ++ [sc]) m))).
  assert (H1 : m1 = effect_save ma).
  { unfold m1, step, react. cbn [handler settle]. unfold createScoreCard.
    rewrite (proj2 (is_empty_false _) Hname), Hcat. cbn -[trim number_string].
    rewrite (bool_decide_eq_true_2 _ eq_refl).
    rewrite bool_decide_eq_false_2 by (cbn; lia). reflexivity. }
  set (mb := setSortColumns [] (setSelectedCategory (Some id) m1)).
  assert (Hgb : getCurrentData mb
                = Some {| columns := retailersColumns; rows := first_rows |}).
  { unfold getCurrentData, mb. rewrite H1. cbn -[trim number_string retailersColumns first_rows].
    change (startsWith "scorecard_" id) with true.
    change (is_empty id) with false. cbn match.
    rewrite (find_selects_last id (scorecards m) sc Hfresh eq_refl). reflexivity. }
  destruct (updateCurrentData_current
              (only_columns (map (make_editable (userRole mb)) retailersColumns))
              mb _ Hgb) as (sel & Hselb & Hpre & Hup & Hget).
  assert (H2 : m2 = effect_save
                      (setScorecards
                         (updateScoreCard sel
                            {| u_columns := map blank_comments
                                 <$> u_columns (only_columns
                                       (map (make_editable (userRole mb)) retailersColumns));
                               u_rows := None |} (scorecards mb)) mb)).
  { unfold m2, step, react. cbn [handler settle]. unfold handleCategoryChange. fold mb.
    assert (Hne : selectedCategory mb <> selectedCategory m1).
    { intros Heq. apply Hsel. rewrite H1 in Heq. symmetry. exact Heq. }
    rewrite (bool_decide_eq_false_2 _ Hne).
    unfold effect_editable. rewrite Hgb. cbn [columns]. rewrite Hup. cbn [settle].
    rewrite bool_decide_eq_false_2; [reflexivity|].
    unfold mb. cbn. lia. }
  split; [rewrite H1; reflexivity|].
  split; [rewrite H1; reflexivity|].
  split; [rewrite H1; reflexivity|].
  split; [rewrite H1; reflexivity|].
  split; [rewrite H2; reflexivity|].
  split; [rewrite H2; reflexivity|].
  split.
  - rewrite H2. etransitivity; [exact Hget|].
    unfold mb. rewrite H1. reflexivity.
  - rewrite H2. unfold effect_save, saveScoreCardsToStorage. cbn.
    apply lookup_insert_eq.
Qed.

Lemma created_scorecard_can_be_selected_witness :
  let m := setNewScoreCardName " Autumn " (fresh "VIEWER") in
  let m1 := step (H := text_codec) m
              (CreateScoreCard 1700000000001 "2023-11-14T22:13:20.001Z") in
  let m2 := step (H := text_codec) m1
              (CategoryChange ("scorecard_" +:+ number_string 1700000000001)) in
  map sc_name (scorecards m1) = ["Autumn"]
  /\ getCurrentData m2
     = Some {| columns := map (make_editable "VIEWER") retailersColumns;
               rows := first_rows |}.
Proof.
  pose proof (created_scorecard_can_be_selected (H := text_codec)
                (setNewScoreCardName " Autumn " (fresh "VIEWER"))
                1700000000001 "2023-11-14T22:13:20.001Z") as Hthm.
  cbv zeta in Hthm.
  destruct Hthm as (Hscs & _ & _ & _ & _ & _ & Hgrid & _).
  - discriminate.
  - reflexivity.
  - intros sc Hsc. inversion Hsc.
  - discriminate.
  - cbv zeta. split; [rewrite Hscs; reflexivity | exact Hgrid].
Defined.

(** ** Deleting a ScoreCard *)

Lemma find_selects_filter sel id scs :
  sel <> id ->
  List.find (selects sel)
            (List.filter (fun sc => negb (bool_decide (sc_id sc = id))) scs)
  = List.find (selects sel) scs.
Proof.
  intros Hne. induction scs as [|x scs IH]; [reflexivity|]. cbn.
  destruct (bool_decide (sc_id x = id)) eqn:Hx; cbn.
  - apply bool_decide_eq_true_1 in Hx. unfold selects at 2.
    rewrite bool_decide_eq_false_2 by congruence. exact IH.
  - destruct (selects sel x); [reflexivity | exact IH].
Qed.

Lemma find_selects_removed id scs :
  List.find (selects id)
            (List.filter (fun sc => negb (bool_decide (sc_id sc = id))) scs)
  = None.
Proof.
  induction scs as [|x scs IH]; [reflexivity|]. cbn.
  destruct (bool_decide (sc_id x = id)) eqn:Hx; cbn; [exact IH|].
  unfold selects at 1. rewrite Hx. exact IH.
Qed.

(** X8.  [deleteScoreCard] removes the ScoreCards with the given id, all of
    them and no other, and the effect stores the rest.  When the deleted
    ScoreCard was the selected one the selection is cleared and there is no
    current grid; otherwise the selection and the current grid stay.  The
    comments written on the rows of the deleted ScoreCard stay in the state,
    and so do the sub-grids. *)
Theorem deleteScoreCard_spec `{Codec} (m : Model) (id : string) :
  let m' := step m (DeleteScoreCard id) in
  scorecards m' `sublist_of` scorecards m
  /\ (forall sc, sc ∈ scorecards m' <-> sc ∈ scorecards m /\ sc_id sc <> id)
  /\ (selectedCategory m = Some id ->
      selectedCategory m' = None /\ getCurrentData m' = None)
  /\ (selectedCategory m <> Some id ->
      selectedCategory m' = selectedCategory m
      /\ getCurrentData m' = getCurrentData m)
  /\ comments m' = comments m
  /\ subGrids m' = subGrids m
  /\ localStorage m' !! "scorecards"
     = Some (stringify (to_json_or_null (scorecards_value (scorecards m')))).
Proof.
  cbv zeta.
  set (rest := List.filter (fun sc => negb (bool_decide (sc_id sc = id))) (scorecards m)).
  assert (Hstep : step m (DeleteScoreCard id)
                  = effect_save
                      (if bool_decide (selectedCategory m = Some id)
                       then setSelectedCategory None (setScorecards rest m)
                       else setScorecards rest m)).
  { unfold step, react. cbn [handler settle]. unfold deleteScoreCard. fold rest.
    destruct (bool_decide (selectedCategory m = Some id)) eqn:Hsel.
    - apply bool_decide_eq_true_1 in Hsel.
      rewrite (bool_decide_eq_false_2
                 (selectedCategory (setSelectedCategory None (setScorecards rest m))
                  = selectedCategory m)) by (cbn; congruence).
      unfold effect_editable, getCurrentData. cbn [selectedCategory setSelectedCategory settle].
      rewrite bool_decide_eq_false_2 by (cbn; lia). reflexivity.
    - rewrite (bool_decide_eq_true_2
                 (selectedCategory (setScorecards rest m) = selectedCategory m) eq_refl).
      rewrite bool_decide_eq_false_2 by (cbn; lia). reflexivity. }
  rewrite Hstep.
  assert (Hsc : scorecards (effect_save
                      (if bool_decide (selectedCategory m = Some id)
                       then setSelectedCategory None (setScorecards rest m)
                       else setScorecards rest m)) = rest)
    by (destruct (bool_decide _); reflexivity).
  rewrite Hsc.
  split; [apply filter_sublist|].
  split.
  { intros sc. unfold rest. rewrite !list_elem_of_In, filter_In, negb_true_iff.
    rewrite bool_decide_eq_false. tauto. }
  split.
  { intros Hsel. rewrite (bool_decide_eq_true_2 _ Hsel). split; reflexivity. }
  split.
  { intros Hsel. rewrite (bool_decide_eq_false_2 _ Hsel). split; [reflexivity|].
    unfold getCurrentData. cbn [selectedCategory scorecards effect_save
      saveScoreCardsToStorage setItem setScorecards].
    destruct (selectedCategory m) as [sel|]; [|reflexivity].
    destruct (is_empty sel); [reflexivity|].
    destruct (startsWith "scorecard_" sel); [|reflexivity].
    fold rest. unfold rest. rewrite find_selects_filter by congruence. reflexivity. }
  split; [destruct (bool_decide _); reflexivity|].
  split; [destruct (bool_decide _); reflexivity|].
  unfold effect_save, saveScoreCardsToStorage. cbn.
  rewrite lookup_insert_eq. destruct (bool_decide _); reflexivity.
Qed.

Lemma deleteScoreCard_spec_witness :
  selectedCategory (step (H := text_codec) sample_model
                      (DeleteScoreCard "scorecard_1700000000000")) = None
  /\ getCurrentData (step (H := text_codec) sample_model
                       (DeleteScoreCard "scorecard_1700000000000")) = None.
Proof.
  pose proof (deleteScoreCard_spec (H := text_codec) sample_model
                "scorecard_1700000000000") as Hthm.
  cbv zeta in Hthm. destruct Hthm as (_ & _ & Hselected & _).
  apply Hselected. reflexivity.
Defined.

(** ** Renaming a ScoreCard *)

(** X9.  The dialog that edits a ScoreCard saves the name typed, blank or
    not, in every ScoreCard that has the id of the one under edit; the ids,
    the columns, the rows and the dates of all the ScoreCards, their number
    and order, and the current grid are as before.  A new array is
    installed, so the effect that saves the ScoreCards runs; the dialog is
    closed. *)
Theorem saveEditedScoreCard_spec (sc : ScoreCard) (name : string) (m : Model) :
  let m' := fst (saveEditedScoreCard (typeEditedName name (Some sc)) m) in
  length (scorecards m') = length (scorecards m)
  /\ (forall i x, scorecards m !! i = Some x ->
        exists x', scorecards m' !! i = Some x'
                   /\ sc_id x' = sc_id x /\ sc_columns x' = sc_columns x
                   /\ sc_rows x' = sc_rows x /\ sc_createdAt x' = sc_createdAt x
                   /\ sc_name x' = if bool_decide (sc_id x = sc_id sc) then name
                                   else sc_name x)
  /\ getCurrentData m' = getCurrentData m
  /\ scorecards_ref m' <> scorecards_ref m
  /\ snd (saveEditedScoreCard (typeEditedName name (Some sc)) m) = None.
Proof.
  cbv zeta. cbn [saveEditedScoreCard typeEditedName fst snd sc_id sc_name].
  split; [cbn; unfold updateScoreCardName; apply length_map|].
  split.
  { intros i x Hx. cbn. unfold updateScoreCardName.
    rewrite list_lookup_fmap, Hx. cbn. eexists. split; [reflexivity|].
    destruct (bool_decide (sc_id x = sc_id sc)); repeat split. }
  split.
  { unfold getCurrentData. cbn.
    destruct (selectedCategory m) as [sel|]; [|reflexivity].
    destruct (is_empty sel); [reflexivity|].
    destruct (startsWith "scorecard_" sel); [|reflexivity].
    induction (scorecards m) as [|x scs IH]; [reflexivity|]. cbn.
    unfold selects at 1 3.
    destruct (bool_decide (sc_id x = sc_id sc)); cbn;
      destruct (bool_decide (sc_id x = sel)); try reflexivity; exact IH. }
  split; [cbn; lia | reflexivity].
Qed.

Lemma saveEditedScoreCard_spec_witness :
  map sc_name
      (scorecards (fst (saveEditedScoreCard (typeEditedName "" (Some sample_card))
                                            sample_model)))
  = [""].
Proof.
  pose proof (saveEditedScoreCard_spec sample_card "" sample_model) as Hthm.
  cbv zeta in Hthm. destruct Hthm as (_ & Hlook & _).
  destruct (Hlook 0%nat sample_card eq_refl) as (x' & Hx' & _ & _ & _ & _ & Hname).
  vm_compute in Hx'. injection Hx' as <-. reflexivity.
Defined.

(** ** What the operations do to the ScoreCards *)

Definition identity_of (sc : ScoreCard) : string * string * Created :=
  (sc_id sc, sc_name sc, sc_createdAt sc).

Definition origin_of (sc : ScoreCard) : string * Created :=
  (sc_id sc, sc_createdAt sc).

Lemma updateScoreCard_identity sel u scs :
  map identity_of (updateScoreCard sel u scs) = map identity_of scs.
Proof.
  unfold updateScoreCard. rewrite map_map. apply map_ext.
  intros sc. destruct (bool_decide _); reflexivity.
Qed.

Lemma updateScoreCardName_origin id name scs :
  map origin_of (updateScoreCardName id name scs) = map origin_of scs.
Proof.
  unfold updateScoreCardName. rewrite map_map. apply map_ext.
  intros sc. destruct (bool_decide _); reflexivity.
Qed.

Lemma identity_origin scs scs' :
  map identity_of scs' = map identity_of scs -> map origin_of scs' = map origin_of scs.
Proof.
  intros Heq.
  assert (Hmap : forall l, map origin_of l
                           = map (fun x : string * string * Created => (x.1.1, x.2))
                                 (map identity_of l)).
  { intros l. rewrite map_map. reflexivity. }
  rewrite !Hmap, Heq. reflexivity.
Qed.

Lemma edits_identity m m1 :
  edits m m1 -> map identity_of (scorecards m1) = map identity_of (scorecards m).
Proof.
  intros [-> _ | sel u _ _ _ _ -> | sel u _ _ _ -> _];
    [reflexivity | apply updateScoreCard_identity | reflexivity].
Qed.




Section ScoreCardList.
Context `{Codec}.
Variable strict_eq : value -> value -> bool.
Variable greater : value -> value -> bool.

(** X10.  The ids and the creation dates of the ScoreCards, their number
    and their order are changed by two operations only, the creation and
    the deletion of a ScoreCard, and their names by these two and by the
    rename dialog: every other operation (an edit of the grid, an import, a
    comment, a change of selection or of sorting, a contact, a status, a
    sub-grid event) leaves all of them as they are, whether its handler
    returns or throws. *)
Theorem grid_events_keep_the_scorecard_list (m : Model) (op : Operation) :
  (forall now iso, op <> Named (CreateScoreCard now iso)) ->
  (forall i, op <> Named (DeleteScoreCard i)) ->
  map origin_of (scorecards (act strict_eq greater m op)) = map origin_of (scorecards m)
  /\ ((forall e, op <> RenameScoreCard e) ->
      map identity_of (scorecards (act strict_eq greater m op))
      = map identity_of (scorecards m)).
Proof.
  intros Hcreate Hdelete. unfold act.
  destruct (react_scorecards (perform strict_eq greater op) m) as (_ & _ & Hreact).
  cbv zeta in Hreact.
  set (m1 := settle (perform strict_eq greater op m) m) in *.
  assert (Hafter : map identity_of (scorecards (react (perform strict_eq greater op) m))
                   = map identity_of (scorecards m1)).
  { destruct Hreact as [-> | (u & sel & _ & ->)];
      [reflexivity | apply updateScoreCard_identity]. }
  destruct (editing op) eqn:He.
  - pose proof (edits_identity _ _ (perform_edits strict_eq greater op m He)) as Hid.
    fold m1 in Hid. rewrite Hid in Hafter.
    split; [apply identity_origin, Hafter | intros _; exact Hafter].
  - destruct op as [[]| | | | |e| | | |]; try discriminate.
    + destruct (Hcreate now iso eq_refl).
    + destruct (Hdelete scorecardId eq_refl).
    + split; [|intros Hrename; destruct (Hrename e eq_refl)].
      rewrite (identity_origin _ _ Hafter). unfold m1. cbn [perform settle].
      unfold saveEditedScoreCard. destruct e as [e|]; cbn; [|reflexivity].
      apply updateScoreCardName_origin.
Qed.


End ScoreCardList.

Lemma grid_events_keep_the_scorecard_list_witness :
  map identity_of
      (scorecards (act (H := text_codec) (fun _ _ => false) (fun _ _ => false)
                     sample_model (StatusSelect 0 "buyer" "Authorized")))
  = map identity_of (scorecards sample_model).
Proof.
  apply (grid_events_keep_the_scorecard_list (H := text_codec)); intros; discriminate.
Defined.


(** ** What the events do to the comments *)

Definition comment_event (e : Event) : bool :=
  match e with
  | AddComment _ | SaveEditedComment _ _ _ | DeleteComment _ _ => true
  | _ => false
  end.

(** X12.  The comments and the item ['scorecardComments'] of the storage
    are changed by three events only: adding, editing and deleting a
    comment.  In particular the deletion of a row, of a column or of a
    ScoreCard, and an import that replaces the rows, leave every comment
    where it was. *)
Theorem comments_change_with_comment_events_only `{Codec} (m : Model) (e : Event) :
  comment_event e = false ->
  comments (step m e) = comments m
  /\ localStorage (step m e) !! "scorecardComments"
     = localStorage m !! "scorecardComments".
Proof.
  intros He. split.
  - apply step_keeps; try reflexivity.
    destruct e; try discriminate; cbn [handler]; unfold_handlers;
      repeat case_match; simplify_eq; reflexivity.
  - apply (step_keeps (fun x => localStorage x !! "scorecardComments")); try reflexivity.
    + intros v x. cbn. apply lookup_insert_ne. discriminate.
    + destruct e; try discriminate; cbn [handler]; unfold_handlers;
      repeat case_match; simplify_eq; cbn; rewrite ?lookup_insert_ne by discriminate; reflexivity.
Qed.

Lemma comments_change_with_comment_events_only_witness :
  comments (step (H := text_codec) sample_model
              (DeleteScoreCard "scorecard_1700000000000"))
  = comments sample_model
  /\ localStorage (step (H := text_codec) sample_model
                     (DeleteScoreCard "scorecard_1700000000000"))
       !! "scorecardComments"
     = localStorage sample_model !! "scorecardComments".
Proof.
  apply (comments_change_with_comment_events_only (H := text_codec)). reflexivity.
Defined.

(** ** The item of the retailers *)

Lemma scorecard_is_not_retailers sel :
  startsWith "scorecard_" sel = true -> sel <> "Retailers".
Proof. intros Hpre ->. discriminate. Qed.

Definition retailers_item (m : Model) : option string := localStorage m !! "retailers".

(** X13.  The item ['retailers'] of the storage is written by one event
    only, a change of the rows while the category named ['Retailers'] is
    selected; what is written reads back, through
    [loadRetailersFromStorage], as the image of the rows, and that category
    has no grid.  Every other event leaves the item alone: adding and
    deleting a row do so too, since their branch that saves the retailers
    lies behind the test for a current grid, which only a ScoreCard has. *)
Theorem retailers_item_written_by_onRowsChange_only `{Codec} (m : Model) (e : Event) :
  localStorage (step m e) !! "retailers" = localStorage m !! "retailers"
  \/ exists newRows,
       e = RowsChange newRows
       /\ selectedCategory m = Some "Retailers"
       /\ loadRetailersFromStorage (localStorage (step m e))
          = Some (to_json_or_null (VArr (map row_value newRows)))
       /\ getCurrentData (step m e) = None.
Proof.
  assert (Hkeep : retailers_item (settle (handler e m) m) = retailers_item m ->
                  localStorage (step m e) !! "retailers" = localStorage m !! "retailers").
  { intros Hh. apply (step_keeps retailers_item); try reflexivity; [|exact Hh].
    intros v x. unfold retailers_item. cbn. apply lookup_insert_ne. discriminate. }
  unfold retailers_item in Hkeep.
  destruct e;
    try (left; apply Hkeep; cbn [handler]; unfold_handlers;
         repeat case_match; simplify_eq; cbn;
         rewrite ?lookup_insert_ne by discriminate; reflexivity).
  - (* onRowsChange *)
    destruct (decide (selectedCategory m = Some "Retailers")) as [Hsel|Hsel].
    + right. exists newRows. split; [reflexivity|]. split; [exact Hsel|].
      assert (Hh : exists cat,
                 handler (RowsChange newRows) m
                 = Ok (saveRetailersToStorage newRows (setCategoryData cat m))).
      { eexists. cbn [handler]. unfold onRowsChange, updateCurrentData.
        rewrite Hsel. change (startsWith "scorecard_" "Retailers") with false.
        cbn [bind]. unfold when_retailers. cbn [selectedCategory setCategoryData].
        rewrite Hsel, bool_decide_eq_true_2 by reflexivity. reflexivity. }
      destruct Hh as [cat Hh].
      rewrite (step_plain _ _ _ Hh eq_refl eq_refl). split.
      * unfold loadRetailersFromStorage, saveRetailersToStorage. cbn [localStorage setItem].
        rewrite lookup_insert_eq.
        rewrite (proj2 (is_empty_false _) (Json.stringify_nonempty _)).
        apply Json.parse_stringify.
      * unfold getCurrentData, saveRetailersToStorage.
        cbn [selectedCategory setItem setCategoryData]. rewrite Hsel. reflexivity.
    + left. apply Hkeep. cbn [handler]. unfold_handlers.
      repeat case_match; simplify_eq; cbn; try reflexivity;
        match goal with
        | Hb : bool_decide _ = true |- _ =>
            apply bool_decide_eq_true_1 in Hb; cbn in Hb; congruence
        end.
  - (* handleAddRow *)
    left. apply Hkeep. cbn [handler]. unfold handleAddRow.
    destruct (getCurrentData m) as [cd|] eqn:Hcd; [|reflexivity].
    destruct (updateCurrentData_current (only_rows (rows cd ++ [new_row cd])) m cd Hcd)
      as (sel & Hsel & Hpre & -> & _).
    cbn [bind]. rewrite (when_retailers_scorecard _ _ sel) by assumption. reflexivity.
  - (* handleDeleteRow *)
    left. apply Hkeep. cbn [handler]. unfold handleDeleteRow.
    destruct (getCurrentData m) as [cd|] eqn:Hcd; [|reflexivity].
    destruct (updateCurrentData_current
                (only_rows (List.filter (fun r => negb (id_is (IdNum rowId) r)) (rows cd)))
                m cd Hcd)
      as (sel & Hsel & Hpre & -> & _).
    cbn [bind]. rewrite (when_retailers_scorecard _ _ sel) by assumption. reflexivity.
Qed.

Lemma retailers_item_written_by_onRowsChange_only_witness :
  loadRetailersFromStorage (H := text_codec)
    (localStorage (step (H := text_codec)
                     (setSelectedCategory (Some "Retailers") (fresh "ADMIN"))
                     (RowsChange [ {["id" := VNum 1]} ])))
  = Some (to_json_or_null (VArr (map row_value [ {["id" := VNum 1]} ]))).
Proof.
  destruct (retailers_item_written_by_onRowsChange_only (H := text_codec)
              (setSelectedCategory (Some "Retailers") (fresh "ADMIN"))
              (RowsChange [ {["id" := VNum 1]} ]))
    as [Hsame | (newRows & He & _ & Hload & _)].
  - vm_compute in Hsame. discriminate.
  - injection He as <-. exact Hload.
Defined.

(** ** Sorting by a click on a header *)

(** X14.  [handleSortClick] sorts by one column at a time: after a click on
    a column the sort list is empty or holds that column alone, so every
    other column shows the neutral icon.  The clicks on one column go
    round: unsorted, ascending, descending, unsorted; from any state, four
    clicks leave what one click leaves. *)
Theorem handleSortClick_cycle (m : Model) (k : string) :
  let click := handleSortClick k in
  (sortColumns (click m) = []
   \/ exists d, sortColumns (click m) = [ {| columnKey := k; direction := d |} ])
  /\ click (click (click (click m))) = click m
  /\ (forall k', k' <> k -> getSortIcon k' (click m) = FaSort)
  /\ (getSortIcon k m = FaSort ->
      getSortIcon k (click m) = FaSortUp
      /\ getSortIcon k (click (click m)) = FaSortDown
      /\ getSortIcon k (click (click (click m))) = FaSort).
Proof.
  cbv zeta. unfold handleSortClick, getSortIcon.
  destruct (List.find _ (sortColumns m)) as [[k0 []]|] eqn:Hfind; cbn;
    rewrite ?bool_decide_eq_true_2 by reflexivity; cbn;
    rewrite ?bool_decide_eq_true_2 by reflexivity; cbn;
    rewrite ?bool_decide_eq_true_2 by reflexivity; cbn.
  all: repeat split; eauto; try discriminate.
  all: intros k' Hk'; rewrite bool_decide_eq_false_2 by congruence; reflexivity.
Qed.

Lemma handleSortClick_cycle_witness :
  getSortIcon "buyer" (handleSortClick "buyer" sample_model) = FaSortUp
  /\ getSortIcon "buyer" (handleSortClick "buyer" (handleSortClick "buyer" sample_model))
     = FaSortDown
  /\ getSortIcon "buyer"
       (handleSortClick "buyer"
          (handleSortClick "buyer" (handleSortClick "buyer" sample_model)))
     = FaSort.
Proof.
  pose proof (handleSortClick_cycle sample_model "buyer") as Hthm.
  cbv zeta in Hthm. destruct Hthm as (_ & _ & _ & Hicons).
  apply Hicons. reflexivity.
Defined.

(** ** Editing and deleting a comment *)

Section CommentEdits.
Context `{Codec}.

Lemma comments_of_set sel r (l : list Comment) rc cs category r' :
  cs !! sel = Some rc ->
  comments_of (<[sel := <[r := l]> rc]> cs) category r'
  = if bool_decide (category = sel /\ r' = r) then l else comments_of cs category r'.
Proof.
  intros Hrc. unfold comments_of.
  destruct (decide (category = sel)) as [->|Hc].
  - rewrite lookup_insert_eq. cbn. destruct (decide (r' = r)) as [->|Hr].
    + rewrite lookup_insert_eq, bool_decide_eq_true_2 by auto. reflexivity.
    + rewrite lookup_insert_ne by congruence.
      rewrite bool_decide_eq_false_2 by tauto. rewrite Hrc. reflexivity.
  - rewrite lookup_insert_ne by congruence.
    rewrite bool_decide_eq_false_2 by tauto. reflexivity.
Qed.

(** X15.  When the row has a list of comments, the button that deletes the
    comment at an index succeeds: the list loses that comment and keeps the
    others in their order (with an index past the end it stays as it is),
    the comments of every other row and ScoreCard stay, the new map is
    written to the storage and the ScoreCards are not touched. *)
Theorem deleteComment_spec (m : Model) (r : Z) (i : nat) (l : list Comment) :
  let sel := selected_key m in
  (exists rc, comments m !! sel = Some rc /\ rc !! r = Some l) ->
  exists m',
    deleteComment (IdNum r) i m = Ok m'
    /\ comments_of (comments m') sel r = take i l ++ drop (S i) l
    /\ ((i < length l)%nat ->
        length (comments_of (comments m') sel r) = (length l - 1)%nat)
    /\ ((length l <= i)%nat -> comments_of (comments m') sel r = l)
    /\ (forall j, (j < i)%nat -> comments_of (comments m') sel r !! j = l !! j)
    /\ (forall j, (i <= j)%nat -> comments_of (comments m') sel r !! j = l !! S j)
    /\ (forall category r', (category, r') <> (sel, r) ->
          comments_of (comments m') category r' = comments_of (comments m) category r')
    /\ localStorage m' !! "scorecardComments"
       = Some (stringify (to_json_or_null (comments_value (comments m'))))
    /\ scorecards m' = scorecards m.
Proof.
  intros sel (rc & Hrc & Hl). unfold deleteComment.
  cbn [mbind option_bind]. fold sel.
  rewrite Hrc. cbn [mbind option_bind]. rewrite Hl. cbn [mbind option_bind].
  eexists. split; [reflexivity|]. cbn [comments setComments saveScorecardComments setItem localStorage scorecards].
  assert (Hsame : comments_of (<[sel := <[r := take i l ++ drop (S i) l]> rc]> (comments m))
                              sel r = take i l ++ drop (S i) l).
  { rewrite (comments_of_set _ _ _ _ _ _ _ Hrc).
    rewrite bool_decide_eq_true_2 by auto. reflexivity. }
  rewrite Hsame.
  split; [reflexivity|].
  split.
  { intros Hi. rewrite length_app, length_take, length_drop. lia. }
  split.
  { intros Hi. rewrite take_ge by lia. rewrite drop_ge by lia. apply app_nil_r. }
  split.
  { intros j Hj. destruct (decide (i <= length l)%nat).
    - rewrite lookup_app_l by (rewrite length_take; lia).
      apply lookup_take_lt. exact Hj.
    - rewrite take_ge by lia. rewrite drop_ge by lia. rewrite app_nil_r. reflexivity. }
  split.
  { intros j Hj. destruct (decide (i <= length l)%nat).
    - rewrite lookup_app_r by (rewrite length_take; lia).
      rewrite length_take, lookup_drop. f_equal. lia.
    - rewrite take_ge by lia. rewrite drop_ge by lia. rewrite app_nil_r.
      rewrite !lookup_ge_None_2 by lia. reflexivity. }
  split.
  { intros category r' Hne. rewrite (comments_of_set _ _ _ _ _ _ _ Hrc).
    rewrite bool_decide_eq_false_2; [reflexivity|].
    intros [-> ->]. apply Hne. reflexivity. }
  split; [apply lookup_insert_eq | reflexivity].
Qed.

(** X16.  When the row has a list of comments, saving an edited comment
    replaces the text of the comment at the index and keeps its time and
    its author, the number and the order of the comments of the row, and
    the comments of every other row and ScoreCard; the new map is written
    to the storage.  With an index past the end the handler throws. *)
Theorem saveEditedComment_spec (m : Model) (r : Z) (i : nat) (t : string)
    (l : list Comment) :
  let sel := selected_key m in
  (exists rc, comments m !! sel = Some rc /\ rc !! r = Some l) ->
  ((length l <= i)%nat ->
     exists msg, saveEditedComment (IdNum r) i t m = Throw (TypeError msg))
  /\ (forall c, l !! i = Some c ->
        exists m',
          saveEditedComment (IdNum r) i t m = Ok m'
          /\ comments_of (comments m') sel r
             = <[i := {| text := t; timestamp := timestamp c; username := username c |}]> l
          /\ length (comments_of (comments m') sel r) = length l
          /\ (forall j, j <> i -> comments_of (comments m') sel r !! j = l !! j)
          /\ (forall category r', (category, r') <> (sel, r) ->
                comments_of (comments m') category r'
                = comments_of (comments m) category r')
          /\ localStorage m' !! "scorecardComments"
             = Some (stringify (to_json_or_null (comments_value (comments m'))))).
Proof.
  intros sel (rc & Hrc & Hl). unfold saveEditedComment.
  cbn [mbind option_bind]. fold sel. rewrite Hrc. cbn [mbind option_bind].
  rewrite Hl. cbn [mbind option_bind]. split.
  - intros Hi. rewrite (lookup_ge_None_2 l i Hi). cbn. eauto.
  - intros c Hc. rewrite Hc. cbn [mbind option_bind].
    eexists. split; [reflexivity|]. cbn [comments setComments saveScorecardComments setItem localStorage scorecards].
    rewrite (comments_of_set _ _ _ _ _ _ _ Hrc).
    rewrite bool_decide_eq_true_2 by auto.
    split; [reflexivity|].
    split; [apply length_insert|].
    split; [intros j Hj; apply list_lookup_insert_ne; congruence|].
    split; [|apply lookup_insert_eq].
    intros category r' Hne. rewrite (comments_of_set _ _ _ _ _ _ _ Hrc).
    rewrite bool_decide_eq_false_2; [reflexivity|].
    intros [-> ->]. apply Hne. reflexivity.
Qed.

Lemma commentCount_ext m m' :
  selectedCategory m' = selectedCategory m ->
  (forall category r, comments_of (comments m') category r
                      = comments_of (comments m) category r) ->
  forall row, commentCount m' row = commentCount m row.
Proof.
  intros Hsel Hcs row. unfold commentCount, selected_key. rewrite Hsel.
  destruct (row !! "id") as [[[| | |n|]| | | |]|]; try reflexivity.
  rewrite Hcs. reflexivity.
Qed.

(** X17.  Adding a comment to a row and deleting the last comment of the
    row restores the comments: the row counts one comment more after the
    first step, and after the second every row of every ScoreCard has the
    comments, and shows the count, it had at the start. *)
Theorem added_comment_can_be_deleted (now : string) (m : Model)
    (sel : string) (rowId : Z) :
  trim (commentInput m) <> "" ->
  selectedCategory m = Some sel -> startsWith "scorecard_" sel = true ->
  openCommentRowId m = Some rowId ->
  let n := length (comments_of (comments m) sel rowId) in
  exists m1 m2,
    handleAddComment now m = Ok m1
    /\ deleteComment (IdNum rowId) n m1 = Ok m2
    /\ (forall row, row !! "id" = Some (VNum rowId) ->
          commentCount m row = n /\ commentCount m1 row = S n)
    /\ (forall category r,
          comments_of (comments m2) category r = comments_of (comments m) category r)
    /\ (forall row, commentCount m2 row = commentCount m row).
Proof.
  intros Hinput Hsel Hpre Hrow n.
  set (c := {| text := trim (commentInput m); timestamp := now;
               username := current_username (user m) |}).
  set (old := comments_of (comments m) sel rowId) in *.
  set (rc := <[rowId := old ++ [c]]> (default ∅ (comments m !! sel))).
  set (m1 := setCommentInput ""
               (setComments (add_comment sel rowId c (comments m))
                  (saveScorecardComments (add_comment sel rowId c (comments m)) m))).
  assert (H1 : handleAddComment now m = Ok m1).
  { unfold handleAddComment.
    rewrite (proj2 (is_empty_false _) Hinput), Hrow, Hsel, Hpre. reflexivity. }
  assert (Hrc : comments m1 !! sel = Some rc).
  { cbn. unfold add_comment. apply lookup_insert_eq. }
  assert (Hold : take n (old ++ [c]) ++ drop (S n) (old ++ [c]) = old).
  { unfold n. rewrite take_app_length.
    rewrite drop_ge by (rewrite length_app; cbn; lia). apply app_nil_r. }
  set (m2 := setComments (<[sel := <[rowId := old]> rc]> (comments m1))
               (saveScorecardComments (<[sel := <[rowId := old]> rc]> (comments m1)) m1)).
  assert (H2 : deleteComment (IdNum rowId) n m1 = Ok m2).
  { unfold deleteComment. cbn [mbind option_bind].
    assert (Hkey : selected_key m1 = sel) by (unfold selected_key; cbn; rewrite Hsel; reflexivity).
    rewrite Hkey, Hrc. cbn [mbind option_bind].
    assert (Hl : rc !! rowId = Some (old ++ [c])) by apply lookup_insert_eq.
    rewrite Hl. cbn [mbind option_bind]. rewrite Hold. reflexivity. }
  assert (Hback : forall category r,
            comments_of (comments m2) category r = comments_of (comments m) category r).
  { intros category r. cbn [comments m2 setComments].
    rewrite (comments_of_set _ _ _ _ _ _ _ Hrc).
    destruct (bool_decide (category = sel /\ r = rowId)) eqn:Hb.
    - apply bool_decide_eq_true_1 in Hb as [-> ->]. reflexivity.
    - apply bool_decide_eq_false_1 in Hb. cbn.
      apply comments_of_add_other. intros [= -> ->]. tauto. }
  exists m1, m2. split; [exact H1|]. split; [exact H2|].
  split.
  { intros row Hid. unfold commentCount, selected_key. rewrite Hid. cbn.
    rewrite Hsel. cbn. fold old. split; [reflexivity|].
    rewrite comments_of_add_same. rewrite length_app. cbn. fold old. lia. }
  split; [exact Hback|].
  apply commentCount_ext; [reflexivity | exact Hback].
Qed.

(** ** The two ways to add a comment *)

(** X18.  The button Add Comment of the drawer and [handleAddComment] build
    the same state when the drawer is open on a row of the current grid.
    They differ when the grid has no row with the id of the drawer: the
    drawer then drops the comment (it clears the input and writes the map,
    with the same comments, to the storage), while [handleAddComment] adds
    the comment whether the row exists or not. *)
Theorem drawerAddComment_spec (now : string) (m : Model) (sel : string) (d : Z) :
  selectedCategory m = Some sel -> startsWith "scorecard_" sel = true ->
  ((exists row, row ∈ current_rows m /\ row !! "id" = Some (VNum d)) ->
   handleAddComment now (setOpenCommentRowId (Some d) m)
   = Ok (setOpenCommentRowId (Some d) (drawerAddComment (Some d) now m)))
  /\ ((forall row, row ∈ current_rows m -> row !! "id" <> Some (VNum d)) ->
      trim (commentInput m) <> "" ->
      let m' := drawerAddComment (Some d) now m in
      (forall category r,
         comments_of (comments m') category r = comments_of (comments m) category r)
      /\ commentInput m' = ""
      /\ localStorage m' !! "scorecardComments"
         = Some (stringify (to_json_or_null (comments_value (comments m'))))
      /\ exists m1,
           handleAddComment now (setOpenCommentRowId (Some d) m) = Ok m1
           /\ length (comments_of (comments m1) sel d)
              = S (length (comments_of (comments m) sel d))).
Proof.
  intros Hsel Hpre.
  assert (Hne : is_empty sel = false) by (apply startsWith_not_empty, Hpre).
  split.
  - intros (row & Hin & Hid).
    assert (Hex : existsb (id_is (IdNum d)) (current_rows m) = true).
    { apply existsb_exists. exists row. split; [apply list_elem_of_In, Hin|].
      unfold id_is. rewrite Hid. apply bool_decide_eq_true_2. reflexivity. }
    unfold handleAddComment, drawerAddComment.
    cbn [commentInput setOpenCommentRowId openCommentRowId selectedCategory user comments].
    destruct (is_empty (trim (commentInput m))); [reflexivity|].
    rewrite Hsel, Hpre, Hne, Hex. reflexivity.
  - intros Hnone Hinput m'.
    assert (Hex : existsb (id_is (IdNum d)) (current_rows m) = false).
    { destruct (existsb _ _) eqn:Hex; [|reflexivity].
      apply existsb_exists in Hex as (row & Hin & Hid).
      apply list_elem_of_In in Hin. specialize (Hnone row Hin).
      unfold id_is in Hid.
      destruct (row !! "id") as [[[| | |k|]| | | |]|]; try discriminate.
      apply bool_decide_eq_true_1 in Hid. subst k. destruct Hnone. reflexivity. }
    assert (Hm' : m' = setCommentInput ""
                         (setComments (<[sel := default ∅ (comments m !! sel)]> (comments m))
                            (saveScorecardComments
                               (<[sel := default ∅ (comments m !! sel)]> (comments m)) m))).
    { unfold m', drawerAddComment.
      rewrite (proj2 (is_empty_false _) Hinput), Hsel, Hne, Hex. reflexivity. }
    rewrite Hm'. cbn [comments commentInput setCommentInput setComments].
    split.
    { intros category r. unfold comments_of.
      destruct (decide (category = sel)) as [->|Hc].
      - rewrite lookup_insert_eq. cbn. reflexivity.
      - rewrite lookup_insert_ne by congruence. reflexivity. }
    split; [reflexivity|].
    split; [apply lookup_insert_eq|].
    eexists. split.
    + unfold handleAddComment.
      cbn [commentInput setOpenCommentRowId openCommentRowId selectedCategory user comments].
      rewrite (proj2 (is_empty_false _) Hinput), Hsel, Hpre. reflexivity.
    + cbn [comments setCommentInput setComments].
      rewrite comments_of_add_same, length_app. cbn. lia.
Qed.

End CommentEdits.

Definition first_note : Comment :=
  {| text := "call the buyer"; timestamp := "1/2/2024, 9:00:00 AM"; username := "ann" |}.

Definition second_note : Comment :=
  {| text := "sent samples"; timestamp := "1/3/2024, 4:30:00 PM"; username := "bob" |}.

(** The sample ScoreCard with two comments on its first row. *)
Definition commented_model : Model :=
  setComments {[ "scorecard_1700000000000" := {[ 1%Z := [first_note; second_note] ]} ]}
              sample_model.

Lemma deleteComment_spec_witness :
  exists m',
    deleteComment (H := text_codec) (IdNum 1) 0 commented_model = Ok m'
    /\ comments_of (comments m') "scorecard_1700000000000" 1 = [second_note].
Proof.
  destruct (deleteComment_spec (H := text_codec) commented_model 1 0
              [first_note; second_note])
    as (m' & Hrun & Hrest & _).
  - eexists. split; reflexivity.
  - exists m'. split; [exact Hrun | exact Hrest].
Defined.

Lemma saveEditedComment_spec_witness :
  (exists msg, saveEditedComment (H := text_codec) (IdNum 1) 2 "later" commented_model
               = Throw (TypeError msg))
  /\ exists m',
       saveEditedComment (H := text_codec) (IdNum 1) 1 "sent two samples" commented_model
       = Ok m'
       /\ comments_of (comments m') "scorecard_1700000000000" 1
          = [ first_note;
              {| text := "sent two samples"; timestamp := "1/3/2024, 4:30:00 PM";
                 username := "bob" |} ].
Proof.
  split.
  - apply (saveEditedComment_spec (H := text_codec) commented_model 1 2 "later"
             [first_note; second_note]).
    + eexists. split; reflexivity.
    + cbn. lia.
  - destruct (saveEditedComment_spec (H := text_codec) commented_model 1 1
                "sent two samples" [first_note; second_note]) as [_ Hedit].
    + eexists. split; reflexivity.
    + destruct (Hedit second_note eq_refl) as (m' & Hrun & Hlist & _).
      exists m'. split; [exact Hrun | exact Hlist].
Defined.

(** The sample ScoreCard with a comment typed for its first row. *)
Definition typing_model : Model :=
  setCommentInput " ok " (setOpenCommentRowId (Some 1%Z) commented_model).

Lemma added_comment_can_be_deleted_witness :
  exists m1 m2,
    handleAddComment (H := text_codec) "now" typing_model = Ok m1
    /\ deleteComment (H := text_codec) (IdNum 1) 2 m1 = Ok m2
    /\ comments_of (comments m2) "scorecard_1700000000000" 1
       = [first_note; second_note].
Proof.
  destruct (added_comment_can_be_deleted (H := text_codec) "now" typing_model
              "scorecard_1700000000000" 1) as (m1 & m2 & Hadd & Hdel & _ & Hback & _);
    [discriminate | reflexivity | reflexivity | reflexivity |].
  exists m1, m2. split; [exact Hadd|]. split; [exact Hdel|].
  rewrite Hback. reflexivity.
Defined.

Lemma drawerAddComment_spec_witness :
  handleAddComment (H := text_codec) "now" (setOpenCommentRowId (Some 1%Z) typing_model)
  = Ok (setOpenCommentRowId (Some 1%Z)
          (drawerAddComment (H := text_codec) (Some 1%Z) "now" typing_model)).
Proof.
  apply (drawerAddComment_spec (H := text_codec) "now" typing_model
           "scorecard_1700000000000" 1 eq_refl eq_refl).
  exists (<["name" := VStr "Item 1"]> {["id" := VNum 1]}).
  split; [apply list_elem_of_here | reflexivity].
Defined.

(** ** Sub-grids *)

Lemma setSubGrids_same m : setSubGrids (subGrids m) m = m.
Proof. destruct m; reflexivity. Qed.

Lemma grid_at_own p g (grids : gmap string SubGrid) :
  grids !! prop_key p = Some g -> grid_at p grids = Some g.
Proof. unfold grid_at. intros ->. reflexivity. Qed.

Lemma grid_at_none p (grids : gmap string SubGrid) :
  grids !! prop_key p = None -> inherited (prop_key p) = false -> grid_at p grids = None.
Proof. unfold grid_at. intros -> ->. reflexivity. Qed.

Lemma grid_at_inherited p (grids : gmap string SubGrid) :
  grids !! prop_key p = None -> inherited (prop_key p) = true ->
  grid_at p grids = Some no_fields.
Proof. unfold grid_at. intros -> ->. reflexivity. Qed.

(** X19.  [handleToggleSubGrid] flips the flag [expanded] of the sub-grid of
    the parent and touches nothing else, neither the columns and rows of
    that sub-grid nor another sub-grid; toggling twice gives back the state
    when the parent has a sub-grid whose flag is defined.  A parent without
    a sub-grid is left as it is, unless its id is a property name that every
    object inherits (['constructor'], ['toString'], ...): then the inherited
    value is taken for a sub-grid, and the parent gets an entry that holds
    the flag [true] and neither columns nor rows. *)
Theorem handleToggleSubGrid_involution (m : Model) (p : Ident) :
  (forall g b, subGrids m !! prop_key p = Some g -> sg_expanded g = Some b ->
     subGrids (handleToggleSubGrid (Some p) m) !! prop_key p
     = Some {| sg_columns := sg_columns g; sg_rows := sg_rows g;
               sg_expanded := Some (negb b) |}
     /\ handleToggleSubGrid (Some p) (handleToggleSubGrid (Some p) m) = m)
  /\ (subGrids m !! prop_key p = None -> inherited (prop_key p) = false ->
      handleToggleSubGrid (Some p) m = m)
  /\ (subGrids m !! prop_key p = None -> inherited (prop_key p) = true ->
      subGrids (handleToggleSubGrid (Some p) m) !! prop_key p
      = Some {| sg_columns := None; sg_rows := None; sg_expanded := Some true |})
  /\ (forall q, q <> prop_key p ->
        subGrids (handleToggleSubGrid (Some p) m) !! q = subGrids m !! q).
Proof.
  split; [|split; [|split]].
  - intros g b Hg Hb.
    assert (Hinner : handleToggleSubGrid (Some p) m
                     = with_grid p {| sg_columns := sg_columns g; sg_rows := sg_rows g;
                                      sg_expanded := Some (negb b) |} m).
    { unfold handleToggleSubGrid. rewrite (grid_at_own _ _ _ Hg), Hb. reflexivity. }
    rewrite Hinner. split; [cbn; apply lookup_insert_eq|].
    unfold handleToggleSubGrid, grid_at, with_grid. cbn [subGrids setSubGrids].
    rewrite lookup_insert_eq.
    cbn [sg_columns sg_rows sg_expanded default from_option id].
    rewrite negb_involutive, insert_insert_eq.
    replace {| sg_columns := sg_columns g; sg_rows := sg_rows g; sg_expanded := Some b |}
      with g by (destruct g; cbn in *; congruence).
    rewrite (insert_id _ _ _ Hg). destruct m; reflexivity.
  - intros Hnone Hinh. unfold handleToggleSubGrid.
    rewrite (grid_at_none _ _ Hnone Hinh). reflexivity.
  - intros Hnone Hinh. unfold handleToggleSubGrid.
    rewrite (grid_at_inherited _ _ Hnone Hinh). cbn. apply lookup_insert_eq.
  - intros q Hq. unfold handleToggleSubGrid.
    destruct (grid_at p (subGrids m)); [|reflexivity].
    cbn. apply lookup_insert_ne. congruence.
Qed.

Definition subgrid_model : Model := handleAddSubGrid (IdNum 1) sample_model.

Lemma handleToggleSubGrid_involution_witness :
  handleToggleSubGrid (Some (IdNum 1)) (handleToggleSubGrid (Some (IdNum 1)) subgrid_model)
  = subgrid_model
  /\ (sg_expanded <$> subGrids (handleToggleSubGrid (Some (IdNum 1)) subgrid_model)
                        !! prop_key (IdNum 1))
     = Some (Some false)
  /\ subGrids (handleToggleSubGrid (Some (IdStr "constructor")) subgrid_model)
       !! "constructor"
     = Some {| sg_columns := None; sg_rows := None; sg_expanded := Some true |}.
Proof.
  destruct (handleToggleSubGrid_involution subgrid_model (IdNum 1)) as (Hflip & _).
  destruct (handleToggleSubGrid_involution subgrid_model (IdStr "constructor"))
    as (_ & _ & Hinh & _).
  destruct (Hflip {| sg_columns := Some [text_column "note" "Note"]; sg_rows := Some [];
                     sg_expanded := Some true |} true eq_refl eq_refl)
    as [Hone Htwice].
  split; [exact Htwice|]. split; [rewrite Hone; reflexivity|].
  apply Hinh; reflexivity.
Defined.

Definition task_grid : SubGrid :=
  {| sg_columns := Some [text_column "task" "Task"]; sg_rows := Some [];
     sg_expanded := Some true |}.

Definition note_grid : SubGrid :=
  {| sg_columns := Some [text_column "note" "Note"]; sg_rows := Some [];
     sg_expanded := Some true |}.

(** X20.  [ensureSubGrid] creates the sub-grid of a parent, with the one
    column Task, only when the parent has none and its id is not a property
    name that every object inherits; so it never replaces a sub-grid, and
    doing it twice is doing it once.  [handleAddSubGrid] installs the
    sub-grid with the one column Note whatever was there, so the rows of an
    existing sub-grid are lost; [handleDeleteSubGrid] removes what
    [handleAddSubGrid] made, and gives back the state when the parent had
    no sub-grid.  The sub-grids are kept by the property name of the id: a
    number below [10^21] and the string of its digits address one sub-grid. *)
Theorem subgrid_creation_and_deletion (m : Model) (p : Ident) :
  let k := prop_key p in
  (subGrids m !! k = None -> inherited k = false ->
     subGrids (ensureSubGrid (Some p) m) !! k = Some task_grid)
  /\ (is_Some (subGrids m !! k) \/ inherited k = true -> ensureSubGrid (Some p) m = m)
  /\ ensureSubGrid (Some p) (ensureSubGrid (Some p) m) = ensureSubGrid (Some p) m
  /\ subGrids (handleAddSubGrid p m) !! k = Some note_grid
  /\ subGrids (handleDeleteSubGrid (Some p) (handleAddSubGrid p m))
     = delete k (subGrids m)
  /\ (subGrids m !! k = None ->
      handleDeleteSubGrid (Some p) (handleAddSubGrid p m) = m)
  /\ (forall n, (Z.abs n < 10 ^ 21)%Z ->
        handleAddSubGrid (IdStr (number_string n)) m = handleAddSubGrid (IdNum n) m
        /\ handleDeleteSubGrid (Some (IdStr (number_string n))) m
           = handleDeleteSubGrid (Some (IdNum n)) m
        /\ ensureSubGrid (Some (IdStr (number_string n))) m
           = ensureSubGrid (Some (IdNum n)) m).
Proof.
  cbv zeta.
  split; [|split; [|split; [|split; [|split; [|split]]]]].
  - intros Hnone Hinh. unfold ensureSubGrid.
    rewrite (grid_at_none _ _ Hnone Hinh). cbn. apply lookup_insert_eq.
  - intros Hsome. unfold ensureSubGrid, grid_at.
    destruct (subGrids m !! prop_key p) as [g|]; [reflexivity|].
    destruct Hsome as [[g Hg] | ->]; [discriminate | reflexivity].
  - unfold ensureSubGrid at 2 3.
    destruct (grid_at p (subGrids m)) as [g|] eqn:Hg.
    + unfold ensureSubGrid. rewrite Hg. reflexivity.
    + unfold ensureSubGrid, grid_at, with_grid. cbn [subGrids setSubGrids].
      rewrite lookup_insert_eq. reflexivity.
  - cbn. apply lookup_insert_eq.
  - cbn. apply delete_insert_eq.
  - intros Hnone. unfold handleDeleteSubGrid, handleAddSubGrid, with_grid.
    cbn [subGrids setSubGrids].
    rewrite delete_insert_eq, (delete_id _ _ Hnone).
    destruct m; reflexivity.
  - intros n _. repeat split; reflexivity.
Qed.

Lemma subgrid_creation_and_deletion_witness :
  handleAddSubGrid (IdStr "1") sample_model = handleAddSubGrid (IdNum 1) sample_model
  /\ handleDeleteSubGrid (Some (IdNum 1)) (handleAddSubGrid (IdNum 1) sample_model)
     = sample_model
  /\ ensureSubGrid (Some (IdStr "toString")) sample_model = sample_model.
Proof.
  pose proof (subgrid_creation_and_deletion sample_model (IdNum 1)) as Hthm.
  pose proof (subgrid_creation_and_deletion sample_model (IdStr "toString")) as Hinh.
  cbv zeta in Hthm, Hinh.
  destruct Hthm as (_ & _ & _ & _ & _ & Hback & Hsame).
  destruct Hinh as (_ & Hkeep & _).
  split; [apply (Hsame 1%Z); reflexivity|].
  split; [apply Hback; reflexivity|].
  apply Hkeep. right. reflexivity.
Defined.

(** ** Rows and columns of a sub-grid *)

Lemma fold_assign_keeps (cols : list MyColumn) (r : Row) k v :
  r !! k = Some v -> (forall c, c ∈ cols -> col_key c <> k) ->
  fold_left (fun (r : Row) col => js_assign (col_key col) (VStr "") r) cols r !! k
  = Some v.
Proof.
  revert r. induction cols as [|c cols IH]; intros r Hr Hk; [exact Hr|].
  cbn [fold_left]. apply IH.
  - rewrite js_assign_other; [exact Hr|]. apply Hk, list_elem_of_here.
  - intros c' Hc'. apply Hk, list_elem_of_further, Hc'.
Qed.

Lemma fold_assign_sets (cols : list MyColumn) (r : Row) k :
  Exists (fun c => col_key c = k) cols -> k <> "__proto__" ->
  fold_left (fun (r : Row) col => js_assign (col_key col) (VStr "") r) cols r !! k
  = Some (VStr "").
Proof.
  revert r. induction cols as [|x cols IH]; intros r Hc Hproto.
  - inversion Hc.
  - cbn [fold_left].
    destruct (decide (Exists (fun c => col_key c = k) cols)) as [Hex|Hno].
    + apply IH; assumption.
    + apply Exists_cons in Hc as [Hx|Hc]; [|contradiction].
      apply fold_assign_keeps.
      * rewrite Hx. apply js_assign_same. exact Hproto.
      * intros y Hy Hky. apply Hno, Exists_exists. eauto.
Qed.

(** X21.  [handleSubGridAddRow] appends one row to the sub-grid of the
    parent when that sub-grid has columns and rows, and to the empty
    sub-grid when the parent has none and its id is not a property name that
    every object inherits; the columns, the flag, the other sub-grids and
    the ScoreCards stay.  The new row maps every column key other than
    ['__proto__'] to the empty string; when no column has the key ['id'],
    its id is 1 for a sub-grid without rows and, when the numeric ids are
    safe integers, greater than the id of every row, a row whose id is not a
    number counting as 0.  For a parent without a sub-grid whose id is an
    inherited property name, the handler throws. *)
Theorem handleSubGridAddRow_spec (m : Model) (p : Ident) :
  (forall grid cols rws,
     subGrids m !! prop_key p = Some grid
     \/ (subGrids m !! prop_key p = None /\ inherited (prop_key p) = false
         /\ grid = empty_grid) ->
     sg_columns grid = Some cols -> sg_rows grid = Some rws ->
     exists m' newRow,
       handleSubGridAddRow (Some p) m = Ok m'
       /\ subGrids m' !! prop_key p
          = Some {| sg_columns := Some cols; sg_rows := Some (rws ++ [newRow]);
                    sg_expanded := sg_expanded grid |}
       /\ (forall q, q <> prop_key p -> subGrids m' !! q = subGrids m !! q)
       /\ ((forall c, c ∈ cols -> col_key c <> "id") ->
           newRow !! "id" = Some (VNum (next_id rws)))
       /\ ((forall r, r ∈ rws -> safe_integer (numeric_id r)) ->
           forall r, r ∈ rws -> (numeric_id r < next_id rws)%Z)
       /\ (rws = [] -> next_id rws = 1%Z)
       /\ (forall c, c ∈ cols -> col_key c <> "__proto__" ->
             newRow !! col_key c = Some (VStr ""))
       /\ scorecards m' = scorecards m)
  /\ (subGrids m !! prop_key p = None -> inherited (prop_key p) = true ->
      exists msg, handleSubGridAddRow (Some p) m = Throw (TypeError msg)).
Proof.
  split.
  - intros grid cols rws Hgrid Hcols Hrws.
    assert (Hat : default empty_grid (grid_at p (subGrids m)) = grid).
    { destruct Hgrid as [Hg | (Hnone & Hinh & ->)].
      - rewrite (grid_at_own _ _ _ Hg). reflexivity.
      - rewrite (grid_at_none _ _ Hnone Hinh). reflexivity. }
    unfold handleSubGridAddRow. rewrite Hat.
    unfold rows_of, columns_of. rewrite Hrws, Hcols. cbn [bind].
    eexists. eexists. split; [reflexivity|].
    split; [cbn; rewrite <- Hcols; apply lookup_insert_eq|].
    split; [intros q Hq; cbn; apply lookup_insert_ne; congruence|].
    split.
    { intros Hid. apply fold_assign_keeps; [apply lookup_singleton_eq | exact Hid]. }
    split; [intros Hsafe r Hr; apply next_id_above; assumption|].
    split; [intros ->; reflexivity|].
    split; [|reflexivity].
    intros c Hc Hproto. apply fold_assign_sets; [|exact Hproto].
    apply Exists_exists. eauto.
  - intros Hnone Hinh. unfold handleSubGridAddRow.
    rewrite (grid_at_inherited _ _ Hnone Hinh). cbn. eauto.
Qed.

Lemma handleSubGridAddRow_spec_witness :
  (exists m',
     handleSubGridAddRow (Some (IdNum 1)) subgrid_model = Ok m'
     /\ (sg_rows <$> subGrids m' !! "1")
        = Some (Some [ <["note" := VStr ""]> {["id" := VNum 1]} ]))
  /\ exists msg,
       handleSubGridAddRow (Some (IdStr "constructor")) subgrid_model
       = Throw (TypeError msg).
Proof.
  destruct (handleSubGridAddRow_spec subgrid_model (IdNum 1)) as (Hrow & _).
  destruct (handleSubGridAddRow_spec subgrid_model (IdStr "constructor"))
    as (_ & Hthrows).
  split; [|apply Hthrows; reflexivity].
  destruct (Hrow note_grid [text_column "note" "Note"] [] (or_introl eq_refl)
                 eq_refl eq_refl)
    as (m' & newRow & Hrun & _).
  exists m'. split; [exact Hrun|].
  vm_compute in Hrun. injection Hrun as <-. reflexivity.
Defined.

(** X22.  [handleSubGridRowsChange] on a parent that has no sub-grid makes
    one that holds the rows and nothing else: its columns and its flag are
    undefined.  On such a sub-grid the handlers that read the columns
    (adding a row or a column, renaming or deleting a column) throw. *)
Theorem subgrid_made_by_rows_change_has_no_columns
    (m : Model) (p : Ident) (newRows : list Row) (now : Z)
    (idx : nat) (name colKey : string) :
  subGrids m !! prop_key p = None ->
  let m1 := handleSubGridRowsChange (Some p) newRows m in
  subGrids m1 !! prop_key p
  = Some {| sg_columns := None;
            sg_rows := Some (List.filter (fun r => negb (isAddRow r)) newRows);
            sg_expanded := None |}
  /\ (exists msg, handleSubGridAddRow (Some p) m1 = Throw (TypeError msg))
  /\ (exists msg, handleSubGridAddColumn (Some p) now m1 = Throw (TypeError msg))
  /\ (exists msg, handleSubGridColumnNameChange (Some p) idx name m1
                  = Throw (TypeError msg))
  /\ (exists msg, handleSubGridDeleteColumn (Some p) colKey m1 = Throw (TypeError msg)).
Proof.
  intros Hnone m1.
  assert (H1 : subGrids m1 !! prop_key p
               = Some {| sg_columns := None;
                         sg_rows := Some (List.filter (fun r => negb (isAddRow r)) newRows);
                         sg_expanded := None |}).
  { unfold m1, handleSubGridRowsChange, with_grid. cbn [subGrids setSubGrids].
    rewrite lookup_insert_eq, Hnone. reflexivity. }
  split; [exact H1|].
  unfold handleSubGridAddRow, handleSubGridAddColumn, handleSubGridColumnNameChange,
    handleSubGridDeleteColumn.
  rewrite (grid_at_own _ _ _ H1). cbn. repeat split; eauto.
Qed.

Lemma subgrid_made_by_rows_change_has_no_columns_witness :
  exists msg,
    handleSubGridAddRow (Some (IdNum 2))
      (handleSubGridRowsChange (Some (IdNum 2)) [ {["id" := VNum 1]} ] sample_model)
    = Throw (TypeError msg).
Proof.
  pose proof (subgrid_made_by_rows_change_has_no_columns sample_model (IdNum 2)
                [ {["id" := VNum 1]} ] 0 0 "" "" eq_refl) as Hthm.
  cbv zeta in Hthm. destruct Hthm as (_ & Hthrows & _). exact Hthrows.
Defined.

(** The parent row of the sub-grid that an event addresses. *)
Definition subgrid_parent (e : Event) : option Ident :=
  match e with
  | EnsureSubGrid p | ToggleSubGrid p | DeleteSubGrid p | SubGridAddColumn p _
  | SubGridAddRow p | SubGridRowsChange p _ | SubGridColumnNameChange p _ _
  | SubGridDeleteRow p _ | SubGridDeleteColumn p _ => p
  | AddSubGrid p => Some p
  | _ => None
  end.

(** X23.  The sub-grids and the rest of the state do not touch each other.
    An event that is not a sub-grid event leaves every sub-grid as it is:
    deleting a row or a ScoreCard keeps the sub-grid of the row, and a
    change of the selected ScoreCard keeps the sub-grids, which are kept by
    row id alone.  A sub-grid event leaves the ScoreCards, the comments,
    the selection and the sorting alone, and changes the sub-grid of its
    parent only. *)
Theorem subgrid_events_are_local `{Codec} (m : Model) (e : Event) :
  (subgrid_event e = false -> subGrids (step m e) = subGrids m)
  /\ (subgrid_event e = true ->
      scorecards (step m e) = scorecards m
      /\ comments (step m e) = comments m
      /\ selectedCategory (step m e) = selectedCategory m
      /\ sortColumns (step m e) = sortColumns m
      /\ (forall q, prop_key <$> subgrid_parent e <> Some q ->
            subGrids (step m e) !! q = subGrids m !! q)).
Proof.
  split.
  { intros He. apply step_keeps; try reflexivity.
    destruct e; try discriminate; cbn [handler]; unfold_handlers;
      repeat case_match; simplify_eq; reflexivity. }
  intros He.
  assert (Hfield : forall {A} (f : Model -> A),
            (forall v x, f (setItem "scorecards" v x) = f x) ->
            (forall s x, f (setScorecards s x) = f x) ->
            (forall c x, f (setCategoryData c x) = f x) ->
            (forall g x, f (setSubGrids g x) = f x) ->
            f (step m e) = f m).
  { intros A f H1 H2 H3 H4. apply step_keeps; try assumption.
    destruct e; try discriminate; cbn [handler]; unfold_handlers;
      repeat case_match; simplify_eq; rewrite ?H4; reflexivity. }
  split; [|split; [|split; [|split]]].
  - destruct (subgrid_handler_frame e m He) as (_ & Href & Hsel).
    unfold step, react. rewrite Hsel, (bool_decide_eq_true_2 _ eq_refl).
    rewrite Href, (bool_decide_eq_true_2 _ eq_refl).
    destruct e; try discriminate; cbn [handler]; unfold_handlers;
      repeat case_match; simplify_eq; reflexivity.
  - apply (Hfield _ comments); reflexivity.
  - apply (Hfield _ selectedCategory); reflexivity.
  - apply (Hfield _ sortColumns); reflexivity.
  - intros q Hq.
    apply (step_keeps (fun x => subGrids x !! q)); try reflexivity.
    destruct e; try discriminate; cbn [handler]; unfold_handlers;
      repeat case_match; simplify_eq;
      cbn [subgrid_parent fmap option_fmap option_map] in Hq; cbn;
      rewrite ?lookup_insert_ne, ?lookup_delete_ne by congruence; reflexivity.
Qed.

Lemma subgrid_events_are_local_witness :
  subGrids (step (H := text_codec) subgrid_model (DeleteRow 1)) = subGrids subgrid_model
  /\ scorecards (step (H := text_codec) subgrid_model (SubGridAddRow (Some (IdNum 1))))
     = scorecards subgrid_model.
Proof.
  split.
  - apply (subgrid_events_are_local (H := text_codec) subgrid_model (DeleteRow 1)).
    reflexivity.
  - apply (subgrid_events_are_local (H := text_codec) subgrid_model
             (SubGridAddRow (Some (IdNum 1)))).
    reflexivity.
Defined.

(** ** The rows handed to the grid and taken back *)

Section DisplayFacts.
Context `{Codec}.
Variable strict_eq greater : value -> value -> bool.

Lemma getSortedRows_perm m : getSortedRows strict_eq greater m ≡ₚ current_rows m.
Proof.
  unfold getSortedRows. destruct (sortColumns m); [reflexivity | apply array_sort_perm].
Qed.



(** X25.  Choosing a status in the picker writes the status into the cell
    of the displayed row and hands the displayed rows to [onRowsChange]:
    the grid then holds as many rows as before, in the displayed order,
    the row at the index with the new value under the column key (unless
    the key is ['__proto__']) and its other fields, and every other
    displayed row, as they were.  With an index past the displayed rows,
    and so whenever there is no current grid, the handler throws. *)
Theorem StatusPicker_onSelect_spec (m : Model) (rowIdx : nat) (key v : string) :
  let sorted := getSortedRows strict_eq greater m in
  ((length sorted <= rowIdx)%nat ->
     exists msg, StatusPicker_onSelect strict_eq greater rowIdx key v m
                 = Throw (TypeError msg))
  /\ (forall cd row,
        getCurrentData m = Some cd -> sorted !! rowIdx = Some row ->
        exists m' rows',
          StatusPicker_onSelect strict_eq greater rowIdx key v m = Ok m'
          /\ getCurrentData m' = Some {| columns := columns cd; rows := rows' |}
          /\ length rows' = length (rows cd)
          /\ (key <> "__proto__" ->
              exists row', rows' !! rowIdx = Some row'
                           /\ row' !! key = Some (VStr v)
                           /\ forall k, k <> key -> row' !! k = row !! k)
          /\ (forall j, j <> rowIdx -> rows' !! j = sorted !! j)
          /\ (sortColumns m = [] ->
              forall j, j <> rowIdx -> rows' !! j = rows cd !! j)).
Proof.
  intros sorted. unfold StatusPicker_onSelect. fold sorted. split.
  - intros Hlen. rewrite (lookup_ge_None_2 _ _ Hlen). eauto.
  - intros cd row Hcd Hrow. rewrite Hrow. unfold onRowsChange.
    set (rows' := <[rowIdx := js_assign key (VStr v) row]> sorted).
    destruct (updateCurrentData_current (only_rows rows') m cd Hcd)
      as (sel & Hsel & Hpre & Hup & Hget).
    rewrite Hup. cbn [bind].
    rewrite (when_retailers_scorecard _ _ sel) by assumption.
    assert (Hcur : current_rows m = rows cd)
      by (unfold current_rows; rewrite Hcd; reflexivity).
    eexists. exists rows'. split; [reflexivity|]. split; [exact Hget|].
    split.
    { unfold rows'. rewrite length_insert. unfold sorted.
      rewrite (Permutation_length (getSortedRows_perm m)), Hcur. reflexivity. }
    split.
    { intros Hproto. exists (js_assign key (VStr v) row). split.
      - unfold rows'. apply list_lookup_insert_eq.
        apply lookup_lt_Some in Hrow. exact Hrow.
      - split; [apply js_assign_same, Hproto|].
        intros k Hk. apply js_assign_other. congruence. }
    split.
    { intros j Hj. unfold rows'. apply list_lookup_insert_ne. congruence. }
    intros Hsort j Hj. unfold rows'. rewrite list_lookup_insert_ne by congruence.
    unfold sorted, getSortedRows. rewrite Hsort, Hcur. reflexivity.
Qed.

End DisplayFacts.


Lemma StatusPicker_onSelect_spec_witness :
  (exists msg,
     StatusPicker_onSelect (H := text_codec) (fun _ _ => false) (fun _ _ => false)
       2 "buyer" "Authorized" sample_model = Throw (TypeError msg))
  /\ exists m',
       StatusPicker_onSelect (H := text_codec) (fun _ _ => false) (fun _ _ => false)
         1 "buyer" "Authorized" sample_model = Ok m'
       /\ (rows <$> getCurrentData m')
          = Some [ <["name" := VStr "Item 1"]> {["id" := VNum 1]};
                   <["buyer" := VStr "Authorized"]>
                     (<["name" := VStr "Item 2"]> {["id" := VNum 2]}) ].
Proof.
  split.
  - apply (StatusPicker_onSelect_spec (H := text_codec)
             (fun _ _ => false) (fun _ _ => false) sample_model 2 "buyer" "Authorized").
    vm_compute. lia.
  - pose proof (StatusPicker_onSelect_spec (H := text_codec)
                  (fun _ _ => false) (fun _ _ => false) sample_model 1 "buyer"
                  "Authorized") as Hthm.
    cbv zeta in Hthm. destruct Hthm as [_ Hselect].
    destruct (Hselect sample_grid (<["name" := VStr "Item 2"]> {["id" := VNum 2]})
                eq_refl eq_refl) as (m' & rows' & Hrun & _).
    exists m'. split; [exact Hrun|].
    vm_compute in Hrun. injection Hrun as <-. reflexivity.
Defined.

(** ** The keys of the status picker *)





(** ** The contact card *)

(** X27.  The button Save of the contact card writes the contact, a copy of
    the data of the card, under the key of the card into the first row of
    the current grid whose id is the row id of the card, leaves every other
    row and the columns alone and closes the card; opening the card again
    from the cell of that row shows the data that was saved.  When no row
    has that id, nothing is saved and the card stays open.  A cell opens
    the card with the id of its row when the id is a number and with 0
    otherwise, so the contact of a row whose id is not a number goes to the
    first row with id 0, or nowhere. *)
Theorem saveContact_spec (c : Contacts) (cm : ContactModal) (m : Model) (cd : GridData) :
  openContactModal c = Some cm -> getCurrentData m = Some cd ->
  let contact := VObj (map_to_list (contactModalData c)) in
  (forall idx row,
     rows cd !! idx = Some row -> row !! "id" = Some (VNum (cm_rowId cm)) ->
     (forall j r, (j < idx)%nat -> rows cd !! j = Some r ->
        r !! "id" <> Some (VNum (cm_rowId cm))) ->
     exists m',
       saveContact c m
       = Ok (m', {| openContactModal := None; contactModalData := contactModalData c |})
       /\ getCurrentData m'
          = Some {| columns := columns cd;
                    rows := <[idx := <[cm_key cm := contact]> row]> (rows cd) |}
       /\ contactModalData (openContactFromCell (cm_key cm) (<[cm_key cm := contact]> row))
          = contactModalData c)
  /\ ((forall r, r ∈ rows cd -> r !! "id" <> Some (VNum (cm_rowId cm))) ->
      saveContact c m = Ok (m, c))
  /\ (forall key (row : Row),
        (forall n, row !! "id" <> Some (VNum n)) ->
        cm_rowId <$> openContactModal (openContactFromCell key row) = Some 0%Z).
Proof.
  intros Hopen Hcd contact. unfold saveContact. rewrite Hopen, Hcd.
  split; [|split].
  - intros idx row Hrow Hid Hfirst.
    rewrite (findIndex_first _ _ idx row Hrow).
    2:{ apply id_is_number, Hid. }
    2:{ intros j r Hj Hr. destruct (id_is (IdNum (cm_rowId cm)) r) eqn:Hr'; [|reflexivity].
        apply id_is_number in Hr'. destruct (Hfirst j r Hj Hr Hr'). }
    fold contact.
    set (updatedRows := imap _ (rows cd)).
    assert (Hrows : updatedRows = <[idx := <[cm_key cm := contact]> row]> (rows cd)).
    { unfold updatedRows. apply list_eq. intros i. rewrite list_lookup_imap.
      destruct (decide (i = idx)) as [->|Hne].
      - rewrite Hrow. cbn. rewrite bool_decide_eq_true_2 by reflexivity.
        rewrite list_lookup_insert_eq; [reflexivity|]. apply lookup_lt_Some in Hrow. exact Hrow.
      - rewrite list_lookup_insert_ne by congruence.
        destruct (rows cd !! i); [|reflexivity]. cbn.
        rewrite bool_decide_eq_false_2 by exact Hne. reflexivity. }
    destruct (updateCurrentData_current (only_rows updatedRows) m cd Hcd)
      as (sel & Hsel & Hpre & Hup & Hget).
    rewrite Hup. cbn [bind]. eexists. split; [reflexivity|]. split.
    + rewrite Hget, Hrows. reflexivity.
    + unfold openContactFromCell, handleOpenContactModal, js_get.
      rewrite lookup_insert_eq. cbn. apply list_to_map_to_list.
  - intros Hnone.
    pose proof (findIndex_spec (id_is (IdNum (cm_rowId cm))) (rows cd)) as Hspec.
    destruct (findIndex _ (rows cd)) as [j|]; [|reflexivity].
    destruct Hspec as (x & Hx & Hp & _). apply id_is_number in Hp.
    destruct (Hnone x); [eapply list_elem_of_lookup_2, Hx | exact Hp].
  - intros key row Hid.
    unfold openContactFromCell, handleOpenContactModal, numeric_id. cbn.
    destruct (row !! "id") as [[[| | |n|]| | | |]|]; try reflexivity.
    destruct (Hid n). reflexivity.
Qed.

Definition ann_card : Contacts :=
  typeContactField "name" "Ann"
    (openContactFromCell "cmg" (<["name" := VStr "Item 1"]> {["id" := VNum 1]})).

Lemma saveContact_spec_witness :
  exists m',
    saveContact ann_card sample_model
    = Ok (m', {| openContactModal := None;
                 contactModalData := contactModalData ann_card |})
    /\ (rows <$> getCurrentData m')
       = Some [ <["cmg" := VObj (map_to_list (contactModalData ann_card))]>
                  (<["name" := VStr "Item 1"]> {["id" := VNum 1]});
                <["name" := VStr "Item 2"]> {["id" := VNum 2]} ].
Proof.
  pose proof (saveContact_spec ann_card
                {| cm_rowId := 1; cm_key := "cmg"; cm_value := VPrim PUndef |}
                sample_model sample_grid eq_refl eq_refl) as Hthm.
  cbv zeta in Hthm. destruct Hthm as (Hsave & _).
  destruct (Hsave 0%nat (<["name" := VStr "Item 1"]> {["id" := VNum 1]})
              eq_refl eq_refl) as (m' & Hrun & Hgrid & _).
  - intros j r Hj. lia.
  - exists m'. split; [exact Hrun|]. rewrite Hgrid. reflexivity.
Defined.

(** ** The grid after an import *)

Lemma vertical_column_keys keys cols :
  mapM vertical_column keys = Ok cols -> keys = map PStr (map col_key cols).
Proof.
  intros Hcols. apply mapM_Ok in Hcols.
  induction Hcols as [|k c keys cols Hk _ IH]; [reflexivity|].
  cbn. rewrite <- IH. f_equal.
  destruct k as [| | | |s]; try discriminate. injection Hk as <-. reflexivity.
Qed.

(** The properties of an imported row are named by the imported columns,
    ['_rowIndex'] apart. *)
Lemma parse_sheet_keys rows2D i obj k v :
  parse_sheet rows2D = Ok (Some i) ->
  obj ∈ formattedRows i -> obj !! k = Some v ->
  k = "_rowIndex" \/ k ∈ map col_key (importedColumns i).
Proof.
  unfold parse_sheet. destruct rows2D as [|r0 rest]; [discriminate|].
  set (rows2D := r0 :: rest). destruct (isVertical rows2D).
  - unfold import_vertical. intros Hparse Hobj Hk.
    destruct (mapM vertical_column (allKeys (split_blocks rows2D))) as [cols|e] eqn:Hcols;
      [|discriminate].
    cbn in Hparse. injection Hparse as <-. cbn in *.
    pose proof (vertical_column_keys _ _ Hcols) as Hkeys.
    apply list_elem_of_In, filter_In in Hobj as [Hobj _].
    apply list_elem_of_In, elem_of_lookup_imap in Hobj as (idx & block & -> & Hblock).
    rewrite Hkeys in Hk.
    apply block_object_dom in Hk; [exact Hk|].
    intros r Hr.
    assert (Hin : field_name r ∈ allKeys (split_blocks rows2D)).
    { apply allKeys_elem. exists block, r.
      split; [eapply list_elem_of_lookup_2, Hblock | auto]. }
    rewrite Hkeys in Hin. apply list_elem_of_fmap in Hin as (s & Hs & Hin). eauto.
  - unfold import_horizontal. intros Hparse Hobj Hk.
    destruct (rows2D !! headerRowIndex rows2D) as [headers|]; [|discriminate].
    destruct (mapM normalizeKey headers) as [hs|e]; [|discriminate].
    cbn in Hparse. injection Hparse as <-. cbn in *.
    apply list_elem_of_In, filter_In in Hobj as [Hobj _].
    apply list_elem_of_In, elem_of_lookup_imap in Hobj as (idx & row & -> & _).
    apply row_object_dom in Hk as [Hk|Hk]; [left; exact Hk | right].
    rewrite map_map. cbn. rewrite map_id. exact Hk.
Qed.

Lemma next_id_without_ids (rs : list Row) :
  (forall r, r ∈ rs -> r !! "id" = None) -> next_id rs = 1%Z.
Proof.
  intros Hnone. unfold next_id.
  assert (Hzero : forall r, r ∈ rs -> numeric_id r = 0%Z).
  { intros r Hr. unfold numeric_id. rewrite (Hnone r Hr). reflexivity. }
  destruct rs as [|r rs]; [reflexivity|]. cbn [map].
  rewrite (Hzero r) by apply list_elem_of_here.
  assert (Hmax : forall l : list Row, (forall x, x ∈ l -> numeric_id x = 0%Z) ->
            Math_max 0 (map numeric_id l) = 0%Z).
  { unfold Math_max. induction l as [|x l IH]; intros Hl; [reflexivity|].
    cbn. rewrite (Hl x) by apply list_elem_of_here. cbn.
    apply IH. intros y Hy. apply Hl, list_elem_of_further, Hy. }
  rewrite Hmax; [reflexivity|].
  intros x Hx. apply Hzero, list_elem_of_further, Hx.
Qed.

(** X28.  An import whose columns have no key ['id'] gives the current grid
    rows without an id, since the import numbers its rows under
    ['_rowIndex'] only.  Then every row shows 0 comments, the button that
    deletes a row (it passes the id of the row when that is a number and 0
    otherwise) removes no row whatever number it passes, and the next row
    that is added gets the id 1. *)
Theorem imported_rows_have_no_id `{Codec}
    (rows2D : Sheet) (i : Imported) (m : Model) (cd : GridData) :
  getCurrentData m = Some cd ->
  parse_sheet rows2D = Ok (Some i) ->
  "id" ∉ map col_key (importedColumns i) ->
  exists m' rows',
    handleImportExcel rows2D m = Ok m'
    /\ rows' = map (fun obj : gmap string prim => VPrim <$> obj) (formattedRows i)
    /\ getCurrentData m'
       = Some {| columns := map blank_comments (importedColumns i); rows := rows' |}
    /\ (forall r, r ∈ rows' -> r !! "id" = None)
    /\ (forall r, r ∈ rows' -> commentCount m' r = 0%nat)
    /\ (forall n, exists m'',
          handleDeleteRow n m' = Ok m'' /\ getCurrentData m'' = getCurrentData m')
    /\ next_id rows' = 1%Z.
Proof.
  intros Hcd Hparse Hid.
  set (rows' := map (fun obj : gmap string prim => VPrim <$> obj) (formattedRows i)).
  destruct (updateCurrentData_current
              (columns_and_rows (importedColumns i) rows') m cd Hcd)
    as (sel & Hsel & Hpre & Hup & Hget).
  cbn [default from_option id fmap option_fmap option_map columns_and_rows u_columns u_rows]
    in Hup, Hget.
  assert (Hnone : forall r, r ∈ rows' -> r !! "id" = None).
  { intros r Hr. unfold rows' in Hr. apply list_elem_of_fmap in Hr as (obj & -> & Hobj).
    rewrite lookup_fmap. destruct (obj !! "id") as [v|] eqn:Hv; [|reflexivity].
    destruct (parse_sheet_keys _ _ _ _ _ Hparse Hobj Hv) as [Hk|Hk]; [discriminate|].
    contradiction. }
  eexists. exists rows'. split.
  { unfold handleImportExcel. rewrite Hparse. cbn [bind]. fold rows'. exact Hup. }
  split; [reflexivity|]. split; [exact Hget|]. split; [exact Hnone|].
  split.
  { intros r Hr. unfold commentCount. rewrite (Hnone r Hr). reflexivity. }
  split.
  { intros n. unfold handleDeleteRow. rewrite Hget. cbn [rows].
    assert (Hsame : List.filter (fun r => negb (id_is (IdNum n) r)) rows' = rows').
    { apply forallb_filter_id, forallb_forall. intros r Hr.
      apply list_elem_of_In in Hr. unfold id_is. rewrite (Hnone r Hr). reflexivity. }
    rewrite Hsame.
    destruct (updateCurrentData_current (only_rows rows') _ _ Hget)
      as (sel' & Hsel' & Hpre' & Hup' & Hget').
    rewrite Hup'. cbn [bind].
    rewrite (when_retailers_scorecard _ _ sel') by assumption.
    eexists. split; [reflexivity|]. rewrite Hget'. reflexivity. }
  apply next_id_without_ids, Hnone.
Qed.

Lemma imported_rows_have_no_id_witness :
  exists m',
    handleImportExcel contacts_sheet sample_model = Ok m'
    /\ (rows <$> getCurrentData m')
       = Some [ <["_rowIndex" := VNum 0]>
                  (<["home_city" := VStr "Rome"]> {["name" := VStr "Al"]});
                <["_rowIndex" := VNum 1]>
                  (<["home_city" := VStr ""]> {["name" := VStr "Bo"]}) ]
    /\ forall n, exists m'',
         handleDeleteRow (H := text_codec) n m' = Ok m''
         /\ getCurrentData m'' = getCurrentData m'.
Proof.
  destruct (imported_rows_have_no_id (H := text_codec) contacts_sheet
              {| importedColumns := [imported_column "name"; imported_column "home_city"];
                 formattedRows :=
                   [ <["_rowIndex" := PNum 0]>
                       (<["home_city" := PStr "Rome"]> {["name" := PStr "Al"]});
                     <["_rowIndex" := PNum 1]>
                       (<["home_city" := PStr ""]> {["name" := PStr "Bo"]}) ] |}
              sample_model sample_grid)
    as (m' & rows' & Hrun & Hrows & Hgrid & _ & _ & Hdelete & _).
  - reflexivity.
  - vm_compute. reflexivity.
  - cbn. intros Hin.
    repeat (apply elem_of_cons in Hin as [Hin|Hin]; [discriminate|]). inversion Hin.
  - exists m'. split; [exact Hrun|]. split; [|exact Hdelete].
    rewrite Hgrid, Hrows. vm_compute. reflexivity.
Defined.

(** ** The columns handed to the grid *)

Lemma findIndex_imap {A B} (p : B -> bool) (q : A -> bool) (f : nat -> A -> B) l :
  (forall i x, p (f i x) = q x) -> findIndex p (imap f l) = findIndex q l.
Proof.
  unfold findIndex. generalize 0%nat. revert f.
  induction l as [|x l IH]; intros f n Hpq; [reflexivity|].
  cbn. rewrite Hpq. destruct (q x); [reflexivity|].
  apply IH. intros i y. apply Hpq.
Qed.

Lemma editable_column_key ec role idx col :
  vc_key (editable_column ec role idx col) = col_key col.
Proof. unfold editable_column. repeat case_match; reflexivity. Qed.

Lemma editable_column_cell ec role idx col :
  vc_renderCell (editable_column ec role idx col) <> Some DeleteRowButton.
Proof.
  unfold editable_column, stored.
  repeat case_match; cbn; destruct (col_renderCell col); discriminate.
Qed.

Lemma header_column_key rn rp idx col : vc_key (header_column rn rp idx col) = vc_key col.
Proof. unfold header_column. repeat case_match; reflexivity. Qed.

Lemma header_column_cell rn rp idx col :
  vc_renderCell (header_column rn rp idx col) = vc_renderCell col.
Proof. unfold header_column. repeat case_match; reflexivity. Qed.

Lemma with_comments_elem cols c :
  c ∈ with_comments cols -> c = commentColumn \/ c ∈ cols.
Proof.
  unfold with_comments. destruct (findIndex _ cols) as [n|]; [|auto].
  rewrite elem_of_app, elem_of_cons.
  intros [Hc | [-> | Hc]]; [right | left; reflexivity | right].
  - eapply subseteq_take, Hc.
  - eapply subseteq_drop, Hc.
Qed.

(** The keys of the grid columns: those of the stored columns, with
    ['comments'] behind the first ['name'], and without ['delete']. *)

(** The keys of the stored columns with the key of the comments column put
    after the first key ['name'] and the keys ['delete'] left out. *)
Definition grid_keys (ks : list string) : list string :=
  List.filter (fun k => negb (bool_decide (k = "delete")))
    (match findIndex (fun k => bool_decide (k = "name")) ks with
     | Some n => take (n + 1) ks ++ "comments" :: drop (n + 1) ks
     | None => ks
     end).

Lemma map_filter_key (l : list ViewColumn) :
  map vc_key (List.filter (fun c => negb (bool_decide (vc_key c = "delete"))) l)
  = List.filter (fun k => negb (bool_decide (k = "delete"))) (map vc_key l).
Proof.
  induction l as [|c l IH]; [reflexivity|]. cbn.
  destruct (bool_decide (vc_key c = "delete")); cbn; rewrite IH; reflexivity.
Qed.

Lemma findIndex_map {A B} (p : B -> bool) (f : A -> B) l :
  findIndex p (map f l) = findIndex (fun x => p (f x)) l.
Proof.
  unfold findIndex. generalize 0%nat.
  induction l as [|x l IH]; intros n; [reflexivity|].
  cbn. destruct (p (f x)); [reflexivity | apply IH].
Qed.

(** X29.  The main grid never shows the column with the button that deletes
    a row: [columnsWithDelete] appends that column and then filters out
    every column with the key ['delete'], so no column handed to the grid
    has that key or that button, in either mode and for every role.  The
    keys of the columns shown are those of the stored columns, with
    ['comments'] put after the first ['name'] and ['delete'] left out; every
    column with the key ['comments'] has an empty name and an empty header;
    without a current grid no column is shown. *)
Theorem columnsWithDelete_has_no_delete_column (editColumns : bool) (m : Model) :
  (forall c, c ∈ columnsWithDelete editColumns m ->
     vc_key c <> "delete" /\ vc_renderCell c <> Some DeleteRowButton)
  /\ (forall c, c ∈ columnsWithDelete editColumns m -> vc_key c = "comments" ->
        vc_name c = "" /\ vc_renderHeaderCell c = Some Nothing)
  /\ (forall cd, getCurrentData m = Some cd ->
        map vc_key (columnsWithDelete editColumns m)
        = grid_keys (map col_key (columns cd)))
  /\ (getCurrentData m = None -> columnsWithDelete editColumns m = []).
Proof.
  unfold columnsWithDelete. cbv zeta.
  set (rn := getCurrentData m ≫= _). set (rp := getCurrentData m ≫= _).
  split; [|split; [|split]].
  - intros c Hc. apply elem_of_lookup_imap in Hc as (i & x & -> & Hx).
    apply list_elem_of_lookup_2, list_elem_of_In, filter_In in Hx as [Hx Hk].
    apply negb_true_iff, bool_decide_eq_false_1 in Hk.
    rewrite header_column_key, header_column_cell. split; [exact Hk|].
    apply list_elem_of_In, elem_of_app in Hx as [Hx|Hx].
    + apply with_comments_elem in Hx as [->|Hx]; [discriminate|].
      unfold editableColumns in Hx. destruct (getCurrentData m) as [cd|]; [|inversion Hx].
      apply elem_of_lookup_imap in Hx as (j & col & -> & _).
      apply editable_column_cell.
    + apply list_elem_of_singleton in Hx. subst x. destruct Hk. reflexivity.
  - intros c Hc Hk. apply elem_of_lookup_imap in Hc as (i & x & -> & _).
    rewrite header_column_key in Hk. unfold header_column.
    rewrite (bool_decide_eq_true_2 _ Hk). split; reflexivity.
  - intros cd Hcd.
    assert (Hmap : forall l, map vc_key (imap (header_column rn rp) l) = map vc_key l).
    { intros l. apply list_eq. intros i.
      change (map vc_key) with (fmap (M := list) vc_key).
      rewrite !list_lookup_fmap, list_lookup_imap.
      destruct (l !! i); [|reflexivity]. cbn. rewrite header_column_key. reflexivity. }
    rewrite Hmap, map_filter_key, map_app. cbn [map].
    unfold grid_keys. rewrite List.filter_app. cbn [List.filter vc_key deleteColumn].
    rewrite bool_decide_eq_true_2 by reflexivity. cbn [negb]. rewrite app_nil_r.
    f_equal. unfold editableColumns. rewrite Hcd.
    set (ecols := imap _ (columns cd)).
    assert (Hkeys : map vc_key ecols = map col_key (columns cd)).
    { unfold ecols. apply list_eq. intros i.
      change (map vc_key) with (fmap (M := list) vc_key).
      change (map col_key) with (fmap (M := list) col_key).
      rewrite !list_lookup_fmap, list_lookup_imap.
      destruct (columns cd !! i); [|reflexivity]. cbn.
      rewrite editable_column_key. reflexivity. }
    unfold with_comments. rewrite <- Hkeys, findIndex_map.
    destruct (findIndex _ ecols) as [n|]; [|reflexivity].
    rewrite map_app. cbn [map].
    change (map vc_key) with (fmap (M := list) vc_key).
    rewrite fmap_take, fmap_drop. reflexivity.
  - intros Hnone. unfold editableColumns. rewrite Hnone. reflexivity.
Qed.

(** The header that [editableColumns] gives a column which is not the
    comments column. *)
Lemma editable_column_header ec role idx col :
  col_key col <> "comments" ->
  vc_renderHeaderCell (editable_column ec role idx col)
  = if ec then Some (NameInput idx) else stored (col_renderHeaderCell col).
Proof.
  intros Hk. unfold editable_column, has_key.
  rewrite (bool_decide_eq_false_2 (col_key col = "comments") Hk).
  destruct (bool_decide (col_key col = "retail_price")), ec; reflexivity.
Qed.

(** X30.  In a grid whose first stored column is ['name'], followed by
    product columns and then by ['retail_price'], a product column is shown
    two places after the start, behind the comments column.  Its header
    has the button that deletes the column exactly when it is not the last
    product column: the test takes the place of a column among the columns
    shown, where the comments column has moved it by one, against the
    places of ['name'] and ['retail_price'] among the stored columns.  The
    last product column keeps the header of [editableColumns]: the input
    for its name when the columns are being edited, otherwise its stored
    header or its name. *)
Theorem last_product_column_has_no_delete_button
    (editColumns : bool) (m : Model) (cd : GridData)
    (nameCol priceCol : MyColumn) (products rest : list MyColumn) :
  getCurrentData m = Some cd ->
  columns cd = nameCol :: products ++ priceCol :: rest ->
  col_key nameCol = "name" -> col_key priceCol = "retail_price" ->
  (forall c, c ∈ products ->
     col_key c <> "name" /\ col_key c <> "retail_price"
     /\ col_key c <> "comments" /\ col_key c <> "delete") ->
  forall j c, products !! j = Some c ->
    exists vc,
      columnsWithDelete editColumns m !! (j + 2)%nat = Some vc
      /\ vc_key vc = col_key c
      /\ (vc_renderHeaderCell vc = Some (DeleteColumnButton (col_key c))
          <-> (j + 1 < length products)%nat)
      /\ ((j + 1 = length products)%nat ->
          vc_renderHeaderCell vc
          = if editColumns then Some (NameInput (j + 1))
            else match col_renderHeaderCell c with
                 | Some r => Some (Stored r)
                 | None => Some NameLabel
                 end).
Proof.
  intros Hcd Hcols Hname Hprice Hprod j c Hj.
  unfold columnsWithDelete. cbv zeta. rewrite Hcd. cbn [mbind option_bind].
  (* the two indices *)
  assert (Hrn : findIndex (has_key "name") (columns cd) = Some 0%nat).
  { rewrite Hcols. apply (findIndex_first _ _ 0%nat nameCol); [reflexivity| |lia].
    unfold has_key. apply bool_decide_eq_true_2, Hname. }
  assert (Hrp : findIndex (has_key "retail_price") (columns cd)
                = Some (S (length products))).
  { rewrite Hcols. apply (findIndex_first _ _ (S (length products)) priceCol).
    - change ((products ++ priceCol :: rest) !! length products = Some priceCol).
      apply list_lookup_middle. reflexivity.
    - unfold has_key. apply bool_decide_eq_true_2, Hprice.
    - intros i y Hi Hy. unfold has_key. apply bool_decide_eq_false_2.
      destruct i as [|i].
      + injection Hy as <-. rewrite Hname. discriminate.
      + change ((products ++ priceCol :: rest) !! i = Some y) in Hy.
        rewrite lookup_app_l in Hy by lia.
        apply list_elem_of_lookup_2 in Hy. apply (Hprod y Hy). }
  rewrite Hrn, Hrp.
  (* the list that is filtered *)
  set (e := editable_column editColumns (userRole m)).
  assert (Hedit : editableColumns editColumns m
                  = e 0%nat nameCol
                    :: imap (e ∘ S) products
                    ++ imap (e ∘ (fun i => S (length products + i))) (priceCol :: rest)).
  { unfold editableColumns. rewrite Hcd, Hcols. cbn [imap]. f_equal.
    rewrite imap_app. reflexivity. }
  assert (Hwith : with_comments (editableColumns editColumns m)
                  = e 0%nat nameCol :: commentColumn
                    :: imap (e ∘ S) products
                    ++ imap (e ∘ (fun i => S (length products + i))) (priceCol :: rest)).
  { unfold with_comments. rewrite Hedit.
    rewrite (findIndex_first _ _ 0%nat (e 0%nat nameCol)); [reflexivity|reflexivity| |lia].
    unfold e. rewrite editable_column_key. apply bool_decide_eq_true_2, Hname. }
  rewrite Hwith.
  set (tail := imap (e ∘ (fun i => S (length products + i))) (priceCol :: rest)).
  assert (Hkeep : List.filter (fun c => negb (bool_decide (vc_key c = "delete")))
                    ((e 0%nat nameCol :: commentColumn :: imap (e ∘ S) products ++ tail)
                     ++ [deleteColumn])
                  = e 0%nat nameCol :: commentColumn :: imap (e ∘ S) products
                    ++ List.filter (fun c => negb (bool_decide (vc_key c = "delete")))
                         (tail ++ [deleteColumn])).
  { cbn [app List.filter].
    assert (Hk0 : bool_decide (vc_key (e 0%nat nameCol) = "delete") = false).
    { apply bool_decide_eq_false_2. unfold e. rewrite editable_column_key, Hname.
      discriminate. }
    rewrite Hk0. cbn [negb].
    rewrite (bool_decide_eq_false_2 (vc_key commentColumn = "delete")) by discriminate.
    cbn [negb]. f_equal. f_equal. rewrite <- app_assoc, List.filter_app. f_equal.
    apply forallb_filter_id, forallb_forall. intros x Hx.
    apply list_elem_of_In, elem_of_lookup_imap in Hx as (i & y & -> & Hy).
    cbn. unfold e. rewrite editable_column_key.
    apply negb_true_iff, bool_decide_eq_false_2.
    apply list_elem_of_lookup_2 in Hy. apply (Hprod y Hy). }
  rewrite Hkeep. clear Hkeep.
  assert (Hlook : (e 0%nat nameCol :: commentColumn :: imap (e ∘ S) products
                   ++ List.filter (fun c => negb (bool_decide (vc_key c = "delete")))
                        (tail ++ [deleteColumn])) !! (j + 2)%nat
                  = Some (e (S j) c)).
  { replace (j + 2)%nat with (S (S j)) by lia.
    change ((imap (e ∘ S) products
             ++ List.filter (fun c => negb (bool_decide (vc_key c = "delete")))
                  (tail ++ [deleteColumn])) !! j = Some (e (S j) c)).
    rewrite lookup_app_l by (rewrite length_imap; eapply lookup_lt_Some, Hj).
    rewrite list_lookup_imap, Hj. reflexivity. }
  rewrite list_lookup_imap, Hlook. cbn [fmap option_fmap option_map].
  destruct (Hprod c (list_elem_of_lookup_2 _ _ _ Hj)) as (Hn & Hp & Hc & Hd).
  set (x := e (S j) c).
  assert (Hkx : vc_key x = col_key c) by apply editable_column_key.
  assert (Hhx : vc_renderHeaderCell x
                = if editColumns then Some (NameInput (S j))
                  else stored (col_renderHeaderCell c))
    by (apply editable_column_header, Hc).
  assert (Hk1 : bool_decide (vc_key x = "comments") = false)
    by (apply bool_decide_eq_false_2; congruence).
  assert (Hk2 : bool_decide (vc_key x = "name") = false)
    by (apply bool_decide_eq_false_2; congruence).
  assert (Hk3 : bool_decide (vc_key x = "retail_price") = false)
    by (apply bool_decide_eq_false_2; congruence).
  eexists. split; [reflexivity|].
  unfold header_column. rewrite Hk1, Hk2, Hk3. cbn [negb andb]. rewrite !andb_true_r.
  unfold isBetween.
  assert (H0 : (0 <? j + 2)%nat = true) by (apply Nat.ltb_lt; lia).
  rewrite H0. cbn [andb].
  destruct (j + 2 <? S (length products))%nat eqn:Hlt.
  - apply Nat.ltb_lt in Hlt. cbn [vc_key with_header vc_renderHeaderCell].
    split; [exact Hkx|]. split; [|lia].
    rewrite Hkx. split; [lia | reflexivity].
  - apply Nat.ltb_ge in Hlt. cbn [vc_key with_header vc_renderHeaderCell].
    split; [exact Hkx|]. rewrite Hhx. split.
    + split; [|lia]. unfold stored.
      destruct editColumns; [discriminate|].
      destruct (col_renderHeaderCell c); discriminate.
    + intros _. replace (j + 1)%nat with (S j) by lia. unfold stored.
      destruct editColumns; [reflexivity|].
      destruct (col_renderHeaderCell c); reflexivity.
Qed.

Definition product_card : ScoreCard :=
  {| sc_id := "scorecard_1700000000000"; sc_name := "Spring";
     sc_columns :=
       default_column "name" "Retailer Name" true true None None
       :: [imported_column "soap"; imported_column "tea"]
       ++ default_column "retail_price" "Retail Price" true true None (Some PriceInput)
       :: [];
     sc_rows := [];
     sc_createdAt := CreatedDate "2023-11-14T22:13:20.000Z" |}.

Definition product_model : Model :=
  setSelectedCategory (Some "scorecard_1700000000000")
    (setScorecards [product_card] (fresh "ADMIN")).

Lemma last_product_column_has_no_delete_button_witness :
  exists vc,
    columnsWithDelete false product_model !! 3%nat = Some vc
    /\ vc_key vc = "tea"
    /\ vc_renderHeaderCell vc = Some NameLabel.
Proof.
  destruct (last_product_column_has_no_delete_button false product_model
              {| columns := sc_columns product_card; rows := [] |}
              (default_column "name" "Retailer Name" true true None None)
              (default_column "retail_price" "Retail Price" true true None (Some PriceInput))
              [imported_column "soap"; imported_column "tea"] []
              eq_refl eq_refl eq_refl eq_refl)
    with (j := 1%nat) (c := imported_column "tea")
    as (vc & Hvc & Hkey & _ & Hlast).
  - intros c Hc.
    repeat (apply elem_of_cons in Hc as [->|Hc]; [repeat split; discriminate|]).
    inversion Hc.
  - reflexivity.
  - exists vc. split; [exact Hvc|]. split; [exact Hkey|]. apply (Hlast eq_refl).
Defined.
